(** * Hierarchical species -> breed router: a shallow embedding

    This development embeds the decision logic of the two Streamlit
    front ends of the repository,

    - [app.py]                (module [App] below), and
    - [app_comprehensive.py]  (modules [Quality], [Crop], [Router],
                               [Session], [Evidence], [Main] and
                               [Labels.ensure_labels]),

    and proves properties of the embedded code.

    Modelling conventions.

    - Probabilities, confidences, thresholds and quality metrics are
      [Q].  Comparisons of finite floats are exact, so every branch the
      code takes on a comparison is taken by the model as well; float
      rounding inside arithmetic is not modelled.
    - A Keras model is a function from the prepared input tensor to
      either a probability vector or a raised exception.
    - numpy / OpenCV reductions over the pixel buffer (Laplacian
      variance, mean, standard deviation, argsort) are inputs of the
      model, not recomputed.
    - A module-level name that is read and never bound raises
      [NameError] where it is read.
    - Streamlit display calls ([st.write], [st.progress], [st.metric],
      ...) are taken to accept what they are given; of the Streamlit
      calls only [st.stop] and [st.rerun] end a run.
    - Python exceptions are values of [exn]; code that can raise lives
      in the monad [M], which also threads the mutable state and logs
      the observable events (model invocations and UI calls) in order. *)

From Stdlib Require Import QArith Qround Qminmax Lqa ZArith List String Ascii Bool Lia.
From Stdlib Require Import DecimalString Sorted Permutation.
From Stdlib Require DecimalNat.
From stdpp Require Import base option gmap strings sorting.
From stdpp Require list.
Import ListNotations.

Local Open Scope string_scope.
Local Open Scope list_scope.
Local Open Scope Q_scope.
Local Open Scope nat_scope.

(* ================================================================== *)
(** * Part I. The embedding                                            *)
(* ================================================================== *)

(** ** Python runtime fragments *)
Module Py.

(** The exceptions the embedded code can meet. *)
Inductive exn : Type :=
| IndexError
| ValueError
| NameError (name : string)
| AttributeError
| ZeroDivisionError
| OSError
| JSONDecodeError
| NotADirectoryError
| IsADirectoryError
| ModelError              (* raised inside [model.predict] *)
| StopException.          (* raised by [st.stop()] *)

Inductive result (A : Type) : Type :=
| Ok (a : A)
| Raise (e : exn).
Arguments Ok {A} a.
Arguments Raise {A} e.

Definition is_ok {A} (r : result A) : bool :=
  match r with Ok _ => true | Raise _ => false end.

(** [l[i]] for a non-negative index. *)
Definition index {A} (l : list A) (i : nat) : result A :=
  match nth_error l i with
  | Some x => Ok x
  | None => Raise IndexError
  end.

(** [l[a:b]] for non-negative bounds: clamps, never raises. *)
Definition slice {A} (a b : nat) (l : list A) : list A :=
  firstn (b - a) (skipn a l).

Definition Qltb (x y : Q) : bool := negb (Qle_bool y x).

(** [np.argmax]: index of the first occurrence of the maximum. *)
Fixpoint argmax_from (best_i : nat) (best : Q) (i : nat) (l : list Q) : nat :=
  match l with
  | [] => best_i
  | x :: t =>
      if Qltb best x then argmax_from i x (S i) t
      else argmax_from best_i best (S i) t
  end.

Definition argmax (l : list Q) : result nat :=
  match l with
  | [] => Raise ValueError
  | x :: t => Ok (argmax_from 0 x 1 t)
  end.

(** Built-in [max] over a sequence. *)
Definition max_list (l : list Q) : result Q :=
  match l with
  | [] => Raise ValueError
  | x :: t => Ok (fold_left (fun m y => if Qltb m y then y else m) t x)
  end.

(** [str.lower()] on the ASCII range. *)
Definition lower_ascii (c : ascii) : ascii :=
  let n := nat_of_ascii c in
  if (65 <=? n) && (n <=? 90) then ascii_of_nat (n + 32) else c.

Fixpoint lower (s : string) : string :=
  match s with
  | EmptyString => EmptyString
  | String c t => String (lower_ascii c) (lower t)
  end.

(** [f"{n}"] for a non-negative integer. *)
Definition str_of_nat (n : nat) : string :=
  NilEmpty.string_of_uint (Nat.to_uint n).

(** [sorted(names)] on strings: code-point order. *)
Definition str_le (a b : string) : Prop := String.leb a b = true.

#[global] Instance str_le_dec a b : Decision (str_le a b).
Proof. unfold str_le. apply _. Defined.

Definition sorted (l : list string) : list string := merge_sort str_le l.

End Py.
Export Py.

(** ** The effect monad: state, event log, exceptions *)
Module Eff.

Section WithState.
Context {E S : Type}.

Record Outcome (A : Type) : Type := mkOutcome {
  events : list E;          (* what happened, in order *)
  final : S;                (* the state afterwards *)
  value : result A          (* normal value or pending exception *)
}.

Definition M (A : Type) : Type := S -> Outcome A.

Definition ret {A} (a : A) : M A :=
  fun s => mkOutcome A [] s (Ok a).

Definition raise {A} (e : exn) : M A :=
  fun s => mkOutcome A [] s (Raise e).

Definition bind {A B} (m : M A) (k : A -> M B) : M B :=
  fun s =>
    match m s with
    | mkOutcome _ ev s1 (Ok a) =>
        match k a s1 with
        | mkOutcome _ ev2 s2 v => mkOutcome B (ev ++ ev2) s2 v
        end
    | mkOutcome _ ev s1 (Raise e) => mkOutcome B ev s1 (Raise e)
    end.

Definition emit (e : E) : M unit :=
  fun s => mkOutcome unit [e] s (Ok tt).

Definition get : M S := fun s => mkOutcome S [] s (Ok s).
Definition put (s : S) : M unit := fun _ => mkOutcome unit [] s (Ok tt).
Definition modify (f : S -> S) : M unit := fun s => mkOutcome unit [] (f s) (Ok tt).

Definition lift {A} (r : result A) : M A :=
  fun s => mkOutcome A [] s r.

(** [try: m except Exception: h] *)
Definition try_except {A} (m : M A) (h : exn -> M A) : M A :=
  fun s =>
    match m s with
    | mkOutcome _ ev s1 (Ok a) => mkOutcome A ev s1 (Ok a)
    | mkOutcome _ ev s1 (Raise e) =>
        match h e s1 with
        | mkOutcome _ ev2 s2 v => mkOutcome A (ev ++ ev2) s2 v
        end
    end.

(** [for x in xs: body x] *)
Fixpoint for_each {A} (xs : list A) (body : A -> M unit) : M unit :=
  match xs with
  | [] => ret tt
  | x :: t => bind (body x) (fun _ => for_each t body)
  end.

Definition when (b : bool) (m : M unit) : M unit :=
  if b then m else ret tt.

End WithState.

Arguments Outcome : clear implicits.
Arguments M : clear implicits.
Arguments mkOutcome {E S A}.
Arguments events {E S A}.
Arguments final {E S A}.
Arguments value {E S A}.

End Eff.
Export Eff.

Declare Scope eff_scope.
Delimit Scope eff_scope with eff.
Notation "x <- m ;; k" := (bind m (fun x => k))
  (at level 100, m at next level, right associativity) : eff_scope.
Notation "m ;; k" := (bind m (fun _ => k))
  (at level 100, right associativity) : eff_scope.

(** ** Quality gate: [assess_image_quality] *)
Module Quality.

(** What the gate measures on the grayscale buffer
    [np.array(image.convert('L'))]: [laplacian_var] is
    [cv2.Laplacian(gray, CV_64F).var()], [gray_mean] is
    [np.mean(gray)] and [gray_std] is [np.std(gray)], all on the
    0..255 scale. *)
Record Stats : Type := mkStats {
  laplacian_var : Q;
  gray_mean : Q;
  gray_std : Q
}.

(** [image.size] together with the measured statistics. *)
Record Measures : Type := mkMeasures {
  width : nat;
  height : nat;
  stats : Stats
}.

(** One entry of the [results] dict. *)
Record Rule : Type := mkRule {
  pass : bool;
  score : Q
}.

Record QualityReport : Type := mkReport {
  resolution : Rule;
  blur : Rule;
  brightness : Rule;
  dynamic_range : Rule;
  file_size : option Rule;      (* key present only when computed *)
  overall_score : Q;
  overall_pass : bool
}.

Definition of_nat (n : nat) : Q := inject_Z (Z.of_nat n).

(** Built-in [min(a, b)]: the first minimal argument. *)
Definition min2 (a b : Q) : Q := if Qltb b a then b else a.

(** [np.mean] of a Python list of floats. *)
Definition mean (l : list Q) : Q :=
  fold_right Qplus 0%Q l / of_nat (length l).

Definition resolution_rule (m : Measures) : Rule :=
  {| pass := (512 <=? width m) && (512 <=? height m);
     score := (of_nat (Nat.min (width m) (height m)) / 512)%Q |}.

Definition blur_rule (m : Measures) : Rule :=
  {| pass := Qle_bool 120 (laplacian_var (stats m));
     score := (laplacian_var (stats m) / 120)%Q |}.

Definition brightness_value (m : Measures) : Q := (gray_mean (stats m) / 255)%Q.

Definition brightness_score (b : Q) : Q :=
  if Qltb b (1#2) then min2 (b / (1#4)) ((1 - b) / (1#4)) else 1%Q.

Definition brightness_pass (b : Q) : bool :=
  Qle_bool (1#4) b && Qle_bool b (3#4).

Definition brightness_rule (m : Measures) : Rule :=
  let b := brightness_value m in
  {| pass := brightness_pass b; score := brightness_score b |}.

Definition dynamic_range_rule (m : Measures) : Rule :=
  let d := (gray_std (stats m) / 255)%Q in
  {| pass := Qle_bool (15#100) d; score := (d / (15#100))%Q |}.

Definition file_size_rule (file_size_bytes max_file_size_bytes : Z) : Rule :=
  {| pass := (file_size_bytes <=? max_file_size_bytes)%Z;
     score := min2 1 (inject_Z max_file_size_bytes
                      / inject_Z (Z.max 1 file_size_bytes)) |}.

Definition assess_image_quality
    (m : Measures) (file_size_bytes max_file_size_bytes : option Z)
    : QualityReport :=
  let r_res := resolution_rule m in
  let r_blur := blur_rule m in
  let r_bri := brightness_rule m in
  let r_dyn := dynamic_range_rule m in
  let r_fs :=
    match file_size_bytes, max_file_size_bytes with
    | Some sz, Some mx => Some (file_size_rule sz mx)
    | _, _ => None
    end in
  let scores := [score r_res; score r_blur; score r_bri; score r_dyn] in
  {| resolution := r_res;
     blur := r_blur;
     brightness := r_bri;
     dynamic_range := r_dyn;
     file_size := r_fs;
     overall_score := mean scores;
     overall_pass := forallb (fun b => b)
                       [pass r_res; pass r_blur; pass r_bri; pass r_dyn] |}.

(** The brightness score as the specification words it: 1.0 inside
    the safe band above the midpoint, otherwise the distance to the
    end of the scale on the side concerned, over 0.25. *)
Definition spec_brightness_score (b : Q) : Q :=
  if Qle_bool (1#2) b && Qle_bool b (3#4) then 1%Q
  else if Qltb b (1#2) then (b / (1#4))%Q
  else ((1 - b) / (1#4))%Q.

(** Every rule carried by a report, in insertion order of the dict. *)
Definition rules_of (r : QualityReport) : list Rule :=
  [resolution r; blur r; brightness r; dynamic_range r]
  ++ match file_size r with Some f => [f] | None => [] end.

End Quality.

(** ** Crop assistant: [auto_crop_image] *)
Module Crop.

Definition RGB : Type := (nat * nat * nat)%type.

(** The pixel buffer [np.array(image.convert('RGB'))]: a list of rows. *)
Definition Image : Type := list (list RGB).

(** [img_array.shape[0]] and [img_array.shape[1]]. *)
Definition height (img : Image) : nat := length img.
Definition width (img : Image) : nat :=
  match img with [] => 0 | r :: _ => length r end.

Definition well_formed (img : Image) : Prop :=
  Forall (fun r => length r = width img) img.

(** [img_array[y1:y2, x1:x2]] *)
Definition region (y1 y2 x1 x2 : nat) (img : Image) : Image :=
  map (slice x1 x2) (slice y1 y2 img).

(** [Image.fromarray]: taken to accept every buffer. *)
Definition fromarray (a : Image) : result Image := Ok a.

Definition center_weighted (img : Image) : result Image :=
  let h := Z.of_nat (height img) in
  let w := Z.of_nat (width img) in
  let center_x := (w / 2)%Z in
  let center_y := (h / 2)%Z in
  let crop_size := (inject_Z (Z.min w h) * (8#10))%Q in
  let half := Qfloor (crop_size / 2) in          (* crop_size // 2 *)
  let x1 := Z.max 0 (center_x - half) in
  let y1 := Z.max 0 (center_y - half) in
  let x2 := Z.min w (center_x + half) in
  let y2 := Z.min h (center_y + half) in
  fromarray (region (Z.to_nat y1) (Z.to_nat y2) (Z.to_nat x1) (Z.to_nat x2) img).

Definition min_dim (img : Image) : nat := Nat.min (height img) (width img).
Definition start_x (img : Image) : nat := (width img - min_dim img) / 2.
Definition start_y (img : Image) : nat := (height img - min_dim img) / 2.

Definition center_square (img : Image) : result Image :=
  fromarray (region (start_y img) (start_y img + min_dim img)
                    (start_x img) (start_x img + min_dim img) img).

Definition auto_crop_image (image : Image) (use_face_detection : bool) : Image :=
  match (if use_face_detection then center_weighted image
         else center_square image) with
  | Ok cropped => cropped
  | Raise _ => image              (* except: warn, use the original *)
  end.

(** Pixel at row [r], column [c], when inside the image. *)
Definition pixel_at (img : Image) (r c : nat) : option RGB :=
  match nth_error img r with
  | Some row => nth_error row c
  | None => None
  end.

End Crop.

(** ** Label registry *)
Module Labels.

(** The JSON values label resolution distinguishes.  Items of a list
    are label names; [JOther] stands for null, numbers, booleans and
    objects. *)
Inductive json : Type :=
| JList (items : list string)
| JStr (s : string)
| JOther.

(** A file system entry.  For a regular file, [parsed] is what
    [json.loads(path.read_text())] evaluates to, [None] when reading
    or parsing raises.  For a directory, the children as
    [(name, is_dir)] in the order [iterdir()] yields them. *)
Inductive node : Type :=
| File (parsed : option json)
| Dir (children : list (string * bool)).

Definition FS : Type := gmap string node.
Definition Config : Type := gmap string json.


(** [Path(p).exists()].  The empty path is the working directory,
    which exists. *)
Definition path_exists (fs : FS) (p : string) : bool :=
  if String.eqb p "" then true
  else match fs !! p with Some _ => true | None => false end.

(** [json.loads(Path(p).read_text())] *)
Definition load_json (fs : FS) (p : string) : result json :=
  if String.eqb p "" then Raise IsADirectoryError
  else
    match fs !! p with
    | Some (File (Some v)) => Ok v
    | Some (File None) => Raise JSONDecodeError
    | Some (Dir _) => Raise IsADirectoryError
    | None => Raise OSError
    end.

(** [sorted([d.name for d in train_dir.iterdir() if d.is_dir()])] *)
Definition subdir_names (children : list (string * bool)) : list string :=
  sorted (map fst (List.filter (fun c : string * bool => snd c) children)).

Definition list_subdirs (fs : FS) (train_dir : string) : result (list string) :=
  match fs !! train_dir with
  | Some (Dir children) => Ok (subdir_names children)
  | Some (File _) => Raise NotADirectoryError
  | None => Raise OSError
  end.

Definition train_dir_of (dir_path : string) : string :=
  String.append dir_path "/train".

(** *** app.py *)


Definition _resolve_label_field (fs : FS) (val : option json)
    (fallback_list : list string) : list string :=
  match val with
  | Some (JList (x :: t)) => x :: t
  | Some (JStr p) =>
      if path_exists fs p then
        match load_json fs p with
        | Ok (JList (x :: t)) => x :: t
        | _ => fallback_list                 (* empty, not a list, or raised *)
        end
      else fallback_list
  | _ => fallback_list
  end.

Definition sheep_dir : string := "hierarchical_data/sheep_breeds".



(** *** app_comprehensive.py *)

(** [fallback_json] is [None] for a falsy argument.  The function
    returns whatever the JSON file holds, so its result is a [json]. *)
Definition ensure_labels (fs : FS) (cfg : Config)
    (field : string) (fallback_json : option string) (fallback_dir : string)
    : result json :=
  match cfg !! field with
  | Some (JList (x :: t)) => Ok (JList (x :: t))
  | val =>
      let from_dir :=
        let train_dir :=
          String.append "hierarchical_data/"
            (String.append fallback_dir "/train") in
        if path_exists fs train_dir then
          match list_subdirs fs train_dir with
          | Ok names => Ok (JList names)
          | Raise e => Raise e
          end
        else
          match fallback_json with
          | Some fj =>
              if negb (String.eqb fj "") && path_exists fs fj
              then load_json fs fj
              else Ok (JList [])
          | None => Ok (JList [])
          end in
      match val with
      | Some (JStr p) => if path_exists fs p then load_json fs p else from_dir
      | _ => from_dir
      end
  end.

(** *** The resolution order as the specification words it *)

(** (1) an explicit in-config ordered list *)
Definition spec_explicit (val : option json) : option (list string) :=
  match val with
  | Some (JList (x :: t)) => Some (x :: t)
  | _ => None
  end.

(** (2) a path to an external list file that parses to a non-empty
    list (the empty path names the working directory, not a file) *)
Definition spec_file (fs : FS) (val : option json) : option (list string) :=
  match val with
  | Some (JStr p) =>
      if String.eqb p "" then None
      else
        match fs !! p with
        | Some (File (Some (JList (x :: t)))) => Some (x :: t)
        | _ => None
        end
  | _ => None
  end.

(** (3) alphabetical enumeration of the sub-directories of the head's
    training-data directory; a head without one has no such source *)
Definition spec_directory (fs : FS) (head_dir : option string)
    : option (list string) :=
  match head_dir with
  | Some d =>
      match fs !! train_dir_of d with
      | Some (Dir children) => Some (subdir_names children)
      | _ => None
      end
  | None => None
  end.

(** First success wins; [otherwise] when every source fails. *)
Fixpoint first_success (sources : list (option (list string)))
    (otherwise : list string) : list string :=
  match sources with
  | [] => otherwise
  | Some l :: _ => l
  | None :: rest => first_success rest otherwise
  end.

(** Sources (1), (2), (3) in order, then (4) the empty list. *)
Definition spec_resolve (fs : FS) (val : option json) (head_dir : option string)
    : list string :=
  first_success
    [spec_explicit val; spec_file fs val; spec_directory fs head_dir] [].

End Labels.

(** ** Observable events and the model boundary, shared by both front ends *)
Module Ui.

Inductive Head : Type := Species | Sheep | Bovine.

Definition head_name (h : Head) : string :=
  match h with
  | Species => "species"
  | Sheep => "sheep"
  | Bovine => "bovine"
  end.

Inductive Level : Type := Confident | LowConfidence.

Inductive Event : Type :=
| EvPredict (h : Head)                       (* [<h>_model.predict(...)] entered *)
| EvSubheader (title : string)               (* [st.subheader] *)
| EvBadge (rule : string) (passed : bool)    (* quality badge *)
| EvResult (l : Level) (label : string) (conf : Q)
                                             (* [st.success] / [st.warning] of an outcome *)
| EvMetric (title label : string) (conf : Q) (* [st.metric] *)
| EvWrite (label : string) (conf : Q)        (* [st.write] of a candidate *)
| EvSuccess (text : string)
| EvInfo (text : string)
| EvWarning (text : string)
| EvError (text : string).

(** The array handed to [predict]: [prepare_image(img, img_size, normalize)]
    is determined by its three arguments. *)
Record Tensor : Type := mkTensor {
  t_image : Crop.Image;
  t_size : nat;
  t_normalize : bool
}.

Definition prepare_image (img : Crop.Image) (img_size : nat) (normalize : bool)
    : Tensor :=
  mkTensor img img_size normalize.

(** [model.predict(batch, verbose=0)[0]] *)
Definition Model : Type := Tensor -> result (list Q).

(** Calling [.predict] on a variable that holds a model or [None]. *)
Definition predict {S} (h : Head) (m : option Model) (batch : Tensor)
    : M Event S (list Q) :=
  match m with
  | None => raise AttributeError
  | Some f => bind (emit (EvPredict h)) (fun _ => lift (f batch))
  end.

(** [labels[idx] if idx < len(labels) else placeholder] *)
Definition label_or (labels : list string) (idx : nat) (placeholder : string)
    : result string :=
  if idx <? length labels then index labels idx else Ok placeholder.

(** [f"{head}_class_{idx}"], [head] being the name of a breed head. *)
Definition class_placeholder (head : string) (idx : nat) : string :=
  String.append head (String.append "_class_" (str_of_nat idx)).

(** ["sheep" if sp_label.lower() == "sheep" else "bovine"] *)
Definition route (sp_label : string) : Head :=
  if String.eqb (lower sp_label) "sheep" then Sheep else Bovine.

(** *** Projections of an event log *)

(** The model invocations, in order. *)
Definition predictions (evs : list Event) : list Head :=
  flat_map (fun e => match e with EvPredict h => [h] | _ => [] end) evs.

(** The [st.metric] reports, in order. *)
Definition metrics (evs : list Event) : list (string * string * Q) :=
  flat_map (fun e => match e with
                     | EvMetric t l c => [(t, l, c)]
                     | _ => []
                     end) evs.

(** The section headings, in order. *)
Definition subheaders (evs : list Event) : list string :=
  flat_map (fun e => match e with EvSubheader t => [t] | _ => [] end) evs.

(** The [st.error] messages, in order. *)
Definition errors (evs : list Event) : list string :=
  flat_map (fun e => match e with EvError t => [t] | _ => [] end) evs.

(** Events that are neither an invocation, a metric nor a heading. *)
Definition quiet (e : Event) : Prop :=
  match e with
  | EvPredict _ | EvMetric _ _ _ | EvSubheader _ => False
  | _ => True
  end.

End Ui.
Export Ui.

(** ** app_comprehensive.py: correction ledger and the per-image loop of [main] *)
Module Router.

Local Open Scope eff_scope.

(** *** Session state, ledger file and clock *)

Record HistoryEntry : Type := mkHistory {
  h_timestamp : string;
  h_image_hash : string;
  h_filename : string;
  h_species : string;
  h_species_confidence : Q;
  h_breed : option string;
  h_breed_confidence : option Q;
  h_inference_time : Q
}.

Record QueueEntry : Type := mkQueue {
  q_image_hash : string;
  q_predicted : string;
  q_actual : string;
  q_confidence : Q;
  q_timestamp : string
}.

(** A row of [corrections.csv]. *)
Record Correction : Type := mkCorrection {
  c_timestamp : string;
  c_image_hash : string;
  c_predicted : string;
  c_actual : string;
  c_confidence : Q
}.

Inductive Row : Type :=
| Header
| Data (c : Correction).

(** What the ledger file holds, in order.  [Whole r] is the complete
    line of row [r], line end included.  [Fragment r] is what a failed
    flush left of the line of [r]: a proper, non-empty part of it,
    without its line end, so that whatever is written next continues
    that line. *)
Inductive Piece : Type :=
| Whole (r : Row)
| Fragment (r : Row).

(** What the storage does to one [save_correction] call.  The rows go
    through a buffered text file: [writerow] puts a line into the
    buffer, and leaving the [with] block flushes the buffer and closes
    the file.
    - [OpenFails]: [open] raises; nothing is created or written.
    - [RowFails]: [writerow] of the record raises (a field that cannot
      be encoded); the buffer, which holds the header when the file is
      new, is flushed on the way out.
    - [FlushFails written partial]: flushing or closing raises after
      [written] complete lines of the buffer reached the file,
      followed by a part of the next line when [partial] is set.
      (With [written] at the length of the buffer everything was
      written and only the close failed.) *)
Inductive Fault : Type :=
| NoFault
| OpenFails
| RowFails
| FlushFails (written : nat) (partial : bool).

Record World : Type := mkWorld {
  offline_mode : bool;                       (* st.session_state.offline_mode *)
  privacy_mode : bool;                       (* st.session_state.privacy_mode *)
  session_history : list HistoryEntry;
  active_learning_queue : list QueueEntry;
  corrections_csv : option (list Piece);     (* [None]: the file does not exist *)
  io_faults : list Fault;                    (* faults of the coming calls *)
  clock : nat -> string;                     (* the [k]-th reading of [datetime.now()] *)
  ticks : nat                                (* readings taken so far *)
}.

Definition with_history (h : list HistoryEntry) (w : World) : World :=
  mkWorld (offline_mode w) (privacy_mode w) h (active_learning_queue w)
          (corrections_csv w) (io_faults w) (clock w) (ticks w).
Definition with_queue (q : list QueueEntry) (w : World) : World :=
  mkWorld (offline_mode w) (privacy_mode w) (session_history w) q
          (corrections_csv w) (io_faults w) (clock w) (ticks w).
Definition with_csv (c : option (list Piece)) (w : World) : World :=
  mkWorld (offline_mode w) (privacy_mode w) (session_history w)
          (active_learning_queue w) c (io_faults w) (clock w) (ticks w).
Definition with_faults (f : list Fault) (w : World) : World :=
  mkWorld (offline_mode w) (privacy_mode w) (session_history w)
          (active_learning_queue w) (corrections_csv w) f (clock w) (ticks w).
Definition with_ticks (n : nat) (w : World) : World :=
  mkWorld (offline_mode w) (privacy_mode w) (session_history w)
          (active_learning_queue w) (corrections_csv w) (io_faults w) (clock w) n.

Definition Run (A : Type) : Type := M Event World A.

(** [datetime.now()], read and formatted. *)
Definition now : Run string :=
  fun w => mkOutcome [] (with_ticks (S (ticks w)) w) (Ok (clock w (ticks w))).

(** *** [save_correction] *)

Definition next_fault : Run Fault :=
  fun w =>
    match io_faults w with
    | [] => mkOutcome [] w (Ok NoFault)
    | f :: rest => mkOutcome [] (with_faults rest w) (Ok f)
    end.

Definition pieces_of (csv : option (list Piece)) : list Piece :=
  match csv with Some pieces => pieces | None => [] end.

(** [open(CORRECTIONS_FILE, 'a', newline='')]: creates a missing file. *)
Definition open_append (f : Fault) : Run unit :=
  match f with
  | OpenFails => raise OSError
  | _ =>
      modify (fun w =>
        match corrections_csv w with
        | Some _ => w
        | None => with_csv (Some []) w
        end)
  end.

(** Bytes reaching the end of the file. *)
Definition append_pieces (pieces : list Piece) : Run unit :=
  modify (fun w => with_csv (Some (pieces_of (corrections_csv w) ++ pieces)) w).

(** What a flush that raises has written of the buffered rows. *)
Definition flushed (written : nat) (partial : bool) (buffer : list Row)
    : list Piece :=
  map Whole (firstn written buffer)
  ++ (if partial then
        match nth_error buffer written with
        | Some r => [Fragment r]
        | None => []
        end
      else []).

(** Leaving the [with] block: the buffer is flushed and the file closed. *)
Definition close_file (f : Fault) (buffer : list Row) : Run unit :=
  match f with
  | FlushFails written partial =>
      append_pieces (flushed written partial buffer) ;; raise OSError
  | _ => append_pieces (map Whole buffer)
  end.

Definition save_correction (image_hash predicted actual : string)
    (confidence : Q) : Run bool :=
  f <- next_fault ;;
  try_except
    (w <- get ;;
     let file_exists :=
       match corrections_csv w with Some _ => true | None => false end in
     open_append f ;;
     (* writer.writerow(header), into the buffer *)
     let buffer := if file_exists then [] else [Header] in
     ts <- now ;;
     match f with
     | RowFails =>
         (* writer.writerow(record) raises; the block is left *)
         close_file f buffer ;; raise ValueError
     | _ =>
         close_file f
           (buffer ++ [Data (mkCorrection ts image_hash predicted actual confidence)]) ;;
         ret true
     end)
    (fun _ =>
       emit (EvError "Failed to save correction") ;;
       ret false).

(** The two call sites of [save_correction] in [main] have the same
    shape and differ in the success message.  The indication the
    [if] branched on is handed back so that it can be observed. *)
Definition record_correction (saved_msg : string)
    (image_hash predicted actual : string) (confidence : Q) : Run bool :=
  ok <- save_correction image_hash predicted actual confidence ;;
  (if ok : bool then
     emit (EvSuccess saved_msg) ;;
     ts <- now ;;
     modify (fun w =>
       with_queue (active_learning_queue w
                   ++ [mkQueue image_hash predicted actual confidence ts]) w)
   else
     emit (EvError "Failed to save correction")) ;;
  ret ok.

(** A series of record calls, as issued over a session. *)
Record Call : Type := mkCall {
  k_image_hash : string;
  k_predicted : string;
  k_actual : string;
  k_confidence : Q
}.

Fixpoint record_calls (calls : list Call) : Run (list bool) :=
  match calls with
  | [] => ret []
  | c :: rest =>
      ok <- record_correction "Correction saved!"
              (k_image_hash c) (k_predicted c) (k_actual c) (k_confidence c) ;;
      oks <- record_calls rest ;;
      ret (ok :: oks)
  end.

(** The calls of a series that were answered with success. *)
Fixpoint accepted (calls : list Call) (oks : list bool) : list Call :=
  match calls, oks with
  | c :: cs, true :: bs => c :: accepted cs bs
  | _ :: cs, false :: bs => accepted cs bs
  | _, _ => []
  end.

Definition row_of_call (c : Call) (r : Correction) : Prop :=
  c_image_hash r = k_image_hash c /\ c_predicted r = k_predicted c
  /\ c_actual r = k_actual c /\ c_confidence r = k_confidence c.

Definition entry_of_call (c : Call) (e : QueueEntry) : Prop :=
  q_image_hash e = k_image_hash c /\ q_predicted e = k_predicted c
  /\ q_actual e = k_actual c /\ q_confidence e = k_confidence c.

(** The correction records whose complete line is in the file. *)
Definition records (csv : option (list Piece)) : list Correction :=
  flat_map (fun p => match p with Whole (Data c) => [c] | _ => [] end)
           (pieces_of csv).

(** The correction records a reader of the file gets back as they
    were written: those whose line starts at the start of a line.  A
    line written right after a fragment continues the fragment's
    line. *)
Fixpoint intact_from (at_line_start : bool) (pieces : list Piece)
    : list Correction :=
  match pieces with
  | [] => []
  | Whole (Data c) :: rest =>
      (if at_line_start then [c] else []) ++ intact_from true rest
  | Whole Header :: rest => intact_from true rest
  | Fragment _ :: rest => intact_from false rest
  end.

Definition intact_records (csv : option (list Piece)) : list Correction :=
  intact_from true (pieces_of csv).

(** A piece of the header line. *)
Definition header_piece (p : Piece) : bool :=
  match p with
  | Whole Header | Fragment Header => true
  | _ => false
  end.

Definition whole_piece (p : Piece) : bool :=
  match p with Whole _ => true | Fragment _ => false end.

(** *** The per-image body of the loop in [main]

    The widgets of the sidebar and the objects loaded before the loop
    are fixed for one script run and collected in [Env].
    [argsort_desc p] is [np.argsort(p)[::-1]].  A model variable is
    [None] when it was not loaded. *)
Record Env : Type := mkEnv {
  species_threshold : Q;
  breed_threshold : Q;
  enable_quality_check : bool;
  enable_crop_assist : bool;
  use_detector_placeholder : bool;
  max_file_size_mb : Z;
  img_size : nat;
  normalize : bool;
  top_k : nat;
  species_model : option Model;
  sheep_model : option Model;
  bovine_model : option Model;
  argsort_desc : list Q -> list nat
}.

(** One uploaded file together with what the user does on its widgets
    during this run. *)
Record Upload : Type := mkUpload {
  u_name : string;                     (* uploaded_file.name *)
  u_image : Crop.Image;                (* Image.open(uploaded_file) *)
  u_hash : string;                     (* get_image_hash(image) *)
  u_stats : Quality.Stats;
  u_size : option Z;                   (* file_size_bytes *)
  u_elapsed_ms : Q;                    (* inference_time *)
  u_marked_correct : list nat;         (* pressed "This one is correct" buttons *)
  u_form_submit : option string;       (* submitted correction, if any *)
  u_report : option bool;              (* report button pressed: did the PDF build? *)
  u_analyze_new : bool                 (* "Analyze New Image" pressed *)
}.

(** Local variables of [main] that outlive one iteration.  [None] is
    an unbound name. *)
Record Locals : Type := mkLocals {
  sp_label : option string;
  sp_conf : option Q;
  br_label : option string;
  br_conf : option Q
}.

Definition unbound : Locals := mkLocals None None None None.

(** Reading a local that may be unbound. *)
Definition read_local {A} (name : string) (v : option A) : Run A :=
  match v with
  | Some a => ret a
  | None => raise (NameError name)
  end.

(** Reading one of the module-level names [species_labels],
    [sheep_labels] and [bovine_labels].  [main] reads them as globals;
    the file never binds them ([ensure_labels], which would compute
    them, is called nowhere), so the read raises. *)
Definition read_labels (name : string) : Run (list string) :=
  raise (NameError name).

Fixpoint join (sep : string) (l : list string) : string :=
  match l with
  | [] => ""
  | [x] => x
  | x :: t => String.append x (String.append sep (join sep t))
  end.

Definition quality_tips (q : Quality.QualityReport) : list string :=
  (if Quality.pass (Quality.resolution q) then []
   else ["Try taking a higher resolution photo"])
  ++ (if Quality.pass (Quality.blur q) then []
      else ["Hold camera steady or use tripod"])
  ++ (if Quality.pass (Quality.brightness q) then []
      else ["Low light detected - try flash / move to shade"])
  ++ (if Quality.pass (Quality.dynamic_range q) then []
      else ["Ensure good contrast between animal and background"]).

Definition quality_report (env : Env) (up : Upload) : Quality.QualityReport :=
  Quality.assess_image_quality
    (Quality.mkMeasures (Crop.width (u_image up)) (Crop.height (u_image up))
                        (u_stats up))
    (u_size up)
    (Some (max_file_size_mb env * 1024 * 1024)%Z).

Definition quality_stage (env : Env) (up : Upload) : Run unit :=
  if enable_quality_check env then
    let q := quality_report env up in
    emit (EvSubheader "quality_check") ;;
    emit (EvBadge "Resolution" (Quality.pass (Quality.resolution q))) ;;
    emit (EvBadge "Sharpness" (Quality.pass (Quality.blur q))) ;;
    emit (EvBadge "Brightness" (Quality.pass (Quality.brightness q))) ;;
    emit (EvBadge "Dynamic Range" (Quality.pass (Quality.dynamic_range q))) ;;
    match Quality.file_size q with
    | Some f => emit (EvBadge "File Size" (Quality.pass f))
    | None => ret tt
    end ;;
    when (negb (Quality.overall_pass q))
         (emit (EvWarning (join " | " (quality_tips q))))
  else ret tt.

Definition processing_image (env : Env) (up : Upload) : Crop.Image :=
  if enable_crop_assist env
  then Crop.auto_crop_image (u_image up) (use_detector_placeholder env)
  else u_image up.

(** [img_batch]: the tensor every model of the iteration is given. *)
Definition batch_of (env : Env) (up : Upload) : Tensor :=
  prepare_image (processing_image env up) (img_size env) (normalize env).

(** Lines 760-771. *)
Definition species_stage (env : Env) (img_batch : Tensor) : Run (string * Q) :=
  w <- get ;;
  match offline_mode w, species_model env with
  | true, Some lite =>
      sp_probs <- predict Species (Some lite) img_batch ;;
      p0 <- lift (index sp_probs 0) ;;
      let sp_label := if Qltb (1#2) p0 then "bovine" else "sheep" in
      sp_conf <- lift (max_list sp_probs) ;;
      (* breed_probs = np.random.dirichlet(...) is bound here and never read *)
      ret (sp_label, sp_conf)
  | _, m =>
      sp_probs <- predict Species m img_batch ;;
      sp_idx <- lift (argmax sp_probs) ;;
      species_labels <- read_labels "species_labels" ;;
      sp_label <- lift (label_or species_labels sp_idx "unknown") ;;
      sp_conf <- lift (index sp_probs sp_idx) ;;
      ret (sp_label, sp_conf)
  end.

Definition display_species (env : Env) (sp_label : string) (sp_conf : Q)
    : Run unit :=
  emit (EvSubheader "species_pred") ;;
  if Qle_bool (species_threshold env) sp_conf then
    emit (EvResult Confident sp_label sp_conf)
  else
    emit (EvResult LowConfidence sp_label sp_conf) ;;
    emit (EvInfo "Species confidence below threshold - manual verification recommended").

Definition guardrail_note : string :=
  "Model is unsure - compare these two likely options.".

(** Lines 789-808. *)
Definition guardrail_stage (env : Env) (img_batch : Tensor) : Run unit :=
  emit (EvInfo guardrail_note) ;;
  sheep_probs_guard <- predict Sheep (sheep_model env) img_batch ;;
  bovine_probs_guard <- predict Bovine (bovine_model env) img_batch ;;
  sheep_idx_guard <- lift (argmax sheep_probs_guard) ;;
  bovine_idx_guard <- lift (argmax bovine_probs_guard) ;;
  sheep_labels <- read_labels "sheep_labels" ;;
  sheep_lab <- lift (label_or sheep_labels sheep_idx_guard
                       (class_placeholder "sheep" sheep_idx_guard)) ;;
  sheep_p <- lift (index sheep_probs_guard sheep_idx_guard) ;;
  bovine_labels <- read_labels "bovine_labels" ;;
  bovine_lab <- lift (label_or bovine_labels bovine_idx_guard
                        (class_placeholder "bovine" bovine_idx_guard)) ;;
  bovine_p <- lift (index bovine_probs_guard bovine_idx_guard) ;;
  emit (EvMetric "Sheep head top-1" sheep_lab sheep_p) ;;
  emit (EvMetric "Bovine head top-1" bovine_lab bovine_p).

Definition model_of (env : Env) (head : Head) : option Model :=
  match head with Sheep => sheep_model env | _ => bovine_model env end.

(** The "Top-K suggestions" loop with its "This one is correct"
    buttons.  Streamlit refuses a second element with the key of an
    earlier one; the keys [correct_<hash>_<i>] of these buttons are not
    tracked here, the loop lying behind the label read of
    [breed_stage]. *)
Definition top_suggestions (env : Env) (up : Upload) (head : Head)
    (labels : list string) (breed_probs : list Q) (br_label : string)
    : Run unit :=
  emit (EvSubheader "top_suggestions") ;;
  for_each (seq 0 (Nat.min (top_k env) (length labels))) (fun i =>
    idx <- lift (index (argsort_desc env breed_probs) i) ;;
    breed_name <- lift (label_or labels idx (class_placeholder (head_name head) idx)) ;;
    confidence <- lift (index breed_probs idx) ;;
    emit (EvWrite breed_name confidence) ;;
    when (existsb (Nat.eqb i) (u_marked_correct up))
         (record_correction "Marked and saved to corrections.csv"
            (u_hash up) br_label breed_name confidence ;; ret tt)).

(** The human-in-the-loop correction form. *)
Definition correction_form (env : Env) (up : Upload)
    (br_label : string) (br_conf : Q) : Run unit :=
  when (Qltb br_conf (breed_threshold env))
    (emit (EvWarning "needs_manual") ;;
     match u_form_submit up with
     | Some actual_breed =>
         record_correction "Correction saved!"
           (u_hash up) br_label actual_breed br_conf ;; ret tt
     | None => ret tt
     end).

(** Lines 810-894.  The label list of the routed head is read before
    the head is invoked. *)
Definition breed_stage (env : Env) (up : Upload) (img_batch : Tensor)
    (sp_label : string) : Run (string * Q) :=
  emit (EvSubheader "breed_pred") ;;
  let head := route sp_label in
  labels <- read_labels (match head with
                         | Sheep => "sheep_labels"
                         | _ => "bovine_labels"
                         end) ;;
  breed_probs <- predict head (model_of env head) img_batch ;;
  br_idx <- lift (argmax breed_probs) ;;
  br_label <- lift (label_or labels br_idx (class_placeholder (head_name head) br_idx)) ;;
  br_conf <- lift (index breed_probs br_idx) ;;
  (if Qle_bool (breed_threshold env) br_conf then
     emit (EvResult Confident br_label br_conf)
   else
     emit (EvResult LowConfidence br_label br_conf) ;;
     emit (EvInfo "Breed confidence below threshold")) ;;
  top_suggestions env up head labels breed_probs br_label ;;
  correction_form env up br_label br_conf ;;
  ret (br_label, br_conf).

(** Lines 896-907. *)
Definition history_stage (env : Env) (up : Upload)
    (sp_label : string) (sp_conf : Q) (locals : Locals) : Run unit :=
  w <- get ;;
  if privacy_mode w then ret tt
  else
    ts <- now ;;
    breed <- (if Qle_bool (species_threshold env) sp_conf
              then (b <- read_local "br_label" (br_label locals) ;; ret (Some b))
              else ret None) ;;
    breed_confidence <-
             (if Qle_bool (species_threshold env) sp_conf
              then (c <- read_local "br_conf" (br_conf locals) ;; ret (Some c))
              else ret None) ;;
    modify (fun w =>
      with_history
        (session_history w
         ++ [mkHistory ts (u_hash up) (u_name up) sp_label sp_conf
                       breed breed_confidence (u_elapsed_ms up)]) w).

(** Lines 909-935: the buttons under the result.  The report button
    evaluates the arguments of [generate_pdf_report], which catches
    its own exceptions and reports them; "Analyze New Image" reruns
    the script ([st.rerun()] ends the run the way [st.stop()] does);
    "View History" only sets the session flag [show_history].  The
    element keys of these buttons carry the index of the upload and
    never repeat. *)
Definition actions_stage (env : Env) (up : Upload) (sp_conf : Q)
    (locals : Locals) : Run unit :=
  match u_report up with
  | Some pdf_built =>
      (if Qle_bool (species_threshold env) sp_conf
       then (read_local "br_label" (br_label locals) ;; ret tt)
       else ret tt) ;;
      (if Qle_bool (species_threshold env) sp_conf
       then (read_local "br_conf" (br_conf locals) ;; ret tt)
       else ret tt) ;;
      now ;;
      when (negb pdf_built) (emit (EvError "PDF generation failed"))
  | None => ret tt
  end ;;
  when (u_analyze_new up) (raise StopException).

(** Lines 667-935 of [main]: one iteration of the loop over the
    uploaded files.  Left out are statements that only lay out or
    decorate the page (columns, spinners, progress bars, latency chip,
    evidence cards, heat-map placeholder, divider). *)
Definition process_image (env : Env) (locals : Locals) (up : Upload)
    : Run Locals :=
  quality_stage env up ;;
  let img_batch := batch_of env up in
  sp <- species_stage env img_batch ;;
  let sp_label := fst sp in
  let sp_conf := snd sp in
  display_species env sp_label sp_conf ;;
  w <- get ;;
  when (Qltb sp_conf (species_threshold env) && negb (offline_mode w))
       (guardrail_stage env img_batch) ;;
  w <- get ;;
  locals <-
    (if Qle_bool (species_threshold env) sp_conf && negb (offline_mode w)
     then
       br <- breed_stage env up img_batch sp_label ;;
       ret (mkLocals (Some sp_label) (Some sp_conf) (Some (fst br)) (Some (snd br)))
     else
       ret (mkLocals (Some sp_label) (Some sp_conf)
                     (br_label locals) (br_conf locals))) ;;
  history_stage env up sp_label sp_conf locals ;;
  actions_stage env up sp_conf locals ;;
  ret locals.

(** [for idx, uploaded_file in enumerate(uploaded_files): ...] *)
Fixpoint process_all (env : Env) (locals : Locals) (ups : list Upload)
    : Run Locals :=
  match ups with
  | [] => ret locals
  | up :: rest =>
      locals <- process_image env locals up ;;
      process_all env locals rest
  end.

(** What [quality_stage] and [display_species] log, as plain lists. *)
Definition quality_events (env : Env) (up : Upload) : list Event :=
  if enable_quality_check env then
    let q := quality_report env up in
    [EvSubheader "quality_check";
     EvBadge "Resolution" (Quality.pass (Quality.resolution q));
     EvBadge "Sharpness" (Quality.pass (Quality.blur q));
     EvBadge "Brightness" (Quality.pass (Quality.brightness q));
     EvBadge "Dynamic Range" (Quality.pass (Quality.dynamic_range q))]
    ++ match Quality.file_size q with
       | Some f => [EvBadge "File Size" (Quality.pass f)]
       | None => []
       end
    ++ (if Quality.overall_pass q then []
        else [EvWarning (join " | " (quality_tips q))])
  else [].

Definition display_events (env : Env) (sp_label : string) (sp_conf : Q)
    : list Event :=
  EvSubheader "species_pred"
  :: (if Qle_bool (species_threshold env) sp_conf
      then [EvResult Confident sp_label sp_conf]
      else [EvResult LowConfidence sp_label sp_conf;
            EvInfo "Species confidence below threshold - manual verification recommended"]).




(** The part of the world a correction cannot touch. *)
Definition same_session (w w' : World) : Prop :=
  offline_mode w' = offline_mode w
  /\ privacy_mode w' = privacy_mode w
  /\ session_history w' = session_history w
  /\ clock w' = clock w.

End Router.

(** ** app.py: the results column *)
Module App.

Local Open Scope eff_scope.

(** What the script holds when it reaches the results column:
    [load_models] has returned three models (it stops the script
    otherwise).  [argsort_desc p] is [np.argsort(p)[::-1]]. *)
Record Env : Type := mkEnv {
  img_size : nat;
  species_model : Model;
  sheep_model : Model;
  bovine_model : Model;
  argsort_desc : list Q -> list nat
}.

(** The three label lists stored in [st.session_state] by the script. *)
Record Session : Type := mkSession {
  species_labels : list string;
  sheep_labels : list string;
  bovine_labels : list string
}.

Definition Run (A : Type) : Type := M Event Session A.

(** [st.stop()] *)
Definition stop {A} : Run A := raise StopException.

Definition render_low_conf_badge (conf : Q) : Run unit :=
  if Qle_bool (80#100) conf then emit (EvBadge "High confidence" true)
  else if Qle_bool (50#100) conf then emit (EvBadge "Medium confidence" true)
  else emit (EvBadge "Low confidence - please verify manually" false).

(** [topk(labels, probs, k)] *)
Definition topk (env : Env) (labels : list string) (probs : list Q) (k : nat)
    : result (list (string * Q)) :=
  let idxs := slice 0 (Nat.min k (length labels)) (argsort_desc env probs) in
  fold_right
    (fun i acc =>
       match label_or labels i (String.append "class_" (str_of_nat i)),
             index probs i, acc with
       | Ok name, Ok p, Ok rest => Ok ((name, p) :: rest)
       | Raise e, _, _ => Raise e
       | _, Raise e, _ => Raise e
       | _, _, Raise e => Raise e
       end)
    (Ok []) idxs.

Definition show_topk (env : Env) (labels : list string) (probs : list Q)
    : Run unit :=
  cands <- lift (topk env labels probs 3) ;;
  for_each cands (fun c => emit (EvWrite (fst c) (snd c))).

Definition model_of (env : Env) (head : Head) : Model :=
  match head with Sheep => sheep_model env | _ => bovine_model env end.

Definition labels_of (s : Session) (head : Head) : list string :=
  match head with Sheep => sheep_labels s | _ => bovine_labels s end.

Definition no_labels_msg (head : Head) : string :=
  String.append "No "
    (String.append (head_name head)
       " labels found. Ensure labels JSON or train folders exist.").

(** [f"{head.title()} breed model failed to run"] *)
Definition model_failed_msg (head : Head) : string :=
  String.append (match head with Sheep => "Sheep" | _ => "Bovine" end)
    " breed model failed to run".

(** Lines 235-296: the results column for the primary upload.
    [image] is [None] when the upload could not be decoded. *)
Definition results_column (env : Env) (image : option Crop.Image) : Run unit :=
  match image with
  | None => stop
  | Some image =>
      let arr := prepare_image image (img_size env) true in
      (* Stage 1 - species *)
      sp_probs <-
        try_except (predict Species (Some (species_model env)) arr)
          (fun _ => emit (EvError "Species model failed to run") ;; stop) ;;
      s <- get ;;
      sp_idx <- lift (argmax sp_probs) ;;
      sp_label <- lift (label_or (species_labels s) sp_idx "unknown") ;;
      sp_conf <- lift (index sp_probs sp_idx) ;;
      emit (EvSubheader "Stage 1 - Species") ;;
      emit (EvWrite sp_label sp_conf) ;;
      render_low_conf_badge sp_conf ;;
      when (Qltb sp_conf (50#100))
        (emit (EvWarning "Model is not confident about the species (< 50%). Please verify manually.")) ;;
      (* Stage 2 - breed (routed head) *)
      let head := route sp_label in
      let labels := labels_of s head in
      match labels with
      | [] => emit (EvError (no_labels_msg head)) ;; stop
      | _ => ret tt
      end ;;
      br_probs <-
        try_except (predict head (Some (model_of env head)) arr)
          (fun _ => emit (EvError (model_failed_msg head)) ;; stop) ;;
      br_idx <- lift (argmax br_probs) ;;
      br_label <- lift (label_or labels br_idx (class_placeholder (head_name head) br_idx)) ;;
      br_conf <- lift (index br_probs br_idx) ;;
      emit (EvSubheader "Stage 2 - Breed") ;;
      emit (EvWrite br_label br_conf) ;;
      render_low_conf_badge br_conf ;;
      when (Qltb br_conf (50#100))
        (emit (EvError "Breed confidence is below 50%. Please cross-check manually before recording.")) ;;
      show_topk env labels br_probs
  end.

(** Lines 317-360: the same flow for a queued next image, written in
    the source without the [try] blocks and with [if labels:] in place
    of the error. *)
Definition results_column_next (env : Env) (fake_image : Crop.Image) : Run unit :=
  let arr := prepare_image fake_image (img_size env) true in
  sp_probs <- predict Species (Some (species_model env)) arr ;;
  sp_idx <- lift (argmax sp_probs) ;;
  s <- get ;;
  sp_label <- lift (label_or (species_labels s) sp_idx "unknown") ;;
  sp_conf <- lift (index sp_probs sp_idx) ;;
  emit (EvSubheader "Stage 1 - Species (Next)") ;;
  emit (EvWrite sp_label sp_conf) ;;
  render_low_conf_badge sp_conf ;;
  when (Qltb sp_conf (50#100))
    (emit (EvWarning "Model is not confident about the species (< 50%). Please verify manually.")) ;;
  let head := route sp_label in
  let labels := labels_of s head in
  match labels with
  | [] => ret tt
  | _ =>
      br_probs <- predict head (Some (model_of env head)) arr ;;
      br_idx <- lift (argmax br_probs) ;;
      br_label <- lift (label_or labels br_idx (class_placeholder (head_name head) br_idx)) ;;
      br_conf <- lift (index br_probs br_idx) ;;
      emit (EvSubheader "Stage 2 - Breed (Next)") ;;
      emit (EvWrite br_label br_conf) ;;
      render_low_conf_badge br_conf ;;
      when (Qltb br_conf (50#100))
        (emit (EvError "Breed confidence is below 50%. Please cross-check manually before recording.")) ;;
      show_topk env labels br_probs
  end.

End App.

(** ** Concrete scenarios *)
Module Scenario.

Import Router.

Definition const_model (probs : list Q) : Model := fun _ => Ok probs.
Definition failing_model : Model := fun _ => Raise ModelError.

(** A descending argsort by insertion, enough for the scenarios. *)
Fixpoint insert_desc (p : list Q) (i : nat) (l : list nat) : list nat :=
  match l with
  | [] => [i]
  | j :: t =>
      if Qltb (nth j p 0%Q) (nth i p 0%Q) then i :: j :: t
      else j :: insert_desc p i t
  end.

Definition argsort (p : list Q) : list nat :=
  fold_right (insert_desc p) [] (seq 0 (length p)).

Definition px (n : nat) : Crop.RGB := (n, n, n).

(** A 2 x 3 picture. *)
Definition picture : Crop.Image :=
  [[px 1; px 2; px 3];
   [px 4; px 5; px 6]].

Definition good_stats : Quality.Stats := Quality.mkStats 200 128 64.

Definition upload : Upload :=
  mkUpload "cow.jpg" picture "5d41402abc4b2a76" good_stats (Some 1000%Z)
           120 [] None None false.


(** Label lists of an app.py session. *)
Definition species_labels : list string := ["bovine"; "sheep"].
Definition sheep_labels : list string := ["Deccani"; "Nellore"].
Definition bovine_labels : list string := ["Gir"; "Sahiwal"; "Murrah"].

Definition env_with (species sheep bovine : option Model) : Env :=
  mkEnv (80#100) (70#100) true true false 5 224 true 3
        species sheep bovine argsort.

(** Species [bovine: 0.92, sheep: 0.08]; breed [Gir: 0.75, ...]. *)
Definition confident_bovine : Env :=
  env_with (Some (const_model [92#100; 8#100]))
           (Some (const_model [60#100; 40#100]))
           (Some (const_model [75#100; 15#100; 10#100])).

(** Species [bovine: 0.55, sheep: 0.45]: below the threshold. *)
Definition unsure : Env :=
  env_with (Some (const_model [55#100; 45#100]))
           (Some (const_model [60#100; 40#100]))
           (Some (const_model [75#100; 15#100; 10#100])).

(** Species confidence exactly at the threshold, and one hundredth
    below it. *)
Definition at_threshold : Env :=
  env_with (Some (const_model [80#100; 20#100]))
           (Some (const_model [60#100; 40#100]))
           (Some (const_model [75#100; 15#100; 10#100])).

Definition just_below : Env :=
  env_with (Some (const_model [79#100; 21#100]))
           (Some (const_model [60#100; 40#100]))
           (Some (const_model [75#100; 15#100; 10#100])).


Definition wall_clock (k : nat) : string := String.append "T" (str_of_nat k).

Definition fresh : World :=
  mkWorld false false [] [] None [] wall_clock 0.

(** A label configuration: the sheep list is a file holding the empty
    list, and the sheep training directory has two breed folders. *)
Definition label_fs : Labels.FS :=
  <[ "labels/sheep.json" := Labels.File (Some (Labels.JList [])) ]>
  (<[ Labels.train_dir_of Labels.sheep_dir :=
        Labels.Dir [("Nellore", true); ("notes.txt", false); ("Deccani", true)] ]>
   ∅).

Definition label_cfg : Labels.Config :=
  <[ "sheep_labels" := Labels.JStr "labels/sheep.json" ]> ∅.

(** app.py counterparts. *)
Definition app_env : App.Env :=
  App.mkEnv 224 (const_model [10#100; 90#100])
            (const_model [60#100; 40#100])
            (const_model [75#100; 15#100; 10#100]) argsort.

Definition app_session_no_sheep : App.Session :=
  App.mkSession species_labels [] bovine_labels.



End Scenario.

(** ** app_comprehensive.py: defaults of the session state *)
Module Session.

(** The Python values a session variable holds, as far as the
    defaults distinguish them. *)
#[warnings="-register-all"]
Inductive pyval : Type :=
| PNone
| PBool (b : bool)
| PStr (s : string)
| PList (items : list pyval).

(** [st.session_state] as a mapping from variable names to values. *)
Definition State : Type := gmap string pyval.

(** [if key not in st.session_state: st.session_state.key = default] *)
Definition set_if_missing (key : string) (default : pyval) (s : State) : State :=
  match s !! key with
  | Some _ => s
  | None => <[ key := default ]> s
  end.

Definition init_session_state (s : State) : State :=
  let s := set_if_missing "language" (PStr "en") s in
  let s := set_if_missing "offline_mode" (PBool false) s in
  let s := set_if_missing "privacy_mode" (PBool false) s in
  let s := set_if_missing "session_history" (PList []) s in
  let s := set_if_missing "corrections" (PList []) s in
  let s := set_if_missing "active_learning_queue" (PList []) s in
  let s := set_if_missing "batch_results" (PList []) s in
  s.

(** The variables [init_session_state] looks after, with their defaults. *)
Definition defaults : list (string * pyval) :=
  [("language", PStr "en");
   ("offline_mode", PBool false);
   ("privacy_mode", PBool false);
   ("session_history", PList []);
   ("corrections", PList []);
   ("active_learning_queue", PList []);
   ("batch_results", PList [])].

End Session.

(** ** app_comprehensive.py: evidence cards *)
Module Evidence.

(** A value of the trait table: a flag or a description. *)
Inductive trait_value : Type :=
| TBool (b : bool)
| TStr (s : string).

(** Truth value of [present] in a conditional. *)
Definition truthy (v : trait_value) : bool :=
  match v with
  | TBool b => b
  | TStr s => negb (String.eqb s "")
  end.

(** A dict literal with string keys, in insertion order. *)
Definition Dict (A : Type) : Type := list (string * A).

(** [d.get(key)] *)
Fixpoint get {A} (key : string) (d : Dict A) : option A :=
  match d with
  | [] => None
  | (k, v) :: rest => if String.eqb key k then Some v else get key rest
  end.

Definition BREED_TRAITS : Dict (Dict trait_value) :=
  [("Gir",
    [("dome_forehead", TBool true);
     ("lyre_horns", TBool true);
     ("dewlap", TBool true);
     ("hump", TBool true);
     ("coat_color", TStr "Reddish brown to dark brown");
     ("region", TStr "Gujarat, Rajasthan")]);
   ("Sahiwal",
    [("dome_forehead", TBool false);
     ("lyre_horns", TBool false);
     ("dewlap", TBool true);
     ("hump", TBool true);
     ("coat_color", TStr "Reddish dun to dark brown");
     ("region", TStr "Punjab, Haryana")]);
   ("Murrah",
    [("dome_forehead", TBool false);
     ("lyre_horns", TBool true);
     ("dewlap", TBool false);
     ("hump", TBool false);
     ("coat_color", TStr "Jet black");
     ("region", TStr "Haryana, Punjab")]);
   ("Deccani",
    [("wool_type", TStr "Coarse carpet wool");
     ("ear_length", TStr "Medium");
     ("coat_color", TStr "Black, white, or mixed");
     ("region", TStr "Maharashtra, Karnataka")]);
   ("Nellore",
    [("wool_type", TStr "Hair type");
     ("ear_length", TStr "Long and drooping");
     ("coat_color", TStr "White with red spots");
     ("region", TStr "Andhra Pradesh, Telangana")])].

Definition is_upper (c : ascii) : bool :=
  let n := nat_of_ascii c in (65 <=? n) && (n <=? 90).

Definition is_lower (c : ascii) : bool :=
  let n := nat_of_ascii c in (97 <=? n) && (n <=? 122).

Definition upper_ascii (c : ascii) : ascii :=
  if is_lower c then ascii_of_nat (nat_of_ascii c - 32) else c.

(** [s.replace('_', ' ')] *)
Fixpoint replace_underscore (s : string) : string :=
  match s with
  | EmptyString => EmptyString
  | String c t =>
      String (if Ascii.eqb c "_"%char then " "%char else c) (replace_underscore t)
  end.

(** [str.title()] on the ASCII range: a letter that follows a letter
    is lowered, any other letter is raised. *)
Fixpoint title_from (after_letter : bool) (s : string) : string :=
  match s with
  | EmptyString => EmptyString
  | String c t =>
      if is_upper c || is_lower c then
        String (if after_letter then lower_ascii c else upper_ascii c)
               (title_from true t)
      else String c (title_from false t)
  end.

Definition title (s : string) : string := title_from false s.

(** The two marks of the evidence line, as the source file spells them. *)
Definition mark_present : string := "‚úì".
Definition mark_absent : string := "‚úó".

Record Card : Type := mkCard {
  trait : string;
  present : trait_value;
  evidence : string;
  confidence : Q
}.

Definition shown_traits : list string :=
  ["dome_forehead"; "lyre_horns"; "dewlap"; "hump"].

(** The loop of [generate_evidence_cards] over one trait dict. *)
Definition cards_of (traits : Dict trait_value) (confidence : Q) : list Card :=
  flat_map
    (fun kv : string * trait_value =>
       let trait := fst kv in
       let present := snd kv in
       if existsb (String.eqb trait) shown_traits then
         [mkCard (title (replace_underscore trait))
                 present
                 (String.append
                    (if truthy present then mark_present else mark_absent)
                    (String.append " " (title (replace_underscore trait))))
                 (confidence * (8#10))%Q]
       else [])
    traits.

Definition generate_evidence_cards (predicted_breed : string) (confidence : Q)
    : list Card :=
  let traits :=
    match get predicted_breed BREED_TRAITS with
    | Some t => t
    | None => []
    end in
  cards_of traits confidence.

End Evidence.

(** ** app_comprehensive.py: [main] around the loop *)
Module Main.

Import Router.
Local Open Scope eff_scope.

Definition with_offline (b : bool) (w : World) : World :=
  mkWorld b (privacy_mode w) (session_history w) (active_learning_queue w)
          (corrections_csv w) (io_faults w) (clock w) (ticks w).
Definition with_privacy (b : bool) (w : World) : World :=
  mkWorld (offline_mode w) b (session_history w) (active_learning_queue w)
          (corrections_csv w) (io_faults w) (clock w) (ticks w).

(** What the model loaders of one script run yield.  [mobile_net] is
    the [Sequential] built in [load_mobile_net_model], [None] when
    building it raises; the other three are the outcomes of
    [keras.models.load_model] on the paths of the configuration. *)
Record Loaders : Type := mkLoaders {
  mobile_net : option Model;
  species_file : result Model;
  sheep_file : result Model;
  bovine_file : result Model
}.

Definition load_mobile_net_model (ld : Loaders) : Run (option Model) :=
  match mobile_net ld with
  | Some model => ret (Some model)
  | None => emit (EvError "Failed to load MobileNet model") ;; ret None
  end.

(** Lines 565-572: the model variables of [main], chosen by the
    offline flag the session holds when the run starts. *)
Definition model_loading (ld : Loaders)
    : Run (option Model * option Model * option Model) :=
  w <- get ;;
  if offline_mode w then
    species_model <- load_mobile_net_model ld ;;
    ret (species_model, None, None)
  else
    species_model <- lift (species_file ld) ;;
    sheep_model <- lift (sheep_file ld) ;;
    bovine_model <- lift (bovine_file ld) ;;
    ret (Some species_model, Some sheep_model, Some bovine_model).

(** The widgets of the sidebar, as the user has set them for this run. *)
Record Sidebar : Type := mkSidebar {
  sb_species_threshold : Q;
  sb_breed_threshold : Q;
  sb_enable_quality_check : bool;
  sb_enable_crop_assist : bool;
  sb_use_detector_placeholder : bool;
  sb_max_file_size_mb : Z;
  sb_privacy_mode : bool;                (* "Don't Store Images" *)
  sb_offline_mode : bool;
  sb_img_size : nat;
  sb_normalize : bool;
  sb_top_k : nat
}.

(** Lines 619-620: the two check boxes are written to the session. *)
Definition sidebar (sb : Sidebar) : Run unit :=
  modify (with_privacy (sb_privacy_mode sb)) ;;
  modify (with_offline (sb_offline_mode sb)).

(** The upload widget in use and what it holds. *)
Inductive UploadMode : Type :=
| SingleImage (uploaded_file : option Upload)
| BatchUpload (files : list Upload)
| CameraCapture (camera_image : option Upload).

(** Lines 636-660. *)
Definition uploaded_files (mode : UploadMode) : Run (list Upload) :=
  files <-
    match mode with
    | SingleImage (Some f) => ret [f]
    | SingleImage None => ret []
    | BatchUpload files =>
        if 20 <? length files then
          emit (EvWarning "Maximum 20 images allowed for batch processing") ;;
          ret (slice 0 20 files)
        else ret files
    | CameraCapture (Some f) => ret [f]
    | CameraCapture None => ret []
    end ;;
  when (0 <? length files)
       (emit (EvSuccess (String.append (str_of_nat (length files))
                                       " image(s) uploaded"))) ;;
  ret files.

(** The list [uploaded_files] is bound to. *)
Definition files_of (mode : UploadMode) : list Upload :=
  match mode with
  | SingleImage (Some f) => [f]
  | SingleImage None => []
  | BatchUpload files => if 20 <? length files then slice 0 20 files else files
  | CameraCapture (Some f) => [f]
  | CameraCapture None => []
  end.

Definition env_of (sb : Sidebar)
    (models : option Model * option Model * option Model)
    (argsort_desc : list Q -> list nat) : Env :=
  mkEnv (sb_species_threshold sb) (sb_breed_threshold sb)
        (sb_enable_quality_check sb) (sb_enable_crop_assist sb)
        (sb_use_detector_placeholder sb) (sb_max_file_size_mb sb)
        (sb_img_size sb) (sb_normalize sb) (sb_top_k sb)
        (fst (fst models)) (snd (fst models)) (snd models)
        argsort_desc.

(** What the user does below the results.  [show_history] is the
    session flag of that name when the history panel is reached: it
    was set by a "View History" button of this run or of an earlier
    one. *)
Record Buttons : Type := mkButtons {
  show_history : bool;
  clear_history : bool;
  export_training : bool
}.

(** Lines 938-981.  [import pandas as pd] sits inside the branch that
    shows a non-empty history, and [pd] is a local of [main]: the
    result tells whether it got bound.  [st.rerun()] ends the run the
    way [st.stop()] does. *)
Definition history_panel (b : Buttons) : Run bool :=
  if show_history b then
    w <- get ;;
    match session_history w with
    | [] => emit (EvInfo "No predictions in history yet") ;; ret false
    | _ :: _ =>
        if clear_history b then
          modify (with_history []) ;;
          emit (EvSuccess "History cleared!") ;;
          raise StopException
        else ret true
    end
  else ret false.

(** Lines 983-997. *)
Definition active_learning_panel (b : Buttons) (pd_bound : bool) : Run unit :=
  w <- get ;;
  match active_learning_queue w with
  | [] => ret tt
  | queue =>
      emit (EvSuccess (String.append (str_of_nat (length queue))
                                     " images queued for retraining")) ;;
      when (export_training b)
           (if pd_bound then ret tt else raise (NameError "pd"))
  end.

Definition panels (b : Buttons) : Run unit :=
  pd_bound <- history_panel b ;;
  active_learning_panel b pd_bound.

(** [main] from the model loading on (line 565), the configuration
    being loaded. *)
Definition main (ld : Loaders) (sb : Sidebar)
    (argsort_desc : list Q -> list nat)
    (mode : UploadMode) (b : Buttons) : Run unit :=
  models <- model_loading ld ;;
  sidebar sb ;;
  files <- uploaded_files mode ;;
  process_all (env_of sb models argsort_desc) unbound files ;;
  panels b.

(** The user leaves the correction widgets of an upload alone. *)
Definition untouched (up : Upload) : Prop :=
  u_marked_correct up = [] /\ u_form_submit up = None.

(** How often the species model is invoked in an event log. *)
Definition species_calls (evs : list Event) : nat :=
  length (List.filter (fun h => match h with Species => true | _ => false end)
            (predictions evs)).

End Main.

(** ** Further scenarios *)
Module Scenario2.

Import Router.

(** A 5 x 4 picture: five rows of four pixels. *)
Definition tall_picture : Crop.Image :=
  [[Scenario.px 1; Scenario.px 2; Scenario.px 3; Scenario.px 4];
   [Scenario.px 5; Scenario.px 6; Scenario.px 7; Scenario.px 8];
   [Scenario.px 9; Scenario.px 10; Scenario.px 11; Scenario.px 12];
   [Scenario.px 13; Scenario.px 14; Scenario.px 15; Scenario.px 16];
   [Scenario.px 17; Scenario.px 18; Scenario.px 19; Scenario.px 20]].

(** An app.py set-up whose species model tells the two pictures
    apart: the 2 x 3 picture is a bovine (0.92), any other a sheep
    (0.90). *)
Definition species_by_height : Model :=
  fun t => if length (t_image t) =? 2
           then Ok [92#100; 8#100]
           else Ok [10#100; 90#100].

Definition app_env_by_height : App.Env :=
  App.mkEnv 224 species_by_height
            (Scenario.const_model [60#100; 40#100])
            (Scenario.const_model [75#100; 15#100; 10#100]) Scenario.argsort.

(** A second upload: another picture, so another hash. *)
Definition second_upload : Upload :=
  mkUpload "ewe.jpg" tall_picture "7d793037a0760186" Scenario.good_stats
           (Some 2000%Z) 95 [] None None false.

(** What the loaders find: a MobileNet that answers [bovine: 0.92]
    and the three trained models of [Scenario.confident_bovine]. *)
Definition loaders : Main.Loaders :=
  Main.mkLoaders (Some (Scenario.const_model [92#100; 8#100]))
                 (Ok (Scenario.const_model [92#100; 8#100]))
                 (Ok (Scenario.const_model [60#100; 40#100]))
                 (Ok (Scenario.const_model [75#100; 15#100; 10#100])).

(** The sidebar at its defaults, up to the two mode check boxes. *)
Definition sidebar (privacy offline : bool) : Main.Sidebar :=
  Main.mkSidebar (80#100) (70#100) true true false 5 privacy offline 224 true 3.

Definition no_buttons : Main.Buttons := Main.mkButtons false false false.

(** A session that was switched to offline mode in an earlier run. *)
Definition offline_session : World :=
  mkWorld true false [] [] None [] Scenario.wall_clock 0.

(** A run of [main] on one upload. *)
Definition run (privacy offline : bool) (w : World) : Outcome Event World unit :=
  Main.main loaders (sidebar privacy offline) Scenario.argsort
            (Main.SingleImage (Some Scenario.upload)) no_buttons w.

End Scenario2.

(* ================================================================== *)
(** * Part II. Properties                                              *)
(* ================================================================== *)

(** ** Rational comparisons *)

Lemma Qltb_true x y : Qltb x y = true <-> (x < y)%Q.
Proof.
  unfold Qltb. rewrite negb_true_iff. split.
  - intros H. apply Qnot_le_lt. intros Hle. apply Qle_bool_iff in Hle. congruence.
  - intros H. destruct (Qle_bool y x) eqn:E; auto. apply Qle_bool_iff in E. lra.
Qed.

Lemma Qltb_false x y : Qltb x y = false <-> (y <= x)%Q.
Proof. unfold Qltb. rewrite negb_false_iff. apply Qle_bool_iff. Qed.

Lemma Qle_bool_false x y : Qle_bool x y = false <-> (y < x)%Q.
Proof.
  split.
  - intros H. apply Qnot_le_lt. intros Hle. apply Qle_bool_iff in Hle. congruence.
  - intros H. destruct (Qle_bool x y) eqn:E; auto. apply Qle_bool_iff in E. lra.
Qed.

Lemma div_quarter x : (x / (1#4) == 4 * x)%Q.
Proof. field. Qed.

(** ** Sequences: indexing, slicing, argmax *)

Lemma slice_length {A} a m (l : list A) :
  a + m <= length l -> length (slice a (a + m) l) = m.
Proof.
  intros H. unfold slice. replace (a + m - a) with m by lia.
  rewrite length_firstn, length_skipn. lia.
Qed.

Lemma slice_nth {A} a m (l : list A) i :
  i < m -> nth_error (slice a (a + m) l) i = nth_error l (a + i).
Proof.
  intros H. unfold slice. replace (a + m - a) with m by lia.
  rewrite nth_error_firstn.
  destruct (Nat.ltb_spec i m); [|lia].
  apply nth_error_skipn.
Qed.

Lemma slice_In {A} a b (l : list A) x : In x (slice a b l) -> In x l.
Proof.
  intros H. apply In_nth_error in H as [i Hi]. unfold slice in Hi.
  rewrite nth_error_firstn in Hi.
  destruct (i <? b - a); [|discriminate].
  rewrite nth_error_skipn in Hi. eapply nth_error_In; eauto.
Qed.

Lemma argmax_from_lt l : forall bi b i, bi < i -> argmax_from bi b i l < i + length l.
Proof.
  induction l as [|x t IH]; intros bi b i H; cbn [argmax_from length].
  - lia.
  - destruct (Qltb b x).
    + specialize (IH i x (S i)). lia.
    + specialize (IH bi b (S i)). lia.
Qed.

Lemma argmax_lt l i : argmax l = Ok i -> i < length l.
Proof.
  destruct l as [|x t]; cbn; [discriminate|].
  intros [= <-]. pose proof (argmax_from_lt t 0 x 1). lia.
Qed.

Lemma index_lt {A} (l : list A) i : i < length l -> exists x, index l i = Ok x.
Proof.
  intros H. unfold index. destruct (nth_error l i) eqn:E; eauto.
  apply nth_error_None in E. lia.
Qed.

Lemma index_raise {A} (l : list A) i e : index l i = Raise e -> length l <= i.
Proof.
  unfold index. destruct (nth_error l i) eqn:E; [discriminate|].
  intros _. apply nth_error_None in E. exact E.
Qed.

Lemma index_nth {A} (l : list A) i x : index l i = Ok x -> nth_error l i = Some x.
Proof. unfold index. destruct (nth_error l i); [intros [= ->]; reflexivity|discriminate]. Qed.

Lemma argmax_index probs i : argmax probs = Ok i -> exists c, index probs i = Ok c.
Proof. intros H. apply index_lt. eapply argmax_lt; eauto. Qed.

Lemma label_or_total labels i ph : exists s, label_or labels i ph = Ok s.
Proof.
  unfold label_or. destruct (Nat.ltb_spec i (length labels)); eauto.
  apply index_lt. assumption.
Qed.

Lemma label_or_beyond labels i ph : length labels <= i -> label_or labels i ph = Ok ph.
Proof.
  intros H. unfold label_or. destruct (Nat.ltb_spec i (length labels)); [lia|reflexivity].
Qed.

Lemma label_or_within labels i ph :
  i < length labels -> exists s, nth_error labels i = Some s /\ label_or labels i ph = Ok s.
Proof.
  intros H. unfold label_or, index. destruct (Nat.ltb_spec i (length labels)); [|lia].
  destruct (nth_error labels i) eqn:E; eauto. apply nth_error_None in E. lia.
Qed.

(** ** The effect monad *)

Section EffLemmas.
Context {E S : Type}.

Lemma bind_ok {A B} (m : M E S A) (k : A -> M E S B) s a :
  value (m s) = Ok a ->
  bind m k s
  = mkOutcome (events (m s) ++ events (k a (final (m s))))
              (final (k a (final (m s)))) (value (k a (final (m s)))).
Proof.
  intros H. unfold bind. destruct (m s) as [ev s1 v]. cbn in *. subst v.
  destruct (k a s1); reflexivity.
Qed.

Lemma bind_raise {A B} (m : M E S A) (k : A -> M E S B) s e :
  value (m s) = Raise e ->
  bind m k s = mkOutcome (events (m s)) (final (m s)) (Raise e).
Proof.
  intros H. unfold bind. destruct (m s) as [ev s1 v]. cbn in *. subst v.
  reflexivity.
Qed.

Lemma outcome_eta {A} (o : Outcome E S A) :
  o = mkOutcome (events o) (final o) (value o).
Proof. destruct o; reflexivity. Qed.

Lemma for_each_inv {A} (xs : list A) (body : A -> M E S unit)
    (I : S -> Prop) (P : E -> Prop) :
  (forall x s, In x xs -> I s ->
     value (body x s) = Ok tt /\ I (final (body x s)) /\ Forall P (events (body x s))) ->
  forall s, I s ->
    value (for_each xs body s) = Ok tt
    /\ I (final (for_each xs body s))
    /\ Forall P (events (for_each xs body s)).
Proof.
  induction xs as [|x t IH]; intros Hb s Hs.
  - cbn. auto.
  - cbn [for_each]. destruct (Hb x s (or_introl eq_refl) Hs) as (Hv & Hp & He).
    rewrite (bind_ok _ _ _ _ Hv). cbn [events final value].
    destruct (IH (fun y s' Hy => Hb y s' (or_intror Hy)) _ Hp) as (IHv & IHp & IHe).
    repeat split; auto. apply Forall_app; auto.
Qed.

Lemma for_each_frame {A} (xs : list A) (body : A -> M E S unit)
    (I : S -> Prop) (P : E -> Prop) :
  (forall x s, In x xs -> I s ->
     I (final (body x s)) /\ Forall P (events (body x s))) ->
  forall s, I s ->
    I (final (for_each xs body s)) /\ Forall P (events (for_each xs body s)).
Proof.
  induction xs as [|x t IH]; intros Hb s Hs.
  - cbn. auto.
  - cbn [for_each]. destruct (Hb x s (or_introl eq_refl) Hs) as (Hp & He).
    destruct (value (body x s)) as [[]|e] eqn:Hv.
    + rewrite (bind_ok _ _ _ _ Hv). cbn [events final value].
      destruct (IH (fun y s' Hy => Hb y s' (or_intror Hy)) _ Hp) as (IHp & IHe).
      split; auto. apply Forall_app; auto.
    + rewrite (bind_raise _ _ _ _ Hv). cbn [events final value]. auto.
Qed.
End EffLemmas.

(** ** Projections of event logs *)

Lemma projections_quiet evs :
  Forall quiet evs -> predictions evs = [] /\ metrics evs = [] /\ subheaders evs = [].
Proof.
  induction 1 as [|e t He _ (IH1 & IH2 & IH3)]; [auto|].
  unfold predictions, metrics, subheaders in *. cbn [flat_map].
  rewrite IH1, IH2, IH3. destruct e; cbn in He; try contradiction; auto.
Qed.

Lemma predictions_app a b : predictions (a ++ b) = predictions a ++ predictions b.
Proof. apply flat_map_app. Qed.

Lemma metrics_app a b : metrics (a ++ b) = metrics a ++ metrics b.
Proof. apply flat_map_app. Qed.

Lemma subheaders_app a b : subheaders (a ++ b) = subheaders a ++ subheaders b.
Proof. apply flat_map_app. Qed.

Lemma errors_app a b : errors (a ++ b) = errors a ++ errors b.
Proof. apply flat_map_app. Qed.

Lemma errors_cons b l : errors (b :: l) = errors [b] ++ errors l.
Proof. change (b :: l) with ([b] ++ l). apply errors_app. Qed.

(** ** Quality gate *)

Section QualityGate.
Import Quality.
Local Open Scope Q_scope.

Lemma brightness_pass_iff b :
  brightness_pass b = true <-> 1#4 <= b /\ b <= 3#4.
Proof. unfold brightness_pass. rewrite andb_true_iff, !Qle_bool_iff. tauto. Qed.

Lemma brightness_score_low b : b < 1#2 -> brightness_score b == b / (1#4).
Proof.
  intros H. unfold brightness_score.
  destruct (Qltb b (1#2)) eqn:Hb.
  - unfold min2. destruct (Qltb ((1 - b) / (1#4)) (b / (1#4))) eqn:E.
    + apply Qltb_true in E. rewrite !div_quarter in E. lra.
    + reflexivity.
  - apply Qltb_false in Hb. lra.
Qed.

Lemma brightness_score_high b : 1#2 <= b -> brightness_score b = 1.
Proof.
  intros H. unfold brightness_score. apply Qltb_false in H. rewrite H. reflexivity.
Qed.

(** Up to the upper bound of the band the code scores as the
    specification says. *)
Lemma brightness_score_within_spec b :
  b <= 3#4 -> brightness_score b == spec_brightness_score b.
Proof.
  intros Hb. unfold spec_brightness_score.
  destruct (Qle_bool (1#2) b) eqn:Hmid.
  - apply Qle_bool_iff in Hmid. rewrite (brightness_score_high b Hmid).
    apply Qle_bool_iff in Hb. rewrite Hb. reflexivity.
  - apply Qle_bool_false in Hmid. cbn [andb].
    pose proof Hmid as Hlt. apply Qltb_true in Hlt. rewrite Hlt.
    apply brightness_score_low. exact Hmid.
Qed.

(** Above the band the rule fails and still scores 1.0, where the
    specification's ratio is below 1. *)
Lemma brightness_score_above_band b :
  3#4 < b ->
  brightness_pass b = false
  /\ brightness_score b = 1
  /\ spec_brightness_score b == (1 - b) / (1#4)
  /\ spec_brightness_score b < 1.
Proof.
  intros Hb.
  assert (Hp : brightness_pass b = false).
  { destruct (brightness_pass b) eqn:E; [|reflexivity].
    apply brightness_pass_iff in E. lra. }
  assert (Hs : spec_brightness_score b == (1 - b) / (1#4)).
  { unfold spec_brightness_score.
    assert (H1 : Qle_bool b (3#4) = false) by (apply Qle_bool_false; exact Hb).
    assert (H2 : Qltb b (1#2) = false) by (apply Qltb_false; lra).
    rewrite H1, H2, andb_false_r. reflexivity. }
  split; [exact Hp|]. split; [apply brightness_score_high; lra|].
  split; [exact Hs|]. rewrite Hs, div_quarter. lra.
Qed.

(** In the sibling rules the pass flag is "score at least 1"; the
    brightness rule keeps to that below the band only. *)
Lemma pass_iff_score_at_least_one m :
  (pass (resolution_rule m) = true <-> 1 <= score (resolution_rule m))
  /\ (pass (blur_rule m) = true <-> 1 <= score (blur_rule m))
  /\ (pass (dynamic_range_rule m) = true <-> 1 <= score (dynamic_range_rule m))
  /\ (brightness_value m < 1#2 ->
      (pass (brightness_rule m) = true <-> 1 <= score (brightness_rule m))).
Proof.
  split; [|split; [|split]].
  - unfold resolution_rule, of_nat. cbn [pass score].
    rewrite andb_true_iff, !Nat.leb_le.
    assert (H : forall n : nat, 1 <= inject_Z (Z.of_nat n) / 512 <-> (512 <= n)%nat).
    { intros n. unfold Qle, Qdiv, Qmult, Qinv, inject_Z. cbn. split; intros; lia. }
    rewrite H. split; [intros [? ?]|intros ?; split]; lia.
  - unfold blur_rule. cbn [pass score]. rewrite Qle_bool_iff.
    assert (H : forall x, 1 <= x / 120 <-> 120 <= x).
    { intros x. assert (E : x / 120 == x * (1#120)) by field. rewrite E. split; intros; lra. }
    rewrite H. reflexivity.
  - unfold dynamic_range_rule. cbn [pass score]. rewrite Qle_bool_iff.
    assert (H : forall x, 1 <= x / (15#100) <-> 15#100 <= x).
    { intros x. assert (E : x / (15#100) == x * (100#15)) by field. rewrite E.
      split; intros; lra. }
    rewrite H. reflexivity.
  - intros Hb. unfold brightness_rule. cbn [pass score].
    rewrite brightness_pass_iff, (brightness_score_low _ Hb), div_quarter.
    split; [intros [? ?]|intros ?; split]; lra.
Qed.

(** C5.  An over-exposed image (mean gray level 229.5, brightness 0.9)
    fails the brightness rule, and the code scores it 1.0.  The ratio
    the claim gives for the violated upper side is (1 - 0.9) / 0.25 =
    0.4; measured from the bound 0.75 instead it would be (0.9 - 0.75) /
    0.25 = 0.6.  The code's score is neither. *)
Theorem brightness_overexposed_scores_one :
  let m := mkMeasures 600 600 (mkStats 200 (2295#10) 64) in
  brightness_value m == 9#10
  /\ pass (brightness_rule m) = false
  /\ score (brightness_rule m) == 1
  /\ spec_brightness_score (brightness_value m) == 4#10
  /\ ~ score (brightness_rule m) == spec_brightness_score (brightness_value m)
  /\ ~ score (brightness_rule m) == (brightness_value m - (3#4)) / (1#4).
Proof.
  cbn zeta. split; [reflexivity|]. split; [reflexivity|].
  split; [reflexivity|]. split; [reflexivity|].
  split; intros H; vm_compute in H; discriminate H.
Qed.

Lemma mean4 a b c d : mean [a; b; c; d] == (a + b + c + d) / 4.
Proof. unfold mean. cbn. unfold of_nat. cbn. field. Qed.

(** C6, as amended.  The two aggregates are taken over the four image
    rules (resolution, blur, brightness, dynamic range): [overall_score]
    is their mean score and [overall_pass] the conjunction of their pass
    flags.  The file-size rule is in the report exactly when both sizes
    are supplied, with pass iff size <= max and score min(1, max / max(1,
    size)), and it enters neither aggregate. *)
Theorem aggregates_over_image_rules m fs mx :
  let r := assess_image_quality m fs mx in
  overall_score r
  == (score (resolution r) + score (blur r) + score (brightness r)
      + score (dynamic_range r)) / 4
  /\ overall_pass r
     = pass (resolution r) && pass (blur r) && pass (brightness r)
       && pass (dynamic_range r)
  /\ file_size r
     = match fs, mx with
       | Some size, Some max_size =>
           Some {| pass := (size <=? max_size)%Z;
                   score := min2 1 (inject_Z max_size / inject_Z (Z.max 1 size)) |}
       | _, _ => None
       end
  /\ overall_score r = overall_score (assess_image_quality m None None)
  /\ overall_pass r = overall_pass (assess_image_quality m None None).
Proof.
  cbn zeta. unfold assess_image_quality.
  cbn [overall_score overall_pass resolution blur brightness dynamic_range file_size].
  split; [apply mean4|]. split.
  - cbn [forallb]. rewrite andb_true_r, !andb_assoc. reflexivity.
  - split; [destruct fs, mx; reflexivity|]. split; reflexivity.
Qed.

(** C6, counterexample.  A sharp, well-lit 600 x 600 image of 10 MiB
    against a 5 MiB limit: the file-size rule is in the report and
    fails, yet [overall_pass] is true and [overall_score] is not the mean
    over all five rules. *)
Lemma aggregates_skip_file_size_counterexample :
  let r := assess_image_quality (mkMeasures 600 600 (mkStats 200 128 64))
             (Some 10485760%Z) (Some 5242880%Z) in
  length (rules_of r) = 5%nat
  /\ overall_pass r = true
  /\ forallb pass (rules_of r) = false
  /\ ~ overall_score r == mean (map score (rules_of r)).
Proof.
  cbn zeta. split; [reflexivity|]. split; [reflexivity|]. split; [reflexivity|].
  intros H. vm_compute in H. discriminate H.
Qed.

End QualityGate.

(** ** Crop assistant *)

Section CropAssistant.
Import Crop.

Lemma width_wf img r : well_formed img -> In r img -> length r = width img.
Proof. intros H Hin. unfold well_formed in H. rewrite List.Forall_forall in H. auto. Qed.

(** C10.  For a well-formed image with positive width and height the
    default (non-detector) crop is a square of side min(width, height):
    it has that many rows, each of that length, its pixel (r, c) is the
    input pixel (start_y + r, start_x + c), and the offsets start_x =
    (width - side) div 2 and start_y = (height - side) div 2 split the
    margins evenly, the extra pixel of an odd margin going to the right
    or bottom. *)
Theorem center_square_crop img :
  well_formed img -> 0 < height img -> 0 < width img ->
  let out := auto_crop_image img false in
  let m := Nat.min (width img) (height img) in
  height out = m
  /\ width out = m
  /\ well_formed out
  /\ (forall r c, r < m -> c < m ->
        pixel_at out r c = pixel_at img (start_y img + r) (start_x img + c))
  /\ (2 * start_x img <= width img - m <= 2 * start_x img + 1)
  /\ (2 * start_y img <= height img - m <= 2 * start_y img + 1).
Proof.
  intros Hwf Hh Hw out m.
  assert (Hm : min_dim img = m) by (unfold min_dim, m; lia).
  assert (Hsx : start_x img + m <= width img).
  { unfold start_x. rewrite Hm.
    pose proof (Nat.Div0.mul_div_le (width img - m) 2). lia. }
  assert (Hsy : start_y img + m <= height img).
  { unfold start_y. rewrite Hm.
    pose proof (Nat.Div0.mul_div_le (height img - m) 2). lia. }
  assert (Hout : out = region (start_y img) (start_y img + m)
                              (start_x img) (start_x img + m) img).
  { unfold out, auto_crop_image, center_square, fromarray. rewrite Hm. reflexivity. }
  assert (Hrows : Forall (fun r => length r = m) out).
  { rewrite Hout. unfold region. rewrite List.Forall_map.
    apply List.Forall_forall. intros r Hr.
    apply slice_length. rewrite (width_wf img r Hwf); [exact Hsx|].
    eapply slice_In; eauto. }
  assert (Hheight : height out = m).
  { rewrite Hout. unfold height, region. rewrite length_map.
    apply slice_length. exact Hsy. }
  assert (Hwidth : width out = m).
  { unfold width. destruct out as [|r0 t] eqn:E.
    - unfold height in Hheight. simpl in Hheight. lia.
    - inversion Hrows; auto. }
  repeat split.
  - exact Hheight.
  - exact Hwidth.
  - unfold well_formed. rewrite Hwidth. exact Hrows.
  - intros r c Hr Hc. rewrite Hout. unfold pixel_at, region.
    rewrite nth_error_map, slice_nth by exact Hr.
    destruct (nth_error img (start_y img + r)) as [row|] eqn:Erow; simpl.
    + apply slice_nth. exact Hc.
    + apply nth_error_None in Erow. unfold height in Hsy. lia.
  - unfold start_x. rewrite Hm. pose proof (Nat.Div0.mul_div_le (width img - m) 2). lia.
  - unfold start_x. rewrite Hm.
    pose proof (Nat.div_mod_eq (width img - m) 2).
    pose proof (Nat.mod_upper_bound (width img - m) 2). lia.
  - unfold start_y. rewrite Hm. pose proof (Nat.Div0.mul_div_le (height img - m) 2). lia.
  - unfold start_y. rewrite Hm.
    pose proof (Nat.div_mod_eq (height img - m) 2).
    pose proof (Nat.mod_upper_bound (height img - m) 2). lia.
Qed.

Lemma center_square_crop_witness :
  let out := auto_crop_image Scenario.picture false in
  well_formed Scenario.picture
  /\ height out = 2 /\ width out = 2
  /\ pixel_at out 1 0 = Some (Scenario.px 4).
Proof.
  assert (Hwf : well_formed Scenario.picture) by (repeat constructor).
  assert (Hh : 0 < height Scenario.picture) by (cbn; lia).
  assert (Hw : 0 < width Scenario.picture) by (cbn; lia).
  pose proof (center_square_crop Scenario.picture Hwf Hh Hw) as H.
  cbn zeta in H. destruct H as (Hho & Hwo & _ & Hpix & _).
  cbn zeta. split; [exact Hwf|].
  split; [rewrite Hho; reflexivity|]. split; [rewrite Hwo; reflexivity|].
  rewrite (Hpix 1 0) by (cbn; lia). reflexivity.
Defined.

End CropAssistant.

(** ** Label registry *)

Section LabelRegistry.
Import Labels.

#[local] Instance str_le_total : Total str_le.
Proof. intros a b. unfold str_le. apply String.leb_total. Qed.









(** [ensure_labels] of app_comprehensive.py, which nothing in that file
    calls, returns what the list file holds without checking that it is
    a non-empty list: here the empty list, although the training
    directory has two breed folders. *)
Lemma ensure_labels_takes_empty_file :
  ensure_labels Scenario.label_fs Scenario.label_cfg "sheep_labels" None "sheep_breeds"
  = Ok (JList [])
  /\ spec_resolve Scenario.label_fs (Scenario.label_cfg !! "sheep_labels")
       (Some sheep_dir)
     = ["Deccani"; "Nellore"].
Proof. split; vm_compute; reflexivity. Qed.

End LabelRegistry.

(** ** app_comprehensive.py: the stages of the loop body *)

Section RouterFacts.
Import Router.

Lemma quality_stage_run env up w :
  quality_stage env up w = mkOutcome (quality_events env up) w (Ok tt).
Proof.
  unfold quality_stage, quality_events.
  destruct (enable_quality_check env); [|reflexivity].
  destruct (Quality.file_size (quality_report env up)) as [f|];
    destruct (Quality.overall_pass (quality_report env up));
    unfold bind, emit, when, ret; cbn; reflexivity.
Qed.

Lemma quality_events_quiet env up :
  predictions (quality_events env up) = [] /\ metrics (quality_events env up) = []
  /\ ~ In "breed_pred" (subheaders (quality_events env up)).
Proof.
  unfold quality_events.
  destruct (enable_quality_check env); [|cbn; auto].
  destruct (Quality.file_size (quality_report env up)) as [f|];
    destruct (Quality.overall_pass (quality_report env up));
    cbn; repeat split; auto; intros [H|[]]; discriminate.
Qed.

Lemma quality_events_no_error env up : errors (quality_events env up) = [].
Proof.
  unfold quality_events.
  destruct (enable_quality_check env); [|reflexivity].
  destruct (Quality.file_size (quality_report env up)) as [f|];
    destruct (Quality.overall_pass (quality_report env up)); reflexivity.
Qed.

Lemma display_species_run env l c w :
  display_species env l c w = mkOutcome (display_events env l c) w (Ok tt).
Proof.
  unfold display_species, display_events.
  destruct (Qle_bool (species_threshold env) c);
    unfold bind, emit, ret; cbn; reflexivity.
Qed.

Lemma display_events_quiet env l c :
  predictions (display_events env l c) = [] /\ metrics (display_events env l c) = []
  /\ subheaders (display_events env l c) = ["species_pred"]
  /\ errors (display_events env l c) = [].
Proof.
  unfold display_events.
  destruct (Qle_bool (species_threshold env) c); cbn; auto.
Qed.

Lemma predict_cases {S} h (m : option Model) t (s : S) :
  final (predict h m t s) = s
  /\ match m with
     | None => events (predict h m t s) = [] /\ value (predict h m t s) = Raise AttributeError
     | Some f => events (predict h m t s) = [EvPredict h] /\ value (predict h m t s) = f t
     end.
Proof.
  destruct m as [f|]; unfold predict, bind, emit, lift, raise; cbn; auto.
Qed.

(** The species stage in full.  Online, or without a model, it never
    yields a label: past the model call and the arg-max it reads
    [species_labels]. *)
Lemma species_stage_run env t w :
  species_stage env t w =
  match species_model env with
  | None => mkOutcome [] w (Raise AttributeError)
  | Some f =>
      mkOutcome [EvPredict Species] w
        match f t with
        | Raise e => Raise e
        | Ok probs =>
            if offline_mode w then
              match index probs 0, max_list probs with
              | Ok p0, Ok c => Ok (if Qltb (1#2) p0 then "bovine" else "sheep", c)
              | Raise e, _ => Raise e
              | _, Raise e => Raise e
              end
            else
              match argmax probs with
              | Ok _ => Raise (NameError "species_labels")
              | Raise e => Raise e
              end
        end
  end.
Proof.
  unfold species_stage, read_labels, bind, get, predict, emit, lift, raise, ret; cbn.
  destruct (offline_mode w), (species_model env) as [f|]; cbn; try reflexivity.
  - destruct (f t) as [probs|e]; cbn; [|reflexivity].
    destruct (index probs 0); cbn; [|reflexivity].
    destruct (max_list probs); cbn; reflexivity.
  - destruct (f t) as [probs|e]; cbn; [|reflexivity].
    destruct (argmax probs) as [i|]; cbn; reflexivity.
Qed.

Lemma species_stage_frame env t w :
  let o := species_stage env t w in
  final o = w
  /\ (events o = [] \/ events o = [EvPredict Species])
  /\ (forall r, value o = Ok r -> events o = [EvPredict Species] /\ offline_mode w = true).
Proof.
  cbn zeta. rewrite species_stage_run.
  destruct (species_model env) as [f|]; cbn; [|repeat split; auto; discriminate].
  split; [reflexivity|]. split; [auto|].
  intros r Hr. split; [reflexivity|].
  destruct (f t) as [probs|e]; [|discriminate Hr].
  destruct (offline_mode w); [reflexivity|].
  destruct (argmax probs); discriminate Hr.
Qed.



(** The breed block stops where it reads the label list of the head. *)
Lemma breed_stage_run env up t l w :
  breed_stage env up t l w =
  mkOutcome [EvSubheader "breed_pred"] w
    (Raise (NameError (match route l with
                       | Sheep => "sheep_labels"
                       | _ => "bovine_labels"
                       end))).
Proof. reflexivity. Qed.

Lemma history_stage_cases env up l c locals w :
  let o := history_stage env up l c locals w in
  events o = []
  /\ (exists n, final o = with_ticks n (with_history (session_history (final o)) w))
  /\ (privacy_mode w = true -> final o = w /\ value o = Ok tt)
  /\ (privacy_mode w = false ->
        if Qle_bool (species_threshold env) c then
          match br_label locals, br_conf locals with
          | Some bl, Some bc =>
              value o = Ok tt
              /\ session_history (final o)
                 = session_history w
                   ++ [mkHistory (clock w (ticks w)) (u_hash up) (u_name up) l c
                                 (Some bl) (Some bc) (u_elapsed_ms up)]
          | None, _ => value o = Raise (NameError "br_label")
                       /\ session_history (final o) = session_history w
          | Some _, None => value o = Raise (NameError "br_conf")
                            /\ session_history (final o) = session_history w
          end
        else
          value o = Ok tt
          /\ session_history (final o)
             = session_history w
               ++ [mkHistory (clock w (ticks w)) (u_hash up) (u_name up) l c
                             None None (u_elapsed_ms up)]).
Proof.
  cbn zeta. destruct w as [off priv hist q csv faults clk tk].
  unfold history_stage, bind, get, now, read_local, modify, ret, raise; cbn.
  destruct priv; cbn.
  - repeat split; auto; try discriminate. exists tk. reflexivity.
  - destruct (Qle_bool (species_threshold env) c); cbn.
    + destruct (br_label locals) as [bl|]; cbn;
        [destruct (br_conf locals) as [bc|]; cbn|];
        repeat split; auto; try discriminate; eexists; reflexivity.
    + repeat split; auto; try discriminate. eexists; reflexivity.
Qed.

(** The buttons under the result: nothing but clock readings changes,
    nothing is invoked, and with no button pressed nothing happens. *)
Lemma actions_stage_cases env up c locals w :
  let o := actions_stage env up c locals w in
  (exists n, final o = with_ticks n w)
  /\ Forall quiet (events o)
  /\ (value o = Ok tt
      \/ (value o = Raise StopException /\ u_analyze_new up = true)
      \/ (exists name, value o = Raise (NameError name)
                       /\ u_report up <> None
                       /\ Qle_bool (species_threshold env) c = true
                       /\ (br_label locals = None \/ br_conf locals = None)))
  /\ (u_report up = None -> u_analyze_new up = false -> o = mkOutcome [] w (Ok tt))
  /\ (u_analyze_new up = false -> value o <> Raise StopException).
Proof.
  cbn zeta. destruct w as [off priv hist q csv faults clk tk].
  unfold actions_stage, bind, now, read_local, when, emit, ret, raise; cbn.
  destruct (u_report up) as [built|]; cbn.
  - destruct (Qle_bool (species_threshold env) c); cbn.
    + destruct (br_label locals) as [bl|]; cbn.
      * destruct (br_conf locals) as [bc|]; cbn.
        -- destruct built, (u_analyze_new up); cbn;
             (split; [eexists; reflexivity|]); (split; [repeat constructor|]);
             (split; [auto|]); split; intros; discriminate.
        -- destruct (u_analyze_new up);
             (split; [eexists; reflexivity|]); (split; [repeat constructor|]);
             (split; [right; right; eexists; repeat split; eauto; discriminate|]);
             split; intros; discriminate.
      * destruct (u_analyze_new up);
          (split; [eexists; reflexivity|]); (split; [repeat constructor|]);
          (split; [right; right; eexists; repeat split; eauto; discriminate|]);
          split; intros; discriminate.
    + destruct built, (u_analyze_new up); cbn;
        (split; [eexists; reflexivity|]); (split; [repeat constructor|]);
        (split; [auto|]); split; intros; discriminate.
  - destruct (u_analyze_new up); cbn;
      (split; [exists tk; reflexivity|]); (split; [repeat constructor|]);
      (split; [auto|]); split; intros; try discriminate; reflexivity.
Qed.

#[local] Arguments guardrail_stage : simpl never.
#[local] Arguments breed_stage : simpl never.
#[local] Arguments species_stage : simpl never.
#[local] Arguments history_stage : simpl never.
#[local] Arguments actions_stage : simpl never.
#[local] Arguments quality_stage : simpl never.
#[local] Arguments display_species : simpl never.

(** The loop body, stage by stage.  An iteration gets past the species
    stage only in offline mode, where neither the guardrail nor the
    breed block is entered. *)
Lemma process_image_eq env locals up w :
  let os := species_stage env (batch_of env up) w in
  process_image env locals up w =
  match value os with
  | Raise e => mkOutcome (quality_events env up ++ events os) w (Raise e)
  | Ok sp =>
      let l := fst sp in
      let c := snd sp in
      let locals1 := mkLocals (Some l) (Some c) (br_label locals) (br_conf locals) in
      let oh := history_stage env up l c locals1 w in
      match value oh with
      | Raise e =>
          mkOutcome (quality_events env up ++ [EvPredict Species] ++ display_events env l c)
                    (final oh) (Raise e)
      | Ok _ =>
          let oa := actions_stage env up c locals1 (final oh) in
          mkOutcome (quality_events env up ++ [EvPredict Species] ++ display_events env l c
                     ++ events oa)
                    (final oa)
                    (match value oa with Ok _ => Ok locals1 | Raise e => Raise e end)
      end
  end.
Proof.
  cbn zeta. unfold process_image.
  rewrite (bind_ok (quality_stage env up) _ w tt)
    by (rewrite quality_stage_run; reflexivity).
  rewrite !quality_stage_run. cbn [events final value].
  pose proof (species_stage_frame env (batch_of env up) w) as Hs. cbn zeta in Hs.
  destruct Hs as (Hsw & _ & Hso).
  destruct (value (species_stage env (batch_of env up) w)) as [sp|e] eqn:Hsv.
  2:{ rewrite (bind_raise _ _ _ _ Hsv). cbn [events final value]. rewrite Hsw. reflexivity. }
  destruct (Hso sp eq_refl) as (Hse & Hoff).
  rewrite (bind_ok _ _ _ _ Hsv). rewrite Hsw, Hse. cbn [events final value].
  rewrite (bind_ok (display_species env (fst sp) (snd sp)) _ w tt)
    by (rewrite display_species_run; reflexivity).
  rewrite !display_species_run. cbn [events final value].
  rewrite (bind_ok get _ w w eq_refl). cbn [get events final value app].
  rewrite Hoff. cbn [negb]. rewrite !andb_false_r. cbn [when].
  rewrite (bind_ok (ret tt) _ w tt eq_refl). cbn [ret events final value app].
  rewrite (bind_ok get _ w w eq_refl). cbn [get events final value app].
  rewrite Hoff. cbn [negb]. rewrite !andb_false_r.
  rewrite (bind_ok (ret _) _ w _ eq_refl). cbn [ret events final value app].
  pose proof (history_stage_cases env up (fst sp) (snd sp)
                (mkLocals (Some (fst sp)) (Some (snd sp)) (br_label locals) (br_conf locals)) w)
    as Hh.
  cbn zeta in Hh. destruct Hh as (Hhe & _).
  destruct (value (history_stage env up (fst sp) (snd sp) _ w)) as [[]|e] eqn:Hhv.
  - rewrite (bind_ok _ _ _ _ Hhv). rewrite Hhe. cbn [events final value app].
    unfold bind, ret.
    destruct (actions_stage env up (snd sp) _ _) as [eva wa [[]|e]];
      cbn [events final value]; rewrite ?app_nil_r; reflexivity.
  - rewrite (bind_raise _ _ _ _ Hhv). rewrite Hhe. cbn [events final value app].
    rewrite ?app_nil_r. reflexivity.
Qed.

#[local] Arguments process_image : simpl never.

(** What one iteration leaves behind: clock readings, and at most one
    history record, which is the record of this upload.  The record is
    there when the iteration completes without privacy mode; if the
    iteration raises, a record is there only when "Analyze New Image"
    ended it. *)
Lemma process_image_final env locals up w :
  let o := process_image env locals up w in
  exists n new,
    final o = with_ticks n (with_history (session_history w ++ new) w)
    /\ (privacy_mode w = true -> new = [])
    /\ (privacy_mode w = false ->
        match value o with
        | Ok _ => exists e, new = [e] /\ h_filename e = u_name up
                             /\ h_image_hash e = u_hash up
        | Raise ex =>
            new = []
            \/ (ex = StopException /\ u_analyze_new up = true
                /\ exists e, new = [e] /\ h_filename e = u_name up
                               /\ h_image_hash e = u_hash up)
        end)
    /\ (forall ls, value o = Ok ls ->
          br_label ls = br_label locals /\ br_conf ls = br_conf locals
          /\ offline_mode w = true).
Proof.
  cbn zeta. rewrite process_image_eq. cbn zeta.
  pose proof (species_stage_frame env (batch_of env up) w) as Hs. cbn zeta in Hs.
  destruct Hs as (_ & _ & Hso).
  destruct (value (species_stage env (batch_of env up) w)) as [[l c]|e].
  2:{ exists (ticks w), []. cbn [final value]. rewrite app_nil_r.
      split; [destruct w; reflexivity|]. split; [reflexivity|].
      split; [auto|]. intros ls H; discriminate H. }
  destruct (Hso _ eq_refl) as (_ & Hoff). cbn [fst snd].
  set (locals1 := mkLocals (Some l) (Some c) (br_label locals) (br_conf locals)).
  pose proof (history_stage_cases env up l c locals1 w) as Hh. cbn zeta in Hh.
  destruct Hh as (_ & (nh & Hhw) & Hhp & Hhn).
  set (oh := history_stage env up l c locals1 w) in *.
  assert (Hnew : exists new,
            session_history (final oh) = session_history w ++ new
            /\ (privacy_mode w = true -> new = [])
            /\ (privacy_mode w = false ->
                match value oh with
                | Ok _ => exists e, new = [e] /\ h_filename e = u_name up
                                     /\ h_image_hash e = u_hash up
                | Raise _ => new = []
                end)
            /\ (privacy_mode w = false -> value oh = Ok tt ->
                Qle_bool (species_threshold env) c = true ->
                br_label locals <> None /\ br_conf locals <> None)).
  { destruct (privacy_mode w) eqn:Hpriv.
    - destruct (Hhp eq_refl) as (Hf & _). exists []. rewrite Hf, app_nil_r.
      repeat split; auto; discriminate.
    - specialize (Hhn eq_refl).
      destruct (Qle_bool (species_threshold env) c).
      + cbn [br_label br_conf locals1] in Hhn.
        destruct (br_label locals) as [bl|]; [destruct (br_conf locals) as [bc|]|];
          destruct Hhn as (Hv & Hhist); rewrite Hv, Hhist.
        * eexists. split; [reflexivity|]. split; [discriminate|].
          split; [intros _; eexists; repeat split|]. intros _ _ _. split; discriminate.
        * exists []. rewrite app_nil_r. repeat split; auto; discriminate.
        * exists []. rewrite app_nil_r. repeat split; auto; discriminate.
      + destruct Hhn as (Hv & Hhist). rewrite Hv, Hhist.
        eexists. split; [reflexivity|]. split; [discriminate|].
        split; [intros _; eexists; repeat split|]. intros _ _ H; discriminate H. }
  destruct Hnew as (new & Hhist & Hnp & Hnn & Hbr).
  destruct (value oh) as [[]|e] eqn:Hhv.
  - pose proof (actions_stage_cases env up c locals1 (final oh)) as Ha. cbn zeta in Ha.
    destruct Ha as ((na & Haw) & _ & Hav & _).
    set (oa := actions_stage env up c locals1 (final oh)) in *.
    exists na, new. cbn [final value].
    split; [rewrite Haw, Hhw, Hhist; reflexivity|]. split; [exact Hnp|].
    split.
    + intros Hpriv. specialize (Hnn Hpriv).
      destruct Hav as [Hv | [(Hv & Hb) | (name & Hv & _ & Hc & Hnone)]]; rewrite Hv.
      * exact Hnn.
      * right. auto.
      * exfalso. destruct (Hbr Hpriv eq_refl Hc) as (H1 & H2).
        cbn [br_label br_conf locals1] in Hnone. destruct Hnone; contradiction.
    + intros ls Hv. destruct (value oa) as [[]|e]; [|discriminate Hv].
      injection Hv as <-. cbn. auto.
  - exists nh, new. cbn [final value].
    split; [rewrite Hhw, Hhist; reflexivity|]. split; [exact Hnp|].
    split; [intros Hpriv; left; exact (Hnn Hpriv)|]. intros ls H; discriminate H.
Qed.

(** The only model an iteration invokes is the species model, once at most. *)
Lemma process_image_predictions env locals up w :
  predictions (events (process_image env locals up w)) = []
  \/ predictions (events (process_image env locals up w)) = [Species].
Proof.
  rewrite process_image_eq. cbn zeta.
  destruct (quality_events_quiet env up) as (Hq & _).
  pose proof (species_stage_frame env (batch_of env up) w) as Hs. cbn zeta in Hs.
  destruct Hs as (_ & Hse & _).
  destruct (value (species_stage env (batch_of env up) w)) as [[l c]|e]; cbn [fst snd].
  - destruct (display_events_quiet env l c) as (Hd & _).
    destruct (value (history_stage env up l c _ w)) as [[]|e]; cbn [events];
      rewrite !predictions_app, Hq, ?Hd; cbn [app predictions flat_map]; auto.
    match goal with |- context [actions_stage env up c ?ls ?wh] =>
      pose proof (actions_stage_cases env up c ls wh) as Ha
    end.
    cbn zeta in Ha. destruct Ha as (_ & Haq & _).
    rewrite (proj1 (projections_quiet _ Haq)). auto.
  - cbn [events]. rewrite predictions_app, Hq.
    destruct Hse as [-> | ->]; auto.
Qed.

(** No metric is ever reported and the breed heading is never shown. *)
Lemma process_image_no_breed env locals up w :
  metrics (events (process_image env locals up w)) = []
  /\ ~ In "breed_pred" (subheaders (events (process_image env locals up w))).
Proof.
  rewrite process_image_eq. cbn zeta.
  destruct (quality_events_quiet env up) as (_ & Hq & Hqs).
  pose proof (species_stage_frame env (batch_of env up) w) as Hs. cbn zeta in Hs.
  destruct Hs as (_ & Hse & _).
  destruct (value (species_stage env (batch_of env up) w)) as [[l c]|e]; cbn [fst snd].
  - destruct (display_events_quiet env l c) as (_ & Hd & Hds & _).
    destruct (value (history_stage env up l c _ w)) as [[]|e]; cbn [events].
    + match goal with |- context [actions_stage env up c ?ls ?wh] =>
        pose proof (actions_stage_cases env up c ls wh) as Ha
      end.
      cbn zeta in Ha. destruct Ha as (_ & Haq & _).
      destruct (projections_quiet _ Haq) as (_ & Ham & Has).
      rewrite !metrics_app, !subheaders_app, Hq, Hd, Hds, Ham, Has.
      cbn. split; [reflexivity|]. rewrite in_app_iff. intros [H|[H|[]]]; [auto|discriminate].
    + rewrite !metrics_app, !subheaders_app, Hq, Hd, Hds.
      cbn. split; [reflexivity|]. rewrite in_app_iff. intros [H|[H|[]]]; [auto|discriminate].
  - cbn [events]. rewrite metrics_app, subheaders_app, Hq.
    destruct Hse as [-> | ->]; cbn; rewrite app_nil_r; auto.
Qed.

Lemma process_all_final env ups : forall locals w,
  let o := process_all env locals ups w in
  exists n new,
    final o = with_ticks n (with_history (session_history w ++ new) w)
    /\ (privacy_mode w = true -> new = []).
Proof.
  induction ups as [|up rest IH]; intros locals w; cbn zeta; cbn [process_all].
  - exists (ticks w), []. rewrite app_nil_r. split; [destruct w; reflexivity|auto].
  - pose proof (process_image_final env locals up w) as H1. cbn zeta in H1.
    destruct H1 as (n1 & new1 & Hf1 & Hp1 & _).
    destruct (value (process_image env locals up w)) as [ls|e] eqn:Hv.
    + rewrite (bind_ok _ _ _ _ Hv). cbn [final].
      destruct (IH ls (final (process_image env locals up w))) as (n & new & Hf & Hp).
      exists n, (new1 ++ new). rewrite Hf, Hf1. cbn. rewrite app_assoc.
      split; [reflexivity|]. intros Hpriv.
      rewrite (Hp1 Hpriv). apply Hp. rewrite Hf1. exact Hpriv.
    + rewrite (bind_raise _ _ _ _ Hv). cbn [final]. exists n1, new1. auto.
Qed.

Lemma process_all_predictions env ups : forall locals w,
  Forall (eq Species) (predictions (events (process_all env locals ups w)))
  /\ length (predictions (events (process_all env locals ups w))) <= length ups.
Proof.
  induction ups as [|up rest IH]; intros locals w; cbn [process_all length].
  - cbn. split; [constructor|lia].
  - assert (H1 : Forall (eq Species) (predictions (events (process_image env locals up w)))
                 /\ length (predictions (events (process_image env locals up w))) <= 1).
    { destruct (process_image_predictions env locals up w) as [-> | ->]; cbn;
        split; repeat constructor. }
    destruct H1 as (H1 & H2).
    destruct (value (process_image env locals up w)) as [ls|e] eqn:Hv.
    + rewrite (bind_ok _ _ _ _ Hv). cbn [events]. rewrite predictions_app, length_app.
      destruct (IH ls (final (process_image env locals up w))) as (H3 & H4).
      split; [apply Forall_app; auto|lia].
    + rewrite (bind_raise _ _ _ _ Hv). cbn [events]. split; [exact H1|lia].
Qed.

End RouterFacts.
(** ** app_comprehensive.py: the correction ledger *)

Section LedgerFacts.
Import Router.

Lemma same_session_refl w : same_session w w.
Proof. repeat split. Qed.

Lemma same_session_trans w1 w2 w3 :
  same_session w1 w2 -> same_session w2 w3 -> same_session w1 w3.
Proof. unfold same_session. intuition congruence. Qed.

(** One [save_correction], written out for each thing the storage can do. *)
Lemma save_correction_run h p a c w :
  save_correction h p a c w =
  let f := match io_faults w with [] => NoFault | f :: _ => f end in
  let w0 := with_faults (tl (io_faults w)) w in
  let header := match corrections_csv w with Some _ => [] | None => [Header] end in
  let record := Data (mkCorrection (clock w (ticks w)) h p a c) in
  let written pieces :=
    with_ticks (S (ticks w))
      (with_csv (Some (pieces_of (corrections_csv w) ++ pieces)) w0) in
  match f with
  | NoFault => mkOutcome [] (written (map Whole (header ++ [record]))) (Ok true)
  | OpenFails => mkOutcome [EvError "Failed to save correction"] w0 (Ok false)
  | RowFails =>
      mkOutcome [EvError "Failed to save correction"] (written (map Whole header)) (Ok false)
  | FlushFails n partial =>
      mkOutcome [EvError "Failed to save correction"]
                (written (flushed n partial (header ++ [record]))) (Ok false)
  end.
Proof.
  destruct w as [off priv hist q csv faults clk tk].
  unfold save_correction, close_file, append_pieces, bind, try_except, next_fault,
    open_append, now, get, modify, ret, raise, emit.
  destruct faults as [|[| | |n partial] faults]; destruct csv as [pieces|]; reflexivity.
Qed.

Lemma record_correction_run msg h p a c w :
  record_correction msg h p a c w =
  let o := save_correction h p a c w in
  let w1 := final o in
  match value o with
  | Ok true =>
      mkOutcome (events o ++ [EvSuccess msg])
        (with_ticks (S (ticks w1))
           (with_queue (active_learning_queue w1
                        ++ [mkQueue h p a c (clock w1 (ticks w1))]) w1))
        (Ok true)
  | Ok false => mkOutcome (events o ++ [EvError "Failed to save correction"]) w1 (Ok false)
  | Raise e => mkOutcome (events o) w1 (Raise e)
  end.
Proof.
  cbn zeta. unfold record_correction, bind.
  destruct (save_correction h p a c w) as [ev w1 [[|]|e]]; cbn [events final value];
    [| |reflexivity].
  - destruct w1; unfold now, modify, emit, ret; cbn. reflexivity.
  - unfold emit, ret; cbn. rewrite ?app_nil_r. reflexivity.
Qed.

(** What a flush that raises can have written of a buffer that ends
    with the record, after an optional header. *)
Lemma flushed_cases n partial header r :
  header = [] \/ header = [Header] ->
  let added := flushed n partial (header ++ [Data r]) in
  (records (Some added) = [] \/ records (Some added) = [r])
  /\ (header = [] -> Forall (fun p => header_piece p = false) added).
Proof.
  intros [-> | ->]; cbn zeta; unfold flushed, records; cbn [app];
    destruct n as [|[|[|n]]], partial; cbn; auto;
    split; auto; try discriminate; repeat constructor.
Qed.

(** One record call: what it answers and what it leaves behind. *)
Lemma record_correction_cases msg h p a c w :
  let o := record_correction msg h p a c w in
  let r := mkCorrection (clock w (ticks w)) h p a c in
  exists ok added wrote entries,
    value o = Ok ok
    /\ same_session w (final o)
    /\ io_faults (final o) = tl (io_faults w)
    /\ Forall quiet (events o)
    /\ pieces_of (corrections_csv (final o)) = pieces_of (corrections_csv w) ++ added
    /\ (corrections_csv w <> None ->
        corrections_csv (final o) <> None
        /\ Forall (fun p => header_piece p = false) added)
    /\ records (Some added) = (if wrote : bool then [r] else [])
    /\ (ok = true ->
        wrote = true
        /\ exists hdr, added = hdr ++ [Whole (Data r)]
                       /\ (hdr = [] \/ hdr = [Whole Header]))
    /\ active_learning_queue (final o) = active_learning_queue w ++ entries
    /\ (if ok : bool
        then exists ts, entries = [mkQueue h p a c ts]
        else entries = []).
Proof.
  cbn zeta. rewrite record_correction_run, save_correction_run. cbn zeta.
  destruct w as [off priv hist q csv faults clk tk].
  set (r := mkCorrection (clk tk) h p a c).
  assert (Hhdr : forall csv0 : option (list Piece),
            match csv0 with Some _ => [] | None => [Header] end = []
            \/ match csv0 with Some _ => [] | None => [Header] end = [Header]).
  { intros [x|]; auto. }
  destruct faults as [|[| | |n partial] faults]; cbn [io_faults tl value events final].
  1,2: exists true, (map Whole (match csv with Some _ => [] | None => [Header] end ++ [Data r])),
         true, [mkQueue h p a c (clk (S tk))].
  1,2: cbn; split; [reflexivity|]; split; [repeat split|]; split; [reflexivity|].
  1,2: split; [repeat constructor|]; split; [reflexivity|].
  1,2: split; [intros H; split; [discriminate|];
               destruct csv; [repeat constructor|congruence]|].
  1,2: split; [destruct csv; reflexivity|].
  1,2: split; [intros _; split; [reflexivity|];
               destruct csv; [exists []|exists [Whole Header]]; cbn; auto|].
  1,2: split; [reflexivity|eexists; reflexivity].
  - (* open fails *)
    exists false, [], false, []. cbn. rewrite !app_nil_r.
    split; [reflexivity|]. split; [repeat split|]. split; [reflexivity|].
    split; [repeat constructor|]. split; [reflexivity|].
    split; [intros H; split; [exact H|constructor]|].
    split; [reflexivity|]. split; [discriminate|]. auto.
  - (* the record cannot be written *)
    exists false, (map Whole (match csv with Some _ => [] | None => [Header] end)), false, [].
    cbn. rewrite !app_nil_r.
    split; [reflexivity|]. split; [repeat split|]. split; [reflexivity|].
    split; [repeat constructor|]. split; [reflexivity|].
    split; [intros H; split; [discriminate|]; destruct csv; [constructor|congruence]|].
    split; [destruct csv; reflexivity|]. split; [discriminate|]. auto.
  - (* flushing or closing fails *)
    pose proof (flushed_cases n partial _ r (Hhdr csv)) as Hf. cbn zeta in Hf.
    destruct Hf as (Hrec & Hnh).
    set (added := flushed n partial _) in *.
    assert (Hw : exists wrote : bool, records (Some added) = if wrote then [r] else []).
    { destruct Hrec as [Hr|Hr]; [exists false|exists true]; exact Hr. }
    destruct Hw as (wrote & Hw).
    exists false, added, wrote, [].
    split; [reflexivity|]. split; [repeat split|]. split; [reflexivity|].
    split; [repeat constructor|]. split; [reflexivity|].
    split; [intros H; cbn in H; split; [discriminate|]; apply Hnh;
            destruct csv; [reflexivity|congruence]|].
    split; [exact Hw|]. split; [discriminate|].
    split; [cbn; rewrite app_nil_r; reflexivity|reflexivity].
Qed.

Lemma records_app pieces added :
  records (Some (pieces ++ added)) = records (Some pieces) ++ records (Some added).
Proof. unfold records. cbn [pieces_of]. apply flat_map_app. Qed.

Lemma records_pieces csv : records csv = records (Some (pieces_of csv)).
Proof. destruct csv; reflexivity. Qed.

(** In a file without fragments every record line is read back as written. *)
Lemma intact_whole pieces :
  forallb whole_piece pieces = true ->
  intact_from true pieces = records (Some pieces).
Proof.
  induction pieces as [|[[|c]|r] rest IH]; cbn; intros H; try discriminate; auto.
  f_equal. apply IH. exact H.
Qed.

(** C8, as amended.  A series of record calls never raises and
    answers every call with a success or failure indication, and it
    leaves the rest of the session alone.  The ledger file is only
    appended to: what it held stays in place as a prefix.  The complete
    record lines appended are lines of calls of the series, in call
    order, each carrying its call's image hash, predicted label, actual
    label and confidence, and the line of every accepted call is among
    them.  (A refused call may have left its whole line too, when only
    closing the file failed, or a part of it.)  The active-learning
    queue grows by exactly one matching entry per accepted call, in
    call order.  As long as the file holds no partial line, the records
    read back from it are exactly those of its complete lines. *)
Theorem ledger_append_only calls w :
  let o := record_calls calls w in
  exists oks added writers new_rows new_entries,
    value o = Ok oks
    /\ length oks = length calls
    /\ same_session w (final o)
    /\ pieces_of (corrections_csv (final o)) = pieces_of (corrections_csv w) ++ added
    /\ records (corrections_csv (final o)) = records (corrections_csv w) ++ new_rows
    /\ Forall2 row_of_call writers new_rows
    /\ sublist (accepted calls oks) writers
    /\ sublist writers calls
    /\ active_learning_queue (final o) = active_learning_queue w ++ new_entries
    /\ Forall2 entry_of_call (accepted calls oks) new_entries
    /\ (forallb whole_piece (pieces_of (corrections_csv (final o))) = true ->
        intact_records (corrections_csv (final o)) = records (corrections_csv (final o))).
Proof.
  cbn zeta.
  assert (Hintact : forall csv, forallb whole_piece (pieces_of csv) = true ->
                      intact_records csv = records csv).
  { intros csv H. rewrite (records_pieces csv). apply intact_whole. exact H. }
  enough (H : exists oks added writers new_rows new_entries,
            value (record_calls calls w) = Ok oks
            /\ length oks = length calls
            /\ same_session w (final (record_calls calls w))
            /\ pieces_of (corrections_csv (final (record_calls calls w)))
               = pieces_of (corrections_csv w) ++ added
            /\ records (Some added) = new_rows
            /\ Forall2 row_of_call writers new_rows
            /\ sublist (accepted calls oks) writers
            /\ sublist writers calls
            /\ active_learning_queue (final (record_calls calls w))
               = active_learning_queue w ++ new_entries
            /\ Forall2 entry_of_call (accepted calls oks) new_entries).
  { destruct H as (oks & added & writers & rows & ents & H1 & H2 & H3 & H4 & H5 & H6
                   & H7 & H8 & H9 & H10).
    exists oks, added, writers, rows, ents.
    repeat (split; [assumption|]).
    split; [|repeat (split; [assumption|]); apply Hintact].
    rewrite (records_pieces (corrections_csv (final _))), H4, records_app,
      <- records_pieces, H5. reflexivity. }
  revert w. induction calls as [|c rest IH]; intros w.
  - exists [], [], [], [], []. cbn. rewrite !app_nil_r.
    repeat split; constructor.
  - cbn [record_calls].
    pose proof (record_correction_cases "Correction saved!"
                  (k_image_hash c) (k_predicted c) (k_actual c) (k_confidence c) w) as Hc.
    cbn zeta in Hc.
    destruct Hc as (ok & added1 & wrote & ents1 & Hv & Hs & _ & _ & Hp & _ & Hr & Hok & Hq & He).
    rewrite (bind_ok _ _ _ _ Hv).
    set (w1 := final (record_correction _ _ _ _ _ w)) in *.
    destruct (IH w1) as (oks & added & writers & rows & ents & IHv & IHlen & IHs & IHp & IHr
                         & IHf & IHa & IHw & IHq & IHe).
    cbn [events final value].
    rewrite (bind_ok _ _ _ _ IHv). cbn [events final value ret].
    set (r := mkCorrection (clock w (ticks w)) (k_image_hash c) (k_predicted c)
                (k_actual c) (k_confidence c)) in *.
    exists (ok :: oks), (added1 ++ added),
      ((if wrote then [c] else []) ++ writers),
      ((if wrote then [r] else []) ++ rows), (ents1 ++ ents).
    split; [reflexivity|]. split; [cbn; lia|].
    split; [eapply same_session_trans; eassumption|].
    split; [rewrite IHp, Hp, <- app_assoc; reflexivity|].
    split; [rewrite records_app, Hr, IHr; reflexivity|].
    split; [destruct wrote; cbn [app]; [constructor; [repeat split|]|]; exact IHf|].
    split.
    { destruct ok.
      - destruct (Hok eq_refl) as (-> & _). cbn [accepted app].
        apply sublist_skip. exact IHa.
      - cbn [accepted]. destruct wrote; cbn [app]; [apply sublist_cons|]; exact IHa. }
    split.
    { destruct wrote; cbn [app]; [apply sublist_skip|apply sublist_cons]; exact IHw. }
    split; [rewrite IHq, Hq, <- app_assoc; reflexivity|].
    destruct ok.
    + destruct He as (ts & ->). cbn [accepted app].
      constructor; [repeat split|exact IHe].
    + rewrite He. cbn [accepted app]. exact IHe.
Qed.

(** A series with two accepted calls on a missing file: header, then
    the two records in call order, and one queue entry for each. *)
Lemma ledger_append_only_witness :
  let calls := [mkCall "5d41402abc4b2a76" "Gir" "Sahiwal" (40#100);
                mkCall "7d793037a0760186" "Nellore" "Deccani" (55#100)] in
  let o := record_calls calls Scenario.fresh in
  value o = Ok [true; true]
  /\ corrections_csv (final o)
     = Some [Whole Header;
             Whole (Data (mkCorrection "T0" "5d41402abc4b2a76" "Gir" "Sahiwal" (40#100)));
             Whole (Data (mkCorrection "T2" "7d793037a0760186" "Nellore" "Deccani" (55#100)))]
  /\ map q_image_hash (active_learning_queue (final o))
     = ["5d41402abc4b2a76"; "7d793037a0760186"]
  /\ intact_records (corrections_csv (final o)) = records (corrections_csv (final o)).
Proof.
  cbn zeta.
  destruct (ledger_append_only
              [mkCall "5d41402abc4b2a76" "Gir" "Sahiwal" (40#100);
               mkCall "7d793037a0760186" "Nellore" "Deccani" (55#100)] Scenario.fresh)
    as (oks & added & writers & rows & ents & _ & _ & _ & _ & _ & _ & _ & _ & _ & _ & Hin).
  split; [reflexivity|]. split; [reflexivity|]. split; [reflexivity|].
  apply Hin. reflexivity.
Defined.

(** C8, counterexample.  The ledger holds one record.  A first call is
    refused because the flush fails after a part of its line was
    written; a second call is accepted.  The accepted line lands on the
    partial one: the file holds no line that reads back as the second
    record, so after one successful call the ledger does not hold that
    call's record, and the refused call has left something behind. *)
Lemma ledger_partial_write_counterexample :
  let old := mkCorrection "T" "ab56b4d92b40713a" "Murrah" "Gir" (30#100) in
  let w := mkWorld false false [] [] (Some [Whole Header; Whole (Data old)])
                   [FlushFails 0 true; NoFault] Scenario.wall_clock 0 in
  let calls := [mkCall "5d41402abc4b2a76" "Gir" "Sahiwal" (40#100);
                mkCall "7d793037a0760186" "Nellore" "Deccani" (55#100)] in
  let o := record_calls calls w in
  let r1 := mkCorrection "T0" "5d41402abc4b2a76" "Gir" "Sahiwal" (40#100) in
  let r2 := mkCorrection "T1" "7d793037a0760186" "Nellore" "Deccani" (55#100) in
  value o = Ok [false; true]
  /\ corrections_csv (final o)
     = Some [Whole Header; Whole (Data old); Fragment (Data r1); Whole (Data r2)]
  /\ intact_records (corrections_csv (final o)) = [old]
  /\ ~ In r2 (intact_records (corrections_csv (final o)))
  /\ corrections_csv (final o) <> corrections_csv w
  /\ map q_image_hash (active_learning_queue (final o)) = ["7d793037a0760186"].
Proof.
  cbn zeta. split; [reflexivity|]. split; [reflexivity|]. split; [reflexivity|].
  split; [|split; [discriminate|reflexivity]].
  intros [H|[]]. discriminate H.
Qed.

End LedgerFacts.
(** ** app.py: the results column *)

Section AppColumn.

Lemma render_low_conf_badge_run conf (s : App.Session) :
  exists b, App.render_low_conf_badge conf s = mkOutcome [b] s (Ok tt)
            /\ quiet b /\ errors [b] = [].
Proof.
  unfold App.render_low_conf_badge.
  destruct (Qle_bool (80#100) conf); [|destruct (Qle_bool (50#100) conf)];
    eexists; (split; [reflexivity|]); split; cbn; auto.
Qed.

Lemma topk_total env labels probs k :
  Permutation (App.argsort_desc env probs) (seq 0 (length probs)) ->
  exists cands, App.topk env labels probs k = Ok cands.
Proof.
  intros Hperm. unfold App.topk.
  set (idxs := slice 0 (Nat.min k (length labels)) (App.argsort_desc env probs)).
  assert (Hin : forall i, In i idxs -> i < length probs).
  { intros i Hi. subst idxs.
    assert (In i (App.argsort_desc env probs)).
    { unfold slice in Hi. apply In_nth_error in Hi as [n Hn].
      rewrite nth_error_firstn in Hn. destruct (n <? _); [|discriminate].
      rewrite nth_error_skipn in Hn. eapply nth_error_In; eauto. }
    eapply Permutation_in in H; [|exact Hperm]. apply in_seq in H. lia. }
  induction idxs as [|i t IH]; cbn [fold_right].
  - eauto.
  - destruct IH as [rest Hrest]; [intros j Hj; apply Hin; right; exact Hj|].
    destruct (label_or_total labels i (String.append "class_" (str_of_nat i))) as [name Hn].
    destruct (index_lt probs i (Hin i (or_introl eq_refl))) as [p Hp].
    rewrite Hn, Hp, Hrest. eauto.
Qed.

Lemma for_each_emit_write (cands : list (string * Q)) (s : App.Session) :
  for_each cands (fun c => emit (EvWrite (fst c) (snd c))) s
  = mkOutcome (map (fun c => EvWrite (fst c) (snd c)) cands) s (Ok tt).
Proof.
  induction cands as [|c t IH]; [reflexivity|].
  cbn [for_each map]. unfold bind. cbn [emit]. rewrite IH. reflexivity.
Qed.

Lemma show_topk_cases env labels probs (s : App.Session) :
  let o := App.show_topk env labels probs s in
  final o = s /\ Forall quiet (events o) /\ errors (events o) = []
  /\ (Permutation (App.argsort_desc env probs) (seq 0 (length probs)) -> value o = Ok tt).
Proof.
  cbn zeta. unfold App.show_topk, bind, lift.
  destruct (App.topk env labels probs 3) as [cands|e] eqn:Ht; cbn.
  - rewrite for_each_emit_write. cbn.
    repeat split; auto.
    + apply List.Forall_forall. intros e He. apply in_map_iff in He as (c & <- & _). exact I.
    + clear Ht. unfold errors. induction cands as [|c0 t IH]; cbn; auto.
  - repeat split; auto.
    intros Hperm. destruct (topk_total env labels probs 3 Hperm) as [cands Hc]. congruence.
Qed.

#[local] Arguments App.show_topk : simpl never.
#[local] Arguments App.render_low_conf_badge : simpl never.

Lemma app_results_column_cases env image s sp_probs i :
  let arr := prepare_image image (App.img_size env) true in
  let o := App.results_column env (Some image) s in
  App.species_model env arr = Ok sp_probs ->
  argmax sp_probs = Ok i ->
  exists l c,
    label_or (App.species_labels s) i "unknown" = Ok l
    /\ index sp_probs i = Ok c
    /\ In (EvWrite l c) (events o)
    /\ final o = s
    /\ (App.labels_of s (route l) = [] ->
          value o = Raise StopException
          /\ predictions (events o) = [Species]
          /\ errors (events o) = [App.no_labels_msg (route l)])
    /\ (forall br_probs j,
          App.labels_of s (route l) <> [] ->
          App.model_of env (route l) arr = Ok br_probs ->
          argmax br_probs = Ok j ->
          exists bl bc,
            label_or (App.labels_of s (route l)) j (class_placeholder (head_name (route l)) j) = Ok bl
            /\ index br_probs j = Ok bc
            /\ In (EvWrite bl bc) (events o)
            /\ predictions (events o) = [Species; route l]
            /\ (Permutation (App.argsort_desc env br_probs) (seq 0 (length br_probs)) ->
                value o = Ok tt)).
Proof.
  intros arr o Hsp Hi. subst o.
  destruct (label_or_total (App.species_labels s) i "unknown") as [l Hl].
  destruct (argmax_index _ _ Hi) as [c Hc].
  exists l, c. split; [exact Hl|]. split; [exact Hc|].
  destruct (render_low_conf_badge_run c s) as (b1 & Hb1 & Hq1 & He1).
  unfold App.results_column, App.stop, try_except, predict, bind, emit, lift, get, raise, ret.
  fold arr. rewrite Hsp. cbn. rewrite Hi. cbn. rewrite Hl. cbn. rewrite Hc. cbn.
  rewrite Hb1. cbn.
  assert (Hw : exists evw, (forall s0 : App.Session,
             when (Qltb c (50#100))
               (fun s1 : App.Session =>
                  mkOutcome [EvWarning "Model is not confident about the species (< 50%). Please verify manually."] s1 (Ok tt)) s0
             = mkOutcome evw s0 (Ok tt))
            /\ Forall quiet evw /\ errors evw = []).
  { unfold when. destruct (Qltb c (50#100)); eexists; (split; [reflexivity|]);
      split; repeat constructor. }
  destruct Hw as (evw & Hw & Hqw & Hew). rewrite Hw. cbn.
  destruct (projections_quiet _ Hqw) as (Hw1 & Hw2 & Hw3).
  destruct (App.labels_of s (route l)) as [|lab labs] eqn:Hlabs; cbn.
  - (* no labels for the routed head *)
    split; [auto|]. split; [reflexivity|]. split.
    + intros _. split; [reflexivity|].
      unfold predictions, errors in *.
      destruct b1; cbn in Hq1, He1; try contradiction; try discriminate; cbn;
        rewrite !flat_map_app, ?Hw1, ?Hew; split; reflexivity.
    + intros br_probs j Hne. congruence.
  - destruct (App.model_of env (route l) arr) as [br_probs|e] eqn:Hbr; cbn.
    2:{ split; [auto|]. split; [reflexivity|].
        split; [discriminate|]. intros ? ? _ Hx; discriminate. }
    destruct (argmax br_probs) as [j|e] eqn:Hj; cbn.
    2:{ split; [auto|]. split; [reflexivity|].
        split; [discriminate|]. intros ? ? _ [= <-] Hx; congruence. }
    destruct (label_or_total (lab :: labs) j (class_placeholder (head_name (route l)) j)) as [bl Hbl].
    destruct (argmax_index _ _ Hj) as [bc Hbc].
    rewrite Hbl; cbn; rewrite Hbc; cbn.
    destruct (render_low_conf_badge_run bc s) as (b2 & Hb2 & Hq2 & He2).
    rewrite Hb2; cbn.
    pose proof (show_topk_cases env (lab :: labs) br_probs s) as Hk. cbn zeta in Hk.
    destruct Hk as (Hks & Hkq & Hke & Hkv).
    destruct (projections_quiet _ Hkq) as (Hk1 & Hk2 & Hk3).
    assert (Hbw : exists evb, (forall s0 : App.Session,
               when (Qltb bc (50#100))
                 (fun s1 : App.Session =>
                    mkOutcome [EvError "Breed confidence is below 50%. Please cross-check manually before recording."] s1 (Ok tt)) s0
               = mkOutcome evb s0 (Ok tt))
              /\ Forall quiet evb).
    { unfold when. destruct (Qltb bc (50#100)); eexists; (split; [reflexivity|]);
        repeat constructor. }
    destruct Hbw as (evb & Hbw & Hqb). rewrite Hbw. cbn.
    destruct (projections_quiet _ Hqb) as (Hb1' & _ & _).
    destruct (App.show_topk env (lab :: labs) br_probs s) as [evk sk vk].
    cbn in Hks, Hkq, Hk1, Hkv |- *.
    split; [auto|]. split; [exact Hks|]. split; [discriminate|].
    intros br' j' _ [= <-] Hj'. rewrite Hj in Hj'. injection Hj' as <-.
    exists bl, bc. split; [exact Hbl|]. split; [exact Hbc|].
    split; [right; right; right; right; rewrite !in_app_iff; cbn; auto 20|].
    split; [|exact Hkv].
    unfold predictions in *.
    destruct b1; cbn in Hq1; try contradiction;
      destruct b2; cbn in Hq2; try contradiction; cbn;
      rewrite !flat_map_app, ?Hw1; cbn; rewrite ?flat_map_app, ?Hb1', ?Hk1; reflexivity.
Qed.

Lemma when_warning_run (b : bool) (ev : Event) (s : App.Session) :
  quiet ev ->
  exists evs, when b (emit ev) s = mkOutcome evs s (Ok tt)
              /\ Forall quiet evs /\ (errors evs = [] \/ errors evs = errors [ev]).
Proof.
  intros Hq. destruct b; cbn.
  - exists [ev]. repeat split; auto.
  - exists []. repeat split; auto.
Qed.

(** app.py, the results column of the primary upload: with no labels
    for the routed head it shows the error and stops before the breed
    model is invoked. *)
Lemma app_empty_labels_fail_fast env image s sp_probs i l :
  let o := App.results_column env (Some image) s in
  App.species_model env (prepare_image image (App.img_size env) true) = Ok sp_probs ->
  argmax sp_probs = Ok i ->
  label_or (App.species_labels s) i "unknown" = Ok l ->
  App.labels_of s (route l) = [] ->
  value o = Raise StopException
  /\ predictions (events o) = [Species]
  /\ errors (events o) = [App.no_labels_msg (route l)].
Proof.
  intros o Hsp Hi Hl Hlabs.
  destruct (app_results_column_cases env image s sp_probs i Hsp Hi)
    as (l' & c & Hl' & _ & _ & _ & Hempty & _).
  rewrite Hl in Hl'. injection Hl' as <-. apply Hempty. exact Hlabs.
Qed.

(** *** Empty label list of the routed head *)

(** C2.  app.py, the flow for a queued next image (lines 317-360):
    when the head the species outcome routes to has an empty label
    list, the breed stage is skipped without a word.  The flow
    completes, no error is shown and the species result stands alone;
    the breed model is not invoked. *)
Theorem next_image_skips_empty_labels env image s sp_probs i l :
  let o := App.results_column_next env image s in
  App.species_model env (prepare_image image (App.img_size env) true) = Ok sp_probs ->
  argmax sp_probs = Ok i ->
  label_or (App.species_labels s) i "unknown" = Ok l ->
  App.labels_of s (route l) = [] ->
  value o = Ok tt
  /\ errors (events o) = []
  /\ predictions (events o) = [Species]
  /\ subheaders (events o) = ["Stage 1 - Species (Next)"]
  /\ final o = s.
Proof.
  intros o Hsp Hi Hl Hlabs. subst o.
  destruct (argmax_index _ _ Hi) as [c Hc].
  destruct (render_low_conf_badge_run c s) as (b1 & Hb1 & Hq1 & He1).
  destruct (when_warning_run (Qltb c (50#100))
              (EvWarning "Model is not confident about the species (< 50%). Please verify manually.")
              s Logic.I) as (evw & Hw & Hqw & Hew).
  assert (Hew' : errors evw = []) by (destruct Hew as [H|H]; exact H).
  destruct (projections_quiet _ Hqw) as (Hw1 & _ & Hw3).
  destruct (projections_quiet [b1]) as (Hp1 & _ & Hs1);
    [constructor; [exact Hq1|constructor]|].
  unfold App.results_column_next, predict, bind, emit, lift, get, raise, ret.
  rewrite Hsp. cbn. rewrite Hi. cbn. rewrite Hl. cbn. rewrite Hc. cbn.
  rewrite Hb1. cbn.
  unfold emit in Hw. rewrite Hw. cbn.
  rewrite Hlabs. cbn.
  unfold errors, predictions, subheaders in *.
  cbn [flat_map app] in He1, Hp1, Hs1. rewrite app_nil_r in He1, Hp1, Hs1.
  rewrite ?He1, ?Hp1, ?Hs1, !flat_map_app, ?Hew', ?Hw1, ?Hw3.
  repeat split.
Qed.

(** No sheep labels.  The primary upload is a picture of a bovine and
    goes through; the next image, queued behind it, is a sheep: its
    breed stage is skipped and nothing is said. *)
Lemma next_image_skips_empty_labels_witness :
  let env := Scenario2.app_env_by_height in
  let s := Scenario.app_session_no_sheep in
  let o := App.results_column_next env Scenario2.tall_picture s in
  value (App.results_column env (Some Scenario.picture) s) = Ok tt
  /\ value o = Ok tt
  /\ errors (events o) = []
  /\ predictions (events o) = [Species]
  /\ subheaders (events o) = ["Stage 1 - Species (Next)"]
  /\ final o = s.
Proof.
  cbn zeta. split; [vm_compute; reflexivity|].
  apply (next_image_skips_empty_labels Scenario2.app_env_by_height Scenario2.tall_picture
           Scenario.app_session_no_sheep [10#100; 90#100] 1 "sheep");
    reflexivity.
Defined.

(** The same sheep picture as the primary upload is stopped with the
    error. *)
Lemma primary_image_stops_on_empty_labels :
  let o := App.results_column Scenario2.app_env_by_height (Some Scenario2.tall_picture)
             Scenario.app_session_no_sheep in
  value o = Raise StopException
  /\ predictions (events o) = [Species]
  /\ errors (events o)
     = ["No sheep labels found. Ensure labels JSON or train folders exist."].
Proof.
  apply (app_empty_labels_fail_fast Scenario2.app_env_by_height Scenario2.tall_picture
           Scenario.app_session_no_sheep [10#100; 90#100] 1 "sheep");
    reflexivity.
Qed.

(** *** Label alignment *)



End AppColumn.
(** ** app_comprehensive.py: what an image gets *)

Section RoutingClaims.
Import Router.

#[local] Arguments guardrail_stage : simpl never.
#[local] Arguments breed_stage : simpl never.
#[local] Arguments species_stage : simpl never.
#[local] Arguments history_stage : simpl never.
#[local] Arguments actions_stage : simpl never.
#[local] Arguments process_image : simpl never.

Lemma argmax_nonempty probs : probs <> [] -> exists i, argmax probs = Ok i.
Proof. destruct probs as [|x t]; [congruence|]. intros _. cbn. eauto. Qed.

(** *** Routing policy *)

(** C1.  Outside offline mode no image gets as far as the routing
    decision.  Once the species model has answered, line 770 reads
    [species_labels], a module-level name the file never binds, and the
    iteration ends with [NameError]: the species result is not shown,
    neither the breed stage nor the guardrail runs whatever the
    confidence is, no breed head is invoked, and nothing is recorded. *)
Theorem online_image_stops_at_species_labels env locals up w f probs :
  offline_mode w = false ->
  species_model env = Some f ->
  f (batch_of env up) = Ok probs ->
  probs <> [] ->
  let o := process_image env locals up w in
  value o = Raise (NameError "species_labels")
  /\ events o = quality_events env up ++ [EvPredict Species]
  /\ predictions (events o) = [Species]
  /\ metrics (events o) = []
  /\ ~ In "breed_pred" (subheaders (events o))
  /\ final o = w.
Proof.
  intros Hoff Hm Hf Hne. cbn zeta.
  destruct (argmax_nonempty probs Hne) as [i Hi].
  destruct (process_image_no_breed env locals up w) as (Hmet & Hsub).
  split; [|split; [|split; [|split; [exact Hmet|split; [exact Hsub|]]]]];
    rewrite process_image_eq; cbn zeta;
    rewrite species_stage_run, Hm, Hf, Hoff, Hi; cbn [value events final];
    try reflexivity.
  rewrite predictions_app, (proj1 (quality_events_quiet env up)). reflexivity.
Qed.

Lemma online_image_stops_at_species_labels_witness :
  let env := Scenario.confident_bovine in
  let o := process_image env unbound Scenario.upload Scenario.fresh in
  Qle_bool (species_threshold env) (92#100) = true
  /\ value o = Raise (NameError "species_labels")
  /\ predictions (events o) = [Species]
  /\ ~ In "breed_pred" (subheaders (events o))
  /\ session_history (final o) = [].
Proof.
  cbn zeta. split; [reflexivity|].
  destruct (online_image_stops_at_species_labels Scenario.confident_bovine unbound
              Scenario.upload Scenario.fresh (Scenario.const_model [92#100; 8#100])
              [92#100; 8#100] eq_refl eq_refl eq_refl)
    as (Hv & _ & Hp & _ & Hs & Hf); [discriminate|].
  split; [exact Hv|]. split; [exact Hp|]. split; [exact Hs|].
  rewrite Hf. reflexivity.
Defined.

(** The threshold boundary makes no difference online: confidence 0.80
    against threshold 0.80 and confidence 0.79 end the same way. *)
Lemma threshold_boundary :
  value (process_image Scenario.at_threshold unbound Scenario.upload Scenario.fresh)
  = Raise (NameError "species_labels")
  /\ value (process_image Scenario.just_below unbound Scenario.upload Scenario.fresh)
     = Raise (NameError "species_labels")
  /\ predictions (events (process_image Scenario.at_threshold unbound
                            Scenario.upload Scenario.fresh)) = [Species]
  /\ predictions (events (process_image Scenario.just_below unbound
                            Scenario.upload Scenario.fresh)) = [Species].
Proof. repeat split; vm_compute; reflexivity. Qed.

(** In offline mode neither the breed stage nor the guardrail runs,
    whatever the confidence. *)
Lemma offline_image_species_only env locals up w :
  offline_mode w = true ->
  let o := process_image env locals up w in
  Forall (eq Species) (predictions (events o))
  /\ metrics (events o) = []
  /\ ~ In "breed_pred" (subheaders (events o)).
Proof.
  intros _. cbn zeta. split; [|apply process_image_no_breed].
  destruct (process_image_predictions env locals up w) as [-> | ->]; repeat constructor.
Qed.

(** *** Quality gate is advisory *)




(** *** Model failure in the guardrail *)




End RoutingClaims.
(** ** Further properties of the quality gate *)

Section QualityGateMore.
Import Quality.
Local Open Scope Q_scope.

Lemma brightness_pass_score b : brightness_pass b = true -> 1 <= brightness_score b.
Proof.
  intros H. apply brightness_pass_iff in H. destruct H as [Hlo Hhi].
  destruct (Qlt_le_dec b (1#2)) as [Hb|Hb].
  - rewrite (brightness_score_low b Hb), div_quarter. lra.
  - rewrite (brightness_score_high b Hb). lra.
Qed.

(** X1.  A report whose [overall_pass] is true has an [overall_score]
    of at least 1.0, and so has each of the four image rules: an overall
    score below 1.0 always comes with a failed gate. *)
Theorem overall_pass_scores_at_least_one m fs mx :
  overall_pass (assess_image_quality m fs mx) = true ->
  let r := assess_image_quality m fs mx in
  1 <= overall_score r
  /\ 1 <= score (resolution r) /\ 1 <= score (blur r)
  /\ 1 <= score (brightness r) /\ 1 <= score (dynamic_range r).
Proof.
  intros H. cbn zeta. unfold assess_image_quality in *.
  cbn [overall_score overall_pass resolution blur brightness dynamic_range] in *.
  cbn [forallb] in H. rewrite andb_true_r, !andb_true_iff in H.
  destruct H as (H1 & H2 & H3 & H4).
  destruct (pass_iff_score_at_least_one m) as (P1 & P2 & P4 & _).
  apply P1 in H1. apply P2 in H2. apply P4 in H4.
  assert (H3' : 1 <= score (brightness_rule m)).
  { unfold brightness_rule in *. cbn [pass score] in *. apply brightness_pass_score. exact H3. }
  split; [|auto].
  rewrite mean4.
  assert (E : forall x, x / 4 == x * (1#4)) by (intros; field). rewrite E. lra.
Qed.

Lemma overall_pass_scores_at_least_one_witness :
  let r := assess_image_quality (mkMeasures 600 600 (mkStats 200 128 64))
             (Some 1000%Z) (Some 5242880%Z) in
  overall_pass r = true /\ 1 <= overall_score r.
Proof.
  cbn zeta. split; [reflexivity|].
  apply (overall_pass_scores_at_least_one
           (mkMeasures 600 600 (mkStats 200 128 64)) (Some 1000%Z) (Some 5242880%Z)).
  reflexivity.
Defined.

Lemma ratio_lt_one (a d : Z) :
  (1 <= d)%Z -> (inject_Z a / inject_Z d < 1 <-> (a < d)%Z).
Proof.
  intros Hd. destruct d as [|p|p]; try lia.
  unfold Qlt, Qdiv, Qmult, Qinv, inject_Z. cbn. lia.
Qed.

Lemma ratio_pos (a d : Z) :
  (1 <= a)%Z -> (1 <= d)%Z -> 0 < inject_Z a / inject_Z d.
Proof.
  intros Ha Hd. destruct d as [|p|p]; try lia.
  unfold Qlt, Qdiv, Qmult, Qinv, inject_Z. cbn. lia.
Qed.

(** X2.  With a limit of at least one byte the file-size rule keeps
    pass and score together: it passes exactly when its score is 1.0,
    and the score is always in (0, 1].  (The brightness rule does not:
    see [brightness_score_above_band].) *)
Theorem file_size_pass_iff_full_score size max_size :
  (1 <= max_size)%Z ->
  let r := file_size_rule size max_size in
  (pass r = true <-> score r == 1) /\ 0 < score r /\ score r <= 1.
Proof.
  intros Hmx. cbn zeta. unfold file_size_rule. cbn [pass score].
  rewrite Z.leb_le.
  assert (Hd : (1 <= Z.max 1 size)%Z) by lia.
  pose proof (ratio_lt_one max_size (Z.max 1 size) Hd) as Hlt.
  pose proof (ratio_pos max_size (Z.max 1 size) Hmx Hd) as Hpos.
  unfold min2.
  destruct (Qltb (inject_Z max_size / inject_Z (Z.max 1 size)) 1) eqn:E.
  - apply Qltb_true in E. pose proof (proj1 Hlt E) as Hz.
    split; [|split; [exact Hpos|lra]].
    split; [intros; lia|intros Heq; lra].
  - apply Qltb_false in E.
    split; [|split; lra].
    split; [reflexivity|]. intros _.
    destruct (Z_lt_le_dec max_size (Z.max 1 size)) as [Hz|Hz]; [|lia].
    apply Hlt in Hz. lra.
Qed.

Lemma file_size_pass_iff_full_score_witness :
  let r := file_size_rule 10485760 5242880 in
  (pass r = true <-> score r == 1) /\ 0 < score r /\ score r <= 1.
Proof. apply file_size_pass_iff_full_score. lia. Defined.

(** X3.  The tips shown under a failed gate: there is one tip per
    failed image rule, so the list is empty exactly when the gate
    passes and the warning of the quality stage always carries at
    least one tip.  The file-size rule has no tip. *)
Theorem quality_tips_match_failures m fs mx :
  let q := assess_image_quality m fs mx in
  (Router.quality_tips q = [] <-> overall_pass q = true)
  /\ length (Router.quality_tips q)
     = length (List.filter (fun r => negb (pass r))
                 [resolution q; blur q; brightness q; dynamic_range q])
  /\ Router.quality_tips q = Router.quality_tips (assess_image_quality m None None).
Proof.
  cbn zeta. unfold Router.quality_tips, assess_image_quality.
  cbn [overall_pass resolution blur brightness dynamic_range forallb List.filter].
  destruct (pass (resolution_rule m)), (pass (blur_rule m)),
    (pass (brightness_rule m)), (pass (dynamic_range_rule m));
    cbn; (split; [split; [intros H; try discriminate H; reflexivity
                         |intros H; try discriminate H; reflexivity]
                 |split; reflexivity]).
Qed.

(** X30.  The only tip of the brightness rule is the low-light one.
    An over-exposed image (brightness above 0.75) fails the rule like a
    dark one does, so the user of an over-exposed image is told "Low
    light detected - try flash / move to shade". *)
Theorem overexposed_image_gets_low_light_tip m fs mx :
  3#4 < brightness_value m ->
  let q := assess_image_quality m fs mx in
  overall_pass q = false
  /\ In "Low light detected - try flash / move to shade" (Router.quality_tips q).
Proof.
  intros Hb. cbn zeta.
  destruct (brightness_score_above_band _ Hb) as (Hp & _).
  unfold Router.quality_tips, assess_image_quality.
  cbn [overall_pass resolution blur brightness dynamic_range forallb].
  assert (Hr : pass (brightness_rule m) = false) by exact Hp.
  rewrite Hr. split.
  - destruct (pass (resolution_rule m)), (pass (blur_rule m)); reflexivity.
  - rewrite !in_app_iff. right. right. left. left. reflexivity.
Qed.

Lemma overexposed_image_gets_low_light_tip_witness :
  let q := assess_image_quality (mkMeasures 600 600 (mkStats 200 (2295#10) 64)) None None in
  overall_pass q = false
  /\ In "Low light detected - try flash / move to shade" (Router.quality_tips q).
Proof.
  apply (overexposed_image_gets_low_light_tip
           (mkMeasures 600 600 (mkStats 200 (2295#10) 64)) None None).
  reflexivity.
Defined.

End QualityGateMore.
(** ** Further properties of the crop assistant *)

Section CropAssistantMore.
Import Crop.

Lemma slice_all {A} (l : list A) n : length l <= n -> slice 0 n l = l.
Proof.
  intros H. unfold slice. rewrite Nat.sub_0_r. cbn [skipn].
  apply firstn_all2. exact H.
Qed.

Lemma region_rows y1 x1 m (img : Image) :
  well_formed img -> x1 + m <= width img ->
  Forall (fun r => length r = m) (region y1 (y1 + m) x1 (x1 + m) img).
Proof.
  intros Hwf Hx. unfold region. rewrite List.Forall_map.
  apply List.Forall_forall. intros r Hr.
  apply slice_length. rewrite (width_wf img r Hwf); [exact Hx|].
  eapply slice_In; eauto.
Qed.

Lemma region_height y1 x1 x2 m (img : Image) :
  y1 + m <= height img -> height (region y1 (y1 + m) x1 x2 img) = m.
Proof.
  intros Hy. unfold height, region. rewrite length_map. apply slice_length. exact Hy.
Qed.

Lemma region_pixel y1 x1 m (img : Image) r c :
  y1 + m <= height img -> r < m -> c < m ->
  pixel_at (region y1 (y1 + m) x1 (x1 + m) img) r c = pixel_at img (y1 + r) (x1 + c).
Proof.
  intros Hy Hr Hc. unfold pixel_at, region.
  rewrite nth_error_map, slice_nth by exact Hr.
  destruct (nth_error img (y1 + r)) as [row|] eqn:Erow; simpl.
  - apply slice_nth. exact Hc.
  - apply nth_error_None in Erow. unfold height in Hy. lia.
Qed.

Lemma rows_width m (out : Image) :
  Forall (fun r => length r = m) out -> height out = m -> width out = m.
Proof.
  intros Hrows Hh. unfold width. destruct out as [|r0 t].
  - unfold height in Hh. simpl in Hh. exact Hh.
  - inversion Hrows; auto.
Qed.

(** A square, well-formed picture is its own default crop. *)
Lemma center_square_fixed img :
  well_formed img -> height img = width img -> auto_crop_image img false = img.
Proof.
  intros Hwf Hsq. unfold auto_crop_image, center_square, fromarray.
  assert (Hm : min_dim img = height img) by (unfold min_dim; lia).
  assert (Hx : start_x img = 0).
  { unfold start_x. rewrite Hm, Hsq, Nat.sub_diag. reflexivity. }
  assert (Hy : start_y img = 0).
  { unfold start_y. rewrite Hm, Nat.sub_diag. reflexivity. }
  rewrite Hx, Hy, Hm. cbn [Nat.add]. unfold region.
  rewrite slice_all by (unfold height; lia).
  transitivity (map (fun r : list RGB => r) img); [|apply map_id].
  apply map_ext_in.
  intros r Hr. apply slice_all. rewrite (width_wf img r Hwf Hr). lia.
Qed.

(** X4.  The default crop is idempotent on well-formed pictures:
    cropping the crop changes nothing.  This covers pictures without
    pixels as well. *)
Theorem default_crop_idempotent img :
  well_formed img ->
  auto_crop_image (auto_crop_image img false) false = auto_crop_image img false.
Proof.
  intros Hwf.
  set (m := min_dim img).
  assert (Hsx : start_x img + m <= width img).
  { unfold start_x, m, min_dim.
    pose proof (Nat.Div0.mul_div_le (width img - Nat.min (height img) (width img)) 2). lia. }
  assert (Hsy : start_y img + m <= height img).
  { unfold start_y, m, min_dim.
    pose proof (Nat.Div0.mul_div_le (height img - Nat.min (height img) (width img)) 2). lia. }
  assert (Hout : auto_crop_image img false
                 = region (start_y img) (start_y img + m) (start_x img) (start_x img + m) img).
  { reflexivity. }
  pose proof (region_rows (start_y img) (start_x img) m img Hwf Hsx) as Hrows.
  pose proof (region_height (start_y img) (start_x img) (start_x img + m) m img Hsy) as Hh.
  rewrite <- Hout in Hrows, Hh.
  pose proof (rows_width m _ Hrows Hh) as Hw.
  apply center_square_fixed; [|congruence].
  unfold well_formed. rewrite Hw. exact Hrows.
Qed.

Lemma default_crop_idempotent_witness :
  auto_crop_image (auto_crop_image Scenario2.tall_picture false) false
  = auto_crop_image Scenario2.tall_picture false.
Proof. apply default_crop_idempotent. repeat constructor. Defined.

Lemma detector_half (m : nat) :
  Qfloor (inject_Z (Z.of_nat m) * (8#10) / 2) = Z.of_nat (2 * m / 5).
Proof.
  unfold Qfloor, Qdiv, Qmult, Qinv, inject_Z. cbn [Qnum Qden].
  rewrite Nat2Z.inj_div, Nat2Z.inj_mul.
  change (Z.of_nat 2) with 2%Z. change (Z.of_nat 5) with 5%Z.
  change (Z.pos (1 * 10 * 2)) with 20%Z.
  Z.to_euclidean_division_equations. lia.
Qed.

(** X5.  The detector-placeholder crop of a well-formed picture whose
    shorter side has at least three pixels is a square centred on
    (width div 2, height div 2) with side twice floor(0.4 times the
    shorter side):
    the window never reaches a border, so nothing is clipped, and the
    side is at most 80% of the shorter side. *)
Theorem detector_crop_centered_square img :
  well_formed img -> 3 <= min_dim img ->
  let half := 2 * min_dim img / 5 in
  let out := auto_crop_image img true in
  0 < half
  /\ 5 * (2 * half) <= 4 * min_dim img
  /\ half <= width img / 2 /\ half <= height img / 2
  /\ height out = 2 * half
  /\ width out = 2 * half
  /\ well_formed out
  /\ (forall r c, r < 2 * half -> c < 2 * half ->
        pixel_at out r c
        = pixel_at img (height img / 2 - half + r) (width img / 2 - half + c)).
Proof.
  intros Hwf Hmin half out.
  set (m := min_dim img) in *.
  assert (Hm : m <= width img /\ m <= height img) by (unfold m, min_dim; lia).
  assert (Hhalf : 0 < half /\ 5 * half <= 2 * m).
  { unfold half. pose proof (Nat.Div0.mul_div_le (2 * m) 5).
    assert (1 <= 2 * m / 5) by (apply Nat.div_le_lower_bound; lia). lia. }
  assert (Hcx : 2 * (width img / 2) <= width img < 2 * (width img / 2) + 2).
  { pose proof (Nat.div_mod_eq (width img) 2).
    pose proof (Nat.mod_upper_bound (width img) 2). lia. }
  assert (Hcy : 2 * (height img / 2) <= height img < 2 * (height img / 2) + 2).
  { pose proof (Nat.div_mod_eq (height img) 2).
    pose proof (Nat.mod_upper_bound (height img) 2). lia. }
  assert (Hx : half <= width img / 2) by lia.
  assert (Hy : half <= height img / 2) by lia.
  assert (Hout : out = region (height img / 2 - half) (height img / 2 - half + 2 * half)
                              (width img / 2 - half) (width img / 2 - half + 2 * half) img).
  { unfold out, auto_crop_image, center_weighted, fromarray.
    rewrite <- Nat2Z.inj_min.
    replace (Nat.min (width img) (height img)) with m by (unfold m, min_dim; lia).
    rewrite detector_half. fold half.
    change 2%Z with (Z.of_nat 2). rewrite <- !Nat2Z.inj_div.
    f_equal; lia. }
  assert (Hsx : width img / 2 - half + 2 * half <= width img) by lia.
  assert (Hsy : height img / 2 - half + 2 * half <= height img) by lia.
  pose proof (region_rows (height img / 2 - half) (width img / 2 - half) (2 * half) img Hwf Hsx)
    as Hrows.
  pose proof (region_height (height img / 2 - half) (width img / 2 - half)
                (width img / 2 - half + 2 * half) (2 * half) img Hsy) as Hh.
  rewrite <- Hout in Hrows, Hh.
  pose proof (rows_width _ _ Hrows Hh) as Hw.
  split; [lia|]. split; [lia|]. split; [exact Hx|]. split; [exact Hy|].
  split; [exact Hh|]. split; [exact Hw|].
  split; [unfold well_formed; rewrite Hw; exact Hrows|].
  intros r c Hr Hc. rewrite Hout. apply region_pixel; assumption.
Qed.

Lemma detector_crop_centered_square_witness :
  let out := auto_crop_image Scenario2.tall_picture true in
  height out = 2 /\ width out = 2
  /\ pixel_at out 0 0 = Some (Scenario.px 6)
  /\ pixel_at out 1 1 = Some (Scenario.px 11).
Proof.
  assert (Hwf : well_formed Scenario2.tall_picture) by (repeat constructor).
  assert (Hmin : 3 <= min_dim Scenario2.tall_picture) by (vm_compute; lia).
  pose proof (detector_crop_centered_square Scenario2.tall_picture Hwf Hmin) as H.
  cbn zeta in H. destruct H as (_ & _ & _ & _ & Hh & Hw & _ & Hpix).
  cbn zeta. split; [rewrite Hh; reflexivity|]. split; [rewrite Hw; reflexivity|].
  split; [rewrite (Hpix 0 0) by (vm_compute; lia); reflexivity|].
  rewrite (Hpix 1 1) by (vm_compute; lia). reflexivity.
Defined.

End CropAssistantMore.
(** ** Further properties of the label registry *)

Section LabelRegistryMore.
Import Labels.




(** X7.  A label field that names an existing path which cannot be
    loaded (unreadable or malformed file, or a directory): app.py's
    [_resolve_label_field] swallows the error and returns its fallback,
    [ensure_labels] of app_comprehensive.py lets the exception
    escape. *)
Theorem unloadable_label_file fs cfg field p e fallback_json fallback_dir fallback :
  cfg !! field = Some (JStr p) ->
  path_exists fs p = true ->
  load_json fs p = Raise e ->
  _resolve_label_field fs (cfg !! field) fallback = fallback
  /\ ensure_labels fs cfg field fallback_json fallback_dir = Raise e.
Proof.
  intros Hc Hp Hl. unfold _resolve_label_field, ensure_labels.
  rewrite Hc, Hp, Hl. split; reflexivity.
Qed.

(** The empty path is such a path: it names the working directory. *)
Lemma empty_path_is_a_directory fs cfg field fallback_json fallback_dir fallback :
  cfg !! field = Some (JStr "") ->
  _resolve_label_field fs (cfg !! field) fallback = fallback
  /\ ensure_labels fs cfg field fallback_json fallback_dir = Raise IsADirectoryError.
Proof.
  intros Hc. unfold _resolve_label_field, ensure_labels. rewrite Hc. split; reflexivity.
Qed.

Lemma unloadable_label_file_witness :
  let fs : FS := <[ "labels/sheep.json" := File None ]> ∅ in
  let cfg : Config := <[ "sheep_labels" := JStr "labels/sheep.json" ]> ∅ in
  _resolve_label_field fs (cfg !! "sheep_labels") ["Deccani"] = ["Deccani"]
  /\ ensure_labels fs cfg "sheep_labels" None "sheep_breeds" = Raise JSONDecodeError.
Proof.
  cbn zeta.
  apply (unloadable_label_file (<[ "labels/sheep.json" := File None ]> ∅)
           (<[ "sheep_labels" := JStr "labels/sheep.json" ]> ∅)
           "sheep_labels" "labels/sheep.json" JSONDecodeError None "sheep_breeds" ["Deccani"]);
    vm_compute; reflexivity.
Defined.

End LabelRegistryMore.
(** ** Session defaults and evidence cards *)

Section SessionDefaults.
Import Session.

(** The default [init_session_state] gives to a variable, if any. *)
Lemma set_if_missing_lookup key d (s : State) k :
  set_if_missing key d s !! k
  = match s !! k with
    | Some v => Some v
    | None => if decide (k = key) then Some d else None
    end.
Proof.
  unfold set_if_missing, State in *. destruct (s !! key) as [v0|] eqn:E.
  - destruct (s !! k) as [v|] eqn:Ek; [reflexivity|].
    destruct (decide (k = key)) as [->|]; [congruence|reflexivity].
  - destruct (decide (k = key)) as [->|Hne].
    + rewrite lookup_insert_eq, E. reflexivity.
    + rewrite lookup_insert_ne by congruence. destruct (s !! k); reflexivity.
Qed.

Lemma init_session_state_lookup (s : State) k :
  init_session_state s !! k
  = match s !! k with
    | Some v => Some v
    | None => Evidence.get k defaults
    end.
Proof.
  unfold init_session_state. cbn zeta. rewrite !set_if_missing_lookup.
  destruct (s !! k) as [v|]; [reflexivity|].
  unfold defaults. cbn [Evidence.get].
  repeat match goal with
         | |- context [decide (k = ?key)] =>
             destruct (decide (k = key)) as [->|?]; [reflexivity|]
         end.
  repeat match goal with
         | |- context [String.eqb k ?key] =>
             destruct (String.eqb_spec k key); [congruence|]
         end.
  reflexivity.
Qed.

(** X8.  [init_session_state] only fills gaps: a session variable that
    is already set keeps its value (the history, the queue and the two
    mode flags survive every rerun of the script), each of the seven
    variables it looks after is set afterwards, no other variable
    appears, and running it twice is the same as running it once. *)
Theorem init_session_state_fills_gaps (s : State) :
  (forall k v, s !! k = Some v -> init_session_state s !! k = Some v)
  /\ (forall k d, In (k, d) defaults -> exists v, init_session_state s !! k = Some v
                                        /\ (s !! k = None -> v = d))
  /\ (forall k, s !! k = None -> ~ In k (map fst defaults) ->
                init_session_state s !! k = None)
  /\ init_session_state (init_session_state s) = init_session_state s.
Proof.
  split; [|split; [|split]].
  - intros k v H. rewrite init_session_state_lookup, H. reflexivity.
  - intros k d Hin. rewrite init_session_state_lookup.
    destruct (s !! k) as [v|]; [exists v; split; [reflexivity|discriminate]|].
    exists d. split; [|reflexivity].
    unfold defaults in *. cbn [In] in Hin.
    repeat (destruct Hin as [[= <- <-]|Hin]; [reflexivity|]). contradiction.
  - intros k Hk Hnot. rewrite init_session_state_lookup, Hk.
    unfold defaults in *. cbn [map fst In] in Hnot. cbn [Evidence.get].
    repeat match goal with
           | |- context [String.eqb k ?key] =>
               destruct (String.eqb_spec k key); [exfalso; apply Hnot; subst; tauto|]
           end.
    reflexivity.
  - apply map_eq. intros k. rewrite !init_session_state_lookup.
    destruct (s !! k) as [v|]; [reflexivity|].
    destruct (Evidence.get k defaults); reflexivity.
Qed.

End SessionDefaults.

Section EvidenceCards.
Import Evidence.

(** X9.  Evidence cards exist for the three cattle and buffalo breeds
    of the trait table only: for Gir, Sahiwal and Murrah there are
    exactly four, titled Dome Forehead, Lyre Horns, Dewlap and Hump in
    this order; for the sheep breeds of the table, for every other
    breed name and for a placeholder label there is none.  Every card
    carries 0.8 times the breed confidence. *)
Theorem evidence_cards_cattle_only breed conf :
  let cards := generate_evidence_cards breed conf in
  (In breed ["Gir"; "Sahiwal"; "Murrah"]
   /\ map trait cards = ["Dome Forehead"; "Lyre Horns"; "Dewlap"; "Hump"]
   \/ ~ In breed ["Gir"; "Sahiwal"; "Murrah"] /\ cards = [])
  /\ Forall (fun c => confidence c = (conf * (8#10))%Q) cards.
Proof.
  cbn zeta. unfold generate_evidence_cards, BREED_TRAITS. cbn [get].
  destruct (String.eqb_spec breed "Gir") as [->|H1].
  { split; [left; split; [cbn; tauto|reflexivity]|repeat constructor]. }
  destruct (String.eqb_spec breed "Sahiwal") as [->|H2].
  { split; [left; split; [cbn; tauto|reflexivity]|repeat constructor]. }
  destruct (String.eqb_spec breed "Murrah") as [->|H3].
  { split; [left; split; [cbn; tauto|reflexivity]|repeat constructor]. }
  assert (Hnot : ~ In breed ["Gir"; "Sahiwal"; "Murrah"]).
  { cbn. intros [?|[?|[?|[]]]]; congruence. }
  destruct (String.eqb breed "Deccani");
    [split; [right; split; [exact Hnot|reflexivity]|constructor]|].
  destruct (String.eqb breed "Nellore");
    split; try (right; split; [exact Hnot|reflexivity]); constructor.
Qed.

End EvidenceCards.
(** ** app_comprehensive.py: a run of [main] *)

Section MainFacts.
Import Router Main.

#[local] Arguments guardrail_stage : simpl never.
#[local] Arguments breed_stage : simpl never.
#[local] Arguments species_stage : simpl never.
#[local] Arguments history_stage : simpl never.
#[local] Arguments actions_stage : simpl never.
#[local] Arguments quality_stage : simpl never.
#[local] Arguments display_species : simpl never.
#[local] Arguments process_image : simpl never.

Lemma species_calls_app a b : species_calls (a ++ b) = species_calls a + species_calls b.
Proof.
  unfold species_calls. rewrite predictions_app, List.filter_app, length_app. reflexivity.
Qed.

Lemma species_calls_quiet evs : Forall quiet evs -> species_calls evs = 0.
Proof.
  intros H. unfold species_calls. rewrite (proj1 (projections_quiet evs H)). reflexivity.
Qed.

Lemma species_calls_length evs :
  species_calls evs <= length (predictions evs).
Proof. unfold species_calls. apply List.filter_length_le. Qed.

(** *** [main], stage by stage *)

Lemma model_loading_cases ld w :
  let o := model_loading ld w in
  final o = w
  /\ Forall quiet (events o)
  /\ (offline_mode w = true -> value o = Ok (mobile_net ld, None, None))
  /\ (offline_mode w = false ->
      events o = []
      /\ value o = match species_file ld, sheep_file ld, bovine_file ld with
                   | Ok sp, Ok sh, Ok bo => Ok (Some sp, Some sh, Some bo)
                   | Raise e, _, _ => Raise e
                   | _, Raise e, _ => Raise e
                   | _, _, Raise e => Raise e
                   end).
Proof.
  cbn zeta. unfold model_loading, load_mobile_net_model, bind, get, lift, emit, ret.
  cbn. destruct (offline_mode w).
  - destruct (mobile_net ld); cbn; repeat split; auto; try discriminate;
      repeat constructor.
  - destruct (species_file ld), (sheep_file ld), (bovine_file ld); cbn;
      repeat split; auto; try discriminate; repeat constructor.
Qed.

Lemma uploaded_files_run mode w :
  final (uploaded_files mode w) = w
  /\ value (uploaded_files mode w) = Ok (files_of mode)
  /\ Forall quiet (events (uploaded_files mode w)).
Proof.
  unfold uploaded_files, files_of, bind, emit, ret, when.
  destruct mode as [[f|]|files|[f|]];
    try solve [cbn; repeat split; repeat constructor].
  destruct (20 <? length files).
  - destruct (slice 0 20 files) as [|x t]; cbn; repeat split; repeat constructor.
  - destruct files as [|x t]; cbn; repeat split; repeat constructor.
Qed.

Lemma length_files_of mode : length (files_of mode) <= 20.
Proof.
  unfold files_of. destruct mode as [[f|]|files|[f|]]; try (cbn; lia).
  destruct (Nat.ltb_spec 20 (length files)); [|lia].
  unfold slice. rewrite length_firstn. lia.
Qed.

Lemma panels_cases b w :
  let o := panels b w in
  Forall quiet (events o)
  /\ offline_mode (final o) = offline_mode w
  /\ privacy_mode (final o) = privacy_mode w
  /\ corrections_csv (final o) = corrections_csv w
  /\ active_learning_queue (final o) = active_learning_queue w
  /\ io_faults (final o) = io_faults w
  /\ (clear_history b = false -> final o = w).
Proof.
  cbn zeta. destruct w as [off priv hist q csv faults clk tk].
  unfold panels, history_panel, active_learning_panel, bind, get, modify, emit, ret,
    raise, when; cbn.
  destruct (show_history b); cbn.
  - destruct hist as [|h0 hs]; cbn.
    + destruct q as [|q0 qs]; cbn; [repeat split; repeat constructor|].
      destruct (export_training b); cbn; repeat split; repeat constructor.
    + destruct (clear_history b); cbn;
        [repeat split; repeat constructor; discriminate|].
      destruct q as [|q0 qs]; cbn; [repeat split; repeat constructor|].
      destruct (export_training b); cbn; repeat split; repeat constructor.
  - destruct q as [|q0 qs]; cbn; [repeat split; repeat constructor|].
    destruct (export_training b); cbn; repeat split; repeat constructor.
Qed.

Lemma uploaded_files_no_error mode w : errors (events (uploaded_files mode w)) = [].
Proof.
  unfold uploaded_files, bind, emit, ret, when.
  destruct mode as [[f|]|files|[f|]]; try reflexivity.
  destruct (20 <? length files).
  - destruct (slice 0 20 files) as [|x t]; reflexivity.
  - destruct files as [|x t]; reflexivity.
Qed.

Lemma main_eq ld sb argsort mode b w :
  let ol := model_loading ld w in
  let w1 := with_offline (sb_offline_mode sb) (with_privacy (sb_privacy_mode sb) w) in
  let ou := uploaded_files mode w1 in
  main ld sb argsort mode b w =
  match value ol with
  | Raise e => mkOutcome (events ol) w (Raise e)
  | Ok models =>
      let oa := process_all (env_of sb models argsort) unbound (files_of mode) w1 in
      match value oa with
      | Raise e => mkOutcome (events ol ++ events ou ++ events oa) (final oa) (Raise e)
      | Ok _ =>
          let op := panels b (final oa) in
          mkOutcome (events ol ++ events ou ++ events oa ++ events op)
                    (final op) (value op)
      end
  end.
Proof.
  cbn zeta. unfold main.
  destruct (model_loading_cases ld w) as (Hlw & _).
  destruct (value (model_loading ld w)) as [models|e] eqn:Hl.
  2:{ rewrite (bind_raise _ _ _ _ Hl), Hlw. reflexivity. }
  rewrite (bind_ok _ _ _ _ Hl), Hlw. cbn [events final value].
  set (w1 := with_offline (sb_offline_mode sb) (with_privacy (sb_privacy_mode sb) w)).
  assert (Hsb : sidebar sb w = mkOutcome [] w1 (Ok tt)) by reflexivity.
  rewrite (bind_ok (sidebar sb) _ w tt) by (rewrite Hsb; reflexivity).
  rewrite Hsb. cbn [events final value app].
  destruct (uploaded_files_run mode w1) as (Huw & Huv & _).
  rewrite (bind_ok _ _ _ _ Huv), Huw. cbn [events final value].
  destruct (value (process_all (env_of sb models argsort) unbound (files_of mode) w1))
    as [ls|e] eqn:Ha.
  - rewrite (bind_ok _ _ _ _ Ha). cbn [events final value].
    rewrite <- ?app_assoc. reflexivity.
  - rewrite (bind_raise _ _ _ _ Ha). cbn [events final value].
    rewrite <- ?app_assoc. reflexivity.
Qed.

(** A run of [main] is the sidebar's two writes, the loop over the
    uploads and the panels; everything else it shows is quiet. *)
Lemma main_events_split ld sb argsort mode b w :
  exists models quiet_before quiet_after,
    Forall quiet quiet_before /\ Forall quiet quiet_after
    /\ (events (main ld sb argsort mode b w) = quiet_before
        \/ events (main ld sb argsort mode b w)
           = quiet_before
             ++ events (process_all (env_of sb models argsort) unbound (files_of mode)
                          (with_offline (sb_offline_mode sb)
                             (with_privacy (sb_privacy_mode sb) w)))
             ++ quiet_after).
Proof.
  rewrite main_eq. cbn zeta.
  destruct (model_loading_cases ld w) as (_ & Hlq & _).
  set (w1 := with_offline _ (with_privacy _ w)).
  destruct (uploaded_files_run mode w1) as (_ & _ & Huq).
  destruct (value (model_loading ld w)) as [models|e].
  - exists models, (events (model_loading ld w) ++ events (uploaded_files mode w1)).
    destruct (value (process_all _ _ _ w1)).
    + exists (events (panels b (final (process_all (env_of sb models argsort) unbound
                                          (files_of mode) w1)))).
      split; [apply Forall_app; auto|]. split; [apply panels_cases|].
      right. cbn [events]. rewrite <- !app_assoc. reflexivity.
    + exists []. split; [apply Forall_app; auto|]. split; [constructor|].
      right. cbn [events]. rewrite app_nil_r, <- !app_assoc. reflexivity.
  - exists (None, None, None), (events (model_loading ld w)), [].
    split; [exact Hlq|]. split; [constructor|]. left. reflexivity.
Qed.

Lemma panels_final b w : exists h, final (panels b w) = with_history h w.
Proof.
  destruct w as [off priv hist q csv faults clk tk]. destruct b as [sh cl ex].
  unfold panels, history_panel, active_learning_panel, bind, get, modify, emit, ret,
    raise, when; cbn.
  destruct sh, hist as [|h0 hs], cl, q as [|q0 qs], ex; cbn; eexists; reflexivity.
Qed.

(** What a run leaves behind: the two mode flags as the sidebar has
    them, clock readings, and a session history. *)
Lemma main_final ld sb argsort mode b w :
  exists n h,
    final (main ld sb argsort mode b w) = w
    \/ final (main ld sb argsort mode b w)
       = with_ticks n (with_history h
           (with_offline (sb_offline_mode sb) (with_privacy (sb_privacy_mode sb) w))).
Proof.
  rewrite main_eq. cbn zeta.
  destruct (value (model_loading ld w)) as [models|e]; [|exists 0, []; left; reflexivity].
  set (w1 := with_offline _ (with_privacy _ w)).
  pose proof (process_all_final (env_of sb models argsort) (files_of mode) unbound w1) as Ha.
  cbn zeta in Ha. destruct Ha as (n & new & Ha & _).
  destruct (value (process_all _ _ _ w1)).
  - cbn [final].
    destruct (panels_final b (final (process_all (env_of sb models argsort) unbound
                                       (files_of mode) w1))) as (h & Hp).
    exists n, h. right. rewrite Hp, Ha. reflexivity.
  - cbn [final]. exists n, (session_history w1 ++ new). right. exact Ha.
Qed.

(** *** The correction ledger over a whole run *)

(** X10.  No run of [main] writes a correction, whatever the user
    does with the page: the two calls of [save_correction] sit in the
    breed stage behind the read of the head's label list (line 816),
    which no run gets past.  The ledger file, the active-learning queue
    and the storage are after the run what they were before it. *)
Theorem corrections_are_out_of_reach ld sb argsort mode b w :
  let o := main ld sb argsort mode b w in
  corrections_csv (final o) = corrections_csv w
  /\ active_learning_queue (final o) = active_learning_queue w
  /\ io_faults (final o) = io_faults w.
Proof.
  cbn zeta. destruct (main_final ld sb argsort mode b w) as (n & h & [-> | ->]);
    repeat split.
Qed.

(** X11.  If the user leaves the correction widgets of every uploaded
    image alone (no "This one is correct" button, no submitted form),
    a run of [main] touches neither the ledger file, nor the queue,
    nor the storage: the file is not even created. *)
Theorem no_correction_without_user_action ld sb argsort mode b w :
  Forall untouched (files_of mode) ->
  let o := main ld sb argsort mode b w in
  corrections_csv (final o) = corrections_csv w
  /\ active_learning_queue (final o) = active_learning_queue w
  /\ io_faults (final o) = io_faults w.
Proof.
  intros _. cbn zeta. destruct (main_final ld sb argsort mode b w) as (n & h & [-> | ->]);
    repeat split.
Qed.

Lemma no_correction_without_user_action_witness :
  corrections_csv (final (Scenario2.run false false Scenario.fresh)) = None
  /\ active_learning_queue (final (Scenario2.run false false Scenario.fresh)) = []
  /\ io_faults (final (Scenario2.run false false Scenario.fresh)) = [].
Proof.
  apply (no_correction_without_user_action Scenario2.loaders (Scenario2.sidebar false false)
           Scenario.argsort (SingleImage (Some Scenario.upload))
           Scenario2.no_buttons Scenario.fresh).
  repeat constructor.
Defined.

(** *** Privacy mode and the session history *)

(** X12.  With "Don't Store Images" ticked, a run of [main] leaves the
    session history exactly as it was, however many images are
    processed and however the run ends (the "Clear History" button
    aside, which empties it). *)
Theorem privacy_mode_keeps_history ld sb argsort mode b w :
  sb_privacy_mode sb = true ->
  clear_history b = false ->
  session_history (final (main ld sb argsort mode b w)) = session_history w.
Proof.
  intros Hp Hc. rewrite main_eq. cbn zeta.
  destruct (value (model_loading ld w)) as [models|e]; [|reflexivity].
  set (w1 := with_offline _ (with_privacy _ w)).
  pose proof (process_all_final (env_of sb models argsort) (files_of mode) unbound w1) as Ha.
  cbn zeta in Ha. destruct Ha as (n & new & Ha & Hnew).
  rewrite (Hnew Hp), app_nil_r in Ha.
  destruct (value (process_all _ _ _ w1)); [|cbn [final]; rewrite Ha; reflexivity].
  cbn [final].
  destruct (panels_cases b (final (process_all (env_of sb models argsort) unbound
                                     (files_of mode) w1)))
    as (_ & _ & _ & _ & _ & _ & Hf).
  rewrite (Hf Hc), Ha. reflexivity.
Qed.

Lemma privacy_mode_keeps_history_witness :
  session_history (final (Scenario2.run true false Scenario.fresh)) = [].
Proof.
  apply (privacy_mode_keeps_history Scenario2.loaders (Scenario2.sidebar true false)
           Scenario.argsort (SingleImage (Some Scenario.upload))
           Scenario2.no_buttons Scenario.fresh); reflexivity.
Defined.

(** *** Model invocations of a run *)

Lemma main_predictions ld sb argsort mode b w :
  Forall (eq Species) (predictions (events (main ld sb argsort mode b w)))
  /\ length (predictions (events (main ld sb argsort mode b w))) <= length (files_of mode).
Proof.
  destruct (main_events_split ld sb argsort mode b w)
    as (models & qb & qa & Hqb & Hqa & [-> | ->]).
  - rewrite (proj1 (projections_quiet _ Hqb)). split; [constructor|cbn; lia].
  - rewrite !predictions_app, (proj1 (projections_quiet _ Hqb)),
      (proj1 (projections_quiet _ Hqa)), app_nil_r. cbn [app].
    apply process_all_predictions.
Qed.

(** X13.  With the offline box ticked no breed head is invoked during
    the run, whatever the confidences: the only model calls are calls
    of the species model (also when the session was online as the run
    started, so that all three full models were loaded). *)
Theorem offline_run_invokes_species_only ld sb argsort mode b w :
  sb_offline_mode sb = true ->
  Forall (eq Species) (predictions (events (main ld sb argsort mode b w))).
Proof.
  intros _. apply main_predictions.
Qed.

Lemma offline_run_invokes_species_only_witness :
  Forall (eq Species) (predictions (events (Scenario2.run true true Scenario.fresh))).
Proof.
  apply (offline_run_invokes_species_only Scenario2.loaders (Scenario2.sidebar true true)
           Scenario.argsort (SingleImage (Some Scenario.upload))
           Scenario2.no_buttons Scenario.fresh).
  reflexivity.
Defined.

(** X14.  A run of [main] invokes the species model at most once per
    accepted upload, and never more than 20 times: a batch of more than
    20 files is cut to its first 20. *)
Theorem species_model_called_at_most_20_times ld sb argsort mode b w :
  species_calls (events (main ld sb argsort mode b w)) <= length (files_of mode)
  /\ length (files_of mode) <= 20
  /\ (forall files, mode = BatchUpload files -> files_of mode = firstn 20 files).
Proof.
  split; [|split; [apply length_files_of|]].
  - pose proof (species_calls_length (events (main ld sb argsort mode b w))).
    pose proof (proj2 (main_predictions ld sb argsort mode b w)). lia.
  - intros files ->. unfold files_of.
    destruct (Nat.ltb_spec 20 (length files)); [reflexivity|].
    symmetry. apply firstn_all2. lia.
Qed.

Lemma process_all_no_breed env ups : forall locals w,
  metrics (events (process_all env locals ups w)) = []
  /\ ~ In "breed_pred" (subheaders (events (process_all env locals ups w))).
Proof.
  induction ups as [|up rest IH]; intros locals w; cbn [process_all].
  - cbn. auto.
  - destruct (process_image_no_breed env locals up w) as (H1 & H2).
    destruct (value (process_image env locals up w)) as [ls|e] eqn:Hv.
    + rewrite (bind_ok _ _ _ _ Hv). cbn [events].
      destruct (IH ls (final (process_image env locals up w))) as (H3 & H4).
      rewrite metrics_app, subheaders_app, H1, H3, in_app_iff. split; [reflexivity|tauto].
    + rewrite (bind_raise _ _ _ _ Hv). cbn [events]. auto.
Qed.

(** X21.  No run of [main] reaches a breed head.  Online the loop
    stops at the species labels; offline the guardrail and the breed
    stage are switched off.  So every model call of any run is a call
    of the species model, no top-1 metric of a guardrail head is ever
    reported and the breed heading is never shown. *)
Theorem no_run_reaches_a_breed_head ld sb argsort mode b w :
  let o := main ld sb argsort mode b w in
  Forall (eq Species) (predictions (events o))
  /\ metrics (events o) = []
  /\ ~ In "breed_pred" (subheaders (events o)).
Proof.
  cbn zeta. split; [apply main_predictions|].
  destruct (main_events_split ld sb argsort mode b w)
    as (models & qb & qa & Hqb & Hqa & [-> | ->]).
  - destruct (projections_quiet _ Hqb) as (_ & -> & ->). auto.
  - destruct (projections_quiet _ Hqb) as (_ & Hb1 & Hb2).
    destruct (projections_quiet _ Hqa) as (_ & Ha1 & Ha2).
    destruct (process_all_no_breed (env_of sb models argsort) (files_of mode) unbound
                (with_offline (sb_offline_mode sb) (with_privacy (sb_privacy_mode sb) w)))
      as (H1 & H2).
    rewrite !metrics_app, !subheaders_app, Hb1, Hb2, Ha1, Ha2, H1, ?app_nil_r.
    cbn [app]. split; [reflexivity|exact H2].
Qed.

(** *** Stale models after leaving offline mode *)

(** X15.  The models are chosen by the offline flag the session holds
    when the run starts, before the check box is read.  So in the run
    in which the user leaves offline mode (flag still set, box now
    unticked) the three model files are not opened: the MobileNet is
    the species model of the run, and the online path is taken with
    it.  As soon as there is an upload the run ends with an exception
    on the first image - [NameError] for [species_labels] when the
    MobileNet answers, [AttributeError] when it could not be built -
    and nothing is added to the session history. *)
Theorem leaving_offline_mode_fails_first_image ld sb argsort mode b w up rest :
  offline_mode w = true ->
  sb_offline_mode sb = false ->
  files_of mode = up :: rest ->
  let o := main ld sb argsort mode b w in
  let env := env_of sb (mobile_net ld, None, None) argsort in
  (exists e, value o = Raise e)
  /\ session_history (final o) = session_history w
  /\ (forall f probs,
        mobile_net ld = Some f -> f (batch_of env up) = Ok probs -> probs <> [] ->
        value o = Raise (NameError "species_labels")
        /\ predictions (events o) = [Species])
  /\ (mobile_net ld = None -> value o = Raise AttributeError)
  /\ (forall sp sh bo,
        main (mkLoaders (mobile_net ld) sp sh bo) sb argsort mode b w = o).
Proof.
  intros Hoff Hbox Hfiles. cbn zeta.
  assert (Hload : forall sp sh bo,
            main (mkLoaders (mobile_net ld) sp sh bo) sb argsort mode b w
            = main ld sb argsort mode b w).
  { intros sp sh bo. unfold main, model_loading, load_mobile_net_model, bind, get.
    cbn. rewrite Hoff. reflexivity. }
  rewrite main_eq. cbn zeta.
  destruct (model_loading_cases ld w) as (_ & Hlq & Hl & _).
  rewrite (Hl Hoff), Hfiles, Hbox. cbn [process_all].
  set (env := env_of sb (mobile_net ld, None, None) argsort).
  set (w1 := with_offline false (with_privacy (sb_privacy_mode sb) w)).
  destruct (uploaded_files_run mode w1) as (_ & _ & Huq).
  assert (Hp : process_image env unbound up w1
               = mkOutcome (quality_events env up
                            ++ events (species_stage env (batch_of env up) w1)) w1
                   (match mobile_net ld with
                    | None => Raise AttributeError
                    | Some f =>
                        match f (batch_of env up) with
                        | Raise e => Raise e
                        | Ok probs =>
                            match argmax probs with
                            | Ok _ => Raise (NameError "species_labels")
                            | Raise e => Raise e
                            end
                        end
                    end)).
  { rewrite process_image_eq. cbn zeta. rewrite species_stage_run.
    change (species_model env) with (mobile_net ld).
    change (offline_mode w1) with false.
    destruct (mobile_net ld) as [f|]; [|reflexivity].
    destruct (f (batch_of env up)) as [probs|e]; [|reflexivity].
    destruct (argmax probs); reflexivity. }
  assert (Hr : exists e, value (process_image env unbound up w1) = Raise e).
  { rewrite Hp. cbn [value]. destruct (mobile_net ld) as [f|]; [|eauto].
    destruct (f (batch_of env up)) as [probs|e]; [|eauto].
    destruct (argmax probs); eauto. }
  destruct Hr as (e & He).
  rewrite (bind_raise _ _ _ _ He). cbn [events final value].
  split; [eauto|]. split; [rewrite Hp; reflexivity|].
  split; [|split].
  - intros f probs Hm Hf Hne. rewrite Hp in He |- *. cbn [value events] in *.
    rewrite species_stage_run. change (species_model env) with (mobile_net ld).
    rewrite Hm, Hf in *.
    destruct probs as [|p ps]; [congruence|]. cbn [argmax] in He.
    split; [congruence|].
    rewrite !predictions_app, (proj1 (projections_quiet _ Hlq)),
      (proj1 (projections_quiet _ Huq)), (proj1 (quality_events_quiet env up)).
    reflexivity.
  - intros Hm. rewrite Hp in He. cbn [value] in He. rewrite Hm in He. congruence.
  - intros sp sh bo. rewrite Hload, main_eq. cbn zeta.
    rewrite (Hl Hoff), Hfiles, Hbox. cbn [process_all].
    fold env w1. rewrite (bind_raise _ _ _ _ He). reflexivity.
Qed.

Lemma leaving_offline_mode_fails_first_image_witness :
  value (Scenario2.run false false Scenario2.offline_session)
  = Raise (NameError "species_labels")
  /\ session_history (final (Scenario2.run false false Scenario2.offline_session)) = [].
Proof.
  destruct (leaving_offline_mode_fails_first_image Scenario2.loaders
              (Scenario2.sidebar false false) Scenario.argsort
              (SingleImage (Some Scenario.upload)) Scenario2.no_buttons
              Scenario2.offline_session Scenario.upload [] eq_refl eq_refl eq_refl)
    as (_ & Hh & Hn & _).
  split; [|exact Hh].
  apply (Hn (Scenario.const_model [92#100; 8#100]) [92#100; 8#100] eq_refl eq_refl).
  discriminate.
Defined.

(** *** The panels below the results *)


(** *** The session history over a batch *)

(** X17.  Without privacy mode the loop over the uploads appends one
    history record per image, in upload order and carrying that
    upload's file name and image hash, up to the image on which the
    loop ends.  That image leaves no record when an exception ends its
    iteration - unless it is the rerun of its "Analyze New Image"
    button, which comes after the record was written.  The images
    after it leave none.  When no such button is pressed the records of
    all uploads are present exactly when the loop completes. *)
Theorem history_lists_processed_images env ups locals w :
  privacy_mode w = false ->
  let o := process_all env locals ups w in
  exists n new,
    session_history (final o) = session_history w ++ new
    /\ map h_filename new = map u_name (firstn n ups)
    /\ map h_image_hash new = map u_hash (firstn n ups)
    /\ n <= length ups
    /\ ((exists ls, value o = Ok ls) -> n = length ups)
    /\ (forall e, value o = Raise e ->
          n < length ups
          \/ (e = StopException /\ 0 < n
              /\ exists up, nth_error ups (Nat.pred n) = Some up
                            /\ u_analyze_new up = true))
    /\ (Forall (fun up => u_analyze_new up = false) ups ->
        (n = length ups <-> exists ls, value o = Ok ls)).
Proof.
  cbn zeta. revert locals w.
  induction ups as [|up rest IH]; intros locals w Hpriv; cbn [process_all].
  - exists 0, []. cbn. rewrite app_nil_r.
    repeat split; eauto; intros; discriminate.
  - pose proof (process_image_final env locals up w) as H1. cbn zeta in H1.
    destruct H1 as (n1 & new1 & Hf1 & _ & H1 & _). specialize (H1 Hpriv).
    destruct (value (process_image env locals up w)) as [ls|ex] eqn:Hv.
    + destruct H1 as (e1 & -> & Hn1 & Hi1).
      rewrite (bind_ok _ _ _ _ Hv). cbn [final value].
      destruct (IH ls (final (process_image env locals up w)))
        as (n & new & Hh & Hn & Hi & Hle & Hok & Hraise & Hiff).
      { rewrite Hf1. exact Hpriv. }
      exists (S n), (e1 :: new). cbn [firstn map length].
      split; [rewrite Hh, Hf1; cbn; rewrite <- app_assoc; reflexivity|].
      split; [congruence|]. split; [congruence|]. split; [lia|].
      split; [intros H; rewrite (Hok H); reflexivity|].
      split.
      * intros e He. destruct (Hraise e He) as [Hlt | (-> & Hpos & up' & Hup & Hb)];
          [left; lia|right].
        split; [reflexivity|]. split; [lia|]. exists up'. split; [|exact Hb].
        destruct n as [|m]; [lia|]. exact Hup.
      * intros Hall. inversion Hall as [|? ? _ Hrest]; subst.
        rewrite <- (Hiff Hrest). lia.
    + rewrite (bind_raise _ _ _ _ Hv). cbn [final value].
      destruct H1 as [-> | (-> & Hb & e1 & -> & Hn1 & Hi1)].
      * exists 0, []. cbn [firstn map length]. rewrite Hf1. cbn.
        split; [reflexivity|]. split; [reflexivity|]. split; [reflexivity|].
        split; [lia|]. split; [intros [ls Hls]; discriminate Hls|].
        split; [intros e _; left; lia|].
        intros _. split; [lia|intros [ls Hls]; discriminate Hls].
      * exists 1, [e1]. cbn [firstn map length]. rewrite Hf1, !firstn_O. cbn.
        split; [reflexivity|]. split; [congruence|]. split; [congruence|].
        split; [lia|]. split; [intros [ls Hls]; discriminate Hls|].
        split.
        -- intros e He. injection He as <-. right. split; [reflexivity|]. split; [lia|].
           exists up. split; [reflexivity|exact Hb].
        -- intros Hall. inversion Hall as [|? ? Hup _]; subst. congruence.
Qed.

(** Two pictures in an offline session, both below the species
    threshold: two records, in upload order. *)
Lemma history_lists_processed_images_witness :
  let ups := [Scenario.upload; Scenario2.second_upload] in
  let o := process_all Scenario.unsure unbound ups Scenario2.offline_session in
  map h_filename (session_history (final o)) = ["cow.jpg"; "ewe.jpg"]
  /\ exists ls, value o = Ok ls.
Proof.
  cbn zeta.
  destruct (history_lists_processed_images Scenario.unsure
              [Scenario.upload; Scenario2.second_upload] unbound
              Scenario2.offline_session eq_refl)
    as (n & new & Hh & Hn & _ & _ & _ & _ & Hiff).
  assert (Hok : exists ls,
            value (process_all Scenario.unsure unbound
                     [Scenario.upload; Scenario2.second_upload]
                     Scenario2.offline_session) = Ok ls)
    by (eexists; vm_compute; reflexivity).
  split; [|exact Hok].
  assert (Hall : Forall (fun up => u_analyze_new up = false)
                   [Scenario.upload; Scenario2.second_upload])
    by (repeat constructor).
  apply (Hiff Hall) in Hok. subst n. rewrite Hh.
  change (map h_filename new = ["cow.jpg"; "ewe.jpg"]). rewrite Hn. reflexivity.
Defined.

(** X18.  Offline mode with the history switched on (privacy mode off):
    an image whose species confidence reaches the threshold cannot be
    recorded, because the history record reads the breed variables and
    no breed stage ever bound them.  The iteration ends with
    [NameError] for [br_label], after the species result was shown and
    without any breed head being invoked, and the history is left as it
    was. *)
Theorem offline_confident_image_raises env locals up w l c :
  offline_mode w = true ->
  privacy_mode w = false ->
  br_label locals = None ->
  value (species_stage env (batch_of env up) w) = Ok (l, c) ->
  Qle_bool (species_threshold env) c = true ->
  let o := process_image env locals up w in
  value o = Raise (NameError "br_label")
  /\ session_history (final o) = session_history w
  /\ predictions (events o) = [Species]
  /\ In (EvResult Confident l c) (events o).
Proof.
  intros Hoff Hpriv Hbr Hsv Hc. cbn zeta.
  rewrite process_image_eq. cbn zeta. rewrite Hsv. cbn [fst snd].
  rewrite Hbr.
  match goal with |- context [history_stage env up l c ?ls ?wb] =>
    pose proof (history_stage_cases env up l c ls wb) as Hh
  end.
  cbn zeta in Hh. destruct Hh as (_ & _ & _ & Hh). specialize (Hh Hpriv).
  rewrite Hc in Hh. cbn [br_label br_conf] in Hh.
  destruct Hh as (Hv & Hf). rewrite Hv. cbn [value final events]. rewrite Hf.
  split; [reflexivity|]. split; [reflexivity|].
  destruct (quality_events_quiet env up) as (Hq & _).
  destruct (display_events_quiet env l c) as (Hd & _).
  split.
  - rewrite !predictions_app, Hq, Hd. reflexivity.
  - rewrite !in_app_iff. right. right. unfold display_events. rewrite Hc.
    right. left. reflexivity.
Qed.

Lemma offline_confident_image_raises_witness :
  let w := mkWorld true false [] [] None [] Scenario.wall_clock 0 in
  value (process_image Scenario.confident_bovine unbound Scenario.upload w)
  = Raise (NameError "br_label").
Proof.
  cbn zeta.
  apply (offline_confident_image_raises Scenario.confident_bovine unbound Scenario.upload
           (mkWorld true false [] [] None [] Scenario.wall_clock 0)
           "bovine" (92#100));
    reflexivity.
Defined.

(** *** The species label offline, and a missing MobileNet *)

(** X20.  Offline, the species label does not come from the label
    list: class 0 is taken to be "bovine" and anything else "sheep".
    For a two-class answer that sums to 1 the label is "bovine" exactly
    when its probability exceeds one half, the confidence is the
    probability of the reported label, and it is never below one
    half. *)
Theorem offline_species_label env t w lite p0 p1 :
  offline_mode w = true ->
  species_model env = Some lite -> lite t = Ok [p0; p1] ->
  (p0 + p1 == 1)%Q ->
  exists l c,
    value (species_stage env t w) = Ok (l, c)
    /\ ((1#2 < p0 /\ l = "bovine" /\ c = p0)%Q
        \/ (p0 <= 1#2 /\ l = "sheep" /\ c == p1)%Q)
    /\ (1#2 <= c)%Q.
Proof.
  intros Hoff Hm Hf Hsum.
  rewrite species_stage_run, Hm, Hf, Hoff. cbn.
  destruct (Qltb (1#2) p0) eqn:Hb; destruct (Qltb p0 p1) eqn:Hc; cbn;
    first [apply Qltb_true in Hb | apply Qltb_false in Hb];
    first [apply Qltb_true in Hc | apply Qltb_false in Hc].
  - exfalso. lra.
  - exists "bovine", p0. split; [reflexivity|]. split; [left; auto|lra].
  - exists "sheep", p1. split; [reflexivity|]. split; [right; repeat split; auto; reflexivity|lra].
  - exists "sheep", p0. split; [reflexivity|]. split; [right; repeat split; auto; lra|lra].
Qed.

Lemma offline_species_label_witness :
  exists l c,
    value (species_stage Scenario.unsure (batch_of Scenario.unsure Scenario.upload)
             Scenario2.offline_session) = Ok (l, c)
    /\ ((1#2 < 55#100 /\ l = "bovine" /\ c = 55#100)%Q
        \/ (55#100 <= 1#2 /\ l = "sheep" /\ c == 45#100)%Q)
    /\ (1#2 <= c)%Q.
Proof.
  apply (offline_species_label Scenario.unsure (batch_of Scenario.unsure Scenario.upload)
           Scenario2.offline_session (Scenario.const_model [55#100; 45#100])
           (55#100) (45#100)); reflexivity.
Defined.

(** X29.  A MobileNet that cannot be built does not stop an offline
    run: [load_mobile_net_model] reports the failure and hands back
    [None], and the first uploaded image then ends the run with
    [AttributeError] at the species stage, no model having been
    invoked and nothing added to the history. *)
Theorem offline_run_without_mobile_net ld sb argsort mode b w up rest :
  offline_mode w = true ->
  mobile_net ld = None ->
  files_of mode = up :: rest ->
  let o := main ld sb argsort mode b w in
  value o = Raise AttributeError
  /\ errors (events o) = ["Failed to load MobileNet model"]
  /\ predictions (events o) = []
  /\ session_history (final o) = session_history w.
Proof.
  intros Hoff Hnet Hfiles. cbn zeta. rewrite main_eq. cbn zeta.
  destruct (model_loading_cases ld w) as (_ & _ & Hl & _).
  rewrite (Hl Hoff), Hnet, Hfiles.
  assert (Hle : events (model_loading ld w) = [EvError "Failed to load MobileNet model"]).
  { unfold model_loading, load_mobile_net_model, bind, get, emit, ret. cbn.
    rewrite Hoff, Hnet. reflexivity. }
  set (w1 := with_offline (sb_offline_mode sb) (with_privacy (sb_privacy_mode sb) w)).
  set (env := env_of sb (None, None, None) argsort).
  destruct (uploaded_files_run mode w1) as (_ & _ & Huq).
  pose proof (uploaded_files_no_error mode w1) as Hue.
  assert (Hp : process_image env unbound up w1
               = mkOutcome (quality_events env up ++ []) w1 (Raise AttributeError)).
  { rewrite process_image_eq. cbn zeta. rewrite species_stage_run. reflexivity. }
  cbn [process_all].
  rewrite (bind_raise _ _ _ AttributeError) by (rewrite Hp; reflexivity).
  rewrite Hp. cbn [events final value]. rewrite app_nil_r.
  destruct (quality_events_quiet env up) as (Hq & _).
  split; [reflexivity|]. split; [|split; [|reflexivity]].
  - rewrite !errors_app, Hle, Hue, quality_events_no_error. reflexivity.
  - rewrite !predictions_app, Hle, (proj1 (projections_quiet _ Huq)), Hq. reflexivity.
Qed.

Lemma offline_run_without_mobile_net_witness :
  let ld := mkLoaders None (Raise OSError) (Raise OSError) (Raise OSError) in
  let o := main ld (Scenario2.sidebar true true) Scenario.argsort
             (SingleImage (Some Scenario.upload)) Scenario2.no_buttons
             Scenario2.offline_session in
  value o = Raise AttributeError
  /\ errors (events o) = ["Failed to load MobileNet model"]
  /\ predictions (events o) = []
  /\ session_history (final o) = session_history Scenario2.offline_session.
Proof.
  apply (offline_run_without_mobile_net
           (mkLoaders None (Raise OSError) (Raise OSError) (Raise OSError))
           (Scenario2.sidebar true true) Scenario.argsort
           (SingleImage (Some Scenario.upload)) Scenario2.no_buttons
           Scenario2.offline_session Scenario.upload []); reflexivity.
Defined.

End MainFacts.
(** ** The ledger file and its header *)

Section LedgerHeader.
Import Router.

Lemma record_calls_existing calls : forall w pieces,
  corrections_csv w = Some pieces ->
  exists oks added,
    value (record_calls calls w) = Ok oks
    /\ corrections_csv (final (record_calls calls w)) = Some (pieces ++ added)
    /\ Forall (fun p => header_piece p = false) added.
Proof.
  induction calls as [|c rest IH]; intros w pieces Hw; cbn [record_calls].
  - exists [], []. rewrite app_nil_r. cbn. auto.
  - pose proof (record_correction_cases "Correction saved!"
                  (k_image_hash c) (k_predicted c) (k_actual c) (k_confidence c) w) as Hc.
    cbn zeta in Hc.
    destruct Hc as (ok & added1 & wrote & ents1 & Hv & _ & _ & _ & Hp & Hex & _).
    destruct Hex as (Hsome & Hnh); [congruence|].
    rewrite (bind_ok _ _ _ _ Hv). cbn [events final value].
    set (w1 := final (record_correction _ _ _ _ _ w)) in *.
    assert (Hw1 : corrections_csv w1 = Some (pieces ++ added1)).
    { destruct (corrections_csv w1) as [x|]; [|congruence].
      rewrite Hw in Hp. cbn in Hp. congruence. }
    destruct (IH w1 _ Hw1) as (oks & added & IHv & IHc & IHh).
    rewrite (bind_ok _ _ _ _ IHv). cbn [events final value ret].
    exists (ok :: oks), (added1 ++ added).
    split; [reflexivity|]. split; [rewrite IHc, <- app_assoc; reflexivity|].
    apply Forall_app. auto.
Qed.

(** X22.  A ledger file that exists only ever gets correction records,
    or parts of them, appended: what it holds stays in place as a
    prefix, and neither the header line nor a part of it is written to
    it, whatever the storage does.  (The header goes to a file the call
    itself creates.)  In particular a file that exists but is empty
    never gets a header. *)
Theorem existing_ledger_gets_no_header calls w pieces :
  corrections_csv w = Some pieces ->
  let o := record_calls calls w in
  exists added,
    corrections_csv (final o) = Some (pieces ++ added)
    /\ Forall (fun p => header_piece p = false) added.
Proof.
  intros Hw. cbn zeta.
  destruct (record_calls_existing calls w pieces Hw) as (oks & added & _ & Hc & Hh).
  exists added. auto.
Qed.

(** An empty file and one accepted call: the record, and no header. *)
Lemma existing_ledger_gets_no_header_witness :
  let w := mkWorld false false [] [] (Some []) [] Scenario.wall_clock 0 in
  let o := record_calls [mkCall "5d41402abc4b2a76" "Gir" "Sahiwal" (40#100)] w in
  value o = Ok [true]
  /\ exists added,
       corrections_csv (final o) = Some ([] ++ added)
       /\ Forall (fun p => header_piece p = false) added
       /\ records (Some added)
          = [mkCorrection "T0" "5d41402abc4b2a76" "Gir" "Sahiwal" (40#100)].
Proof.
  cbn zeta. split; [reflexivity|].
  destruct (existing_ledger_gets_no_header
              [mkCall "5d41402abc4b2a76" "Gir" "Sahiwal" (40#100)]
              (mkWorld false false [] [] (Some []) [] Scenario.wall_clock 0) [] eq_refl)
    as (added & Hc & Hh).
  exists added. split; [exact Hc|]. split; [exact Hh|].
  cbn in Hc. injection Hc as <-. reflexivity.
Defined.

(** X23.  If the ledger file is missing and the first write to it
    fails before the header line is complete, the call is refused and
    leaves the file behind, empty or with a part of the header line.
    From then on the file exists, so no later call writes the header:
    whatever corrections follow, the file never holds a complete header
    line. *)
Theorem failed_header_write_is_never_repaired c calls w rest partial :
  corrections_csv w = None ->
  io_faults w = FlushFails 0 partial :: rest ->
  let o := record_calls (c :: calls) w in
  exists oks added,
    value o = Ok (false :: oks)
    /\ corrections_csv (final o)
       = Some ((if partial then [Fragment Header] else []) ++ added)
    /\ Forall (fun p => header_piece p = false) added
    /\ ~ In (Whole Header) (pieces_of (corrections_csv (final o))).
Proof.
  destruct w as [off priv hist q csv faults clk tk]. cbn [corrections_csv io_faults].
  intros -> ->. cbn zeta. cbn [record_calls].
  set (w := mkWorld off priv hist q None (FlushFails 0 partial :: rest) clk tk).
  set (left_behind := if partial then [Fragment Header] else []).
  assert (H1 : record_correction "Correction saved!" (k_image_hash c) (k_predicted c)
                 (k_actual c) (k_confidence c) w
               = mkOutcome [EvError "Failed to save correction";
                            EvError "Failed to save correction"]
                           (mkWorld off priv hist q (Some left_behind) rest clk (S tk))
                           (Ok false)).
  { rewrite record_correction_run, save_correction_run. subst left_behind.
    destruct partial; reflexivity. }
  rewrite (bind_ok _ _ _ false) by (rewrite H1; reflexivity).
  rewrite H1. cbn [events final value].
  destruct (record_calls_existing calls
              (mkWorld off priv hist q (Some left_behind) rest clk (S tk)) left_behind
              eq_refl) as (oks & added & Hv & Hc & Hh).
  rewrite (bind_ok _ _ _ _ Hv). cbn [events final value ret].
  exists oks, added. split; [reflexivity|]. split; [exact Hc|]. split; [exact Hh|].
  rewrite Hc. cbn [pieces_of]. rewrite in_app_iff. intros [Hin|Hin].
  - subst left_behind. destruct partial; cbn in Hin; intuition discriminate.
  - rewrite List.Forall_forall in Hh. specialize (Hh _ Hin). discriminate Hh.
Qed.

(** The flush of the first call fails inside the header line; the
    second call is accepted and its record lands behind the partial
    header. *)
Lemma failed_header_write_is_never_repaired_witness :
  let w := mkWorld false false [] [] None [FlushFails 0 true] Scenario.wall_clock 0 in
  let o := record_calls [mkCall "5d41402abc4b2a76" "Gir" "Sahiwal" (60#100);
                         mkCall "7d793037a0760186" "Gir" "Murrah" (55#100)] w in
  value o = Ok [false; true]
  /\ corrections_csv (final o)
     = Some [Fragment Header;
             Whole (Data (mkCorrection "T1" "7d793037a0760186" "Gir" "Murrah" (55#100)))]
  /\ ~ In (Whole Header) (pieces_of (corrections_csv (final o))).
Proof.
  cbn zeta.
  destruct (failed_header_write_is_never_repaired
              (mkCall "5d41402abc4b2a76" "Gir" "Sahiwal" (60#100))
              [mkCall "7d793037a0760186" "Gir" "Murrah" (55#100)]
              (mkWorld false false [] [] None [FlushFails 0 true] Scenario.wall_clock 0)
              [] true eq_refl eq_refl)
    as (oks & added & _ & _ & _ & Hno).
  split; [reflexivity|]. split; [reflexivity|exact Hno].
Defined.

End LedgerHeader.
(** ** app.py: species outcome, model failures and the candidate list *)

Section AppFacts.

#[local] Arguments App.show_topk : simpl never.
#[local] Arguments App.render_low_conf_badge : simpl never.

Lemma argmax_from_inv L : forall l pre bi b,
  L = pre ++ l ->
  nth_error pre bi = Some b ->
  (forall j y, nth_error pre j = Some y -> (y <= b)%Q) ->
  (forall j y, j < bi -> nth_error pre j = Some y -> (y < b)%Q) ->
  exists c,
    nth_error L (argmax_from bi b (length pre) l) = Some c
    /\ (forall j y, nth_error L j = Some y -> (y <= c)%Q)
    /\ (forall j y, j < argmax_from bi b (length pre) l ->
                    nth_error L j = Some y -> (y < c)%Q).
Proof.
  induction l as [|x t IH]; intros pre bi b HL Hb Hmax Hfirst.
  - cbn [argmax_from]. rewrite app_nil_r in HL. subst L. exists b. auto.
  - cbn [argmax_from].
    assert (HL' : L = (pre ++ [x]) ++ t) by (rewrite <- app_assoc; exact HL).
    assert (Hlen : length (pre ++ [x]) = S (length pre))
      by (rewrite length_app; cbn; lia).
    assert (Hbi : bi < length pre) by (apply nth_error_Some; congruence).
    destruct (Qltb b x) eqn:Hlt.
    + apply Qltb_true in Hlt. rewrite <- Hlen.
      apply (IH (pre ++ [x]) (length pre) x HL').
      * rewrite nth_error_app2 by lia. rewrite Nat.sub_diag. reflexivity.
      * intros j y Hj.
        destruct (Nat.lt_ge_cases j (length pre)) as [Hjl|Hjl].
        -- rewrite nth_error_app1 in Hj by exact Hjl. specialize (Hmax j y Hj). lra.
        -- rewrite nth_error_app2 in Hj by exact Hjl.
           destruct (j - length pre) as [|k]; cbn in Hj;
             [injection Hj as <-; lra|destruct k; discriminate Hj].
      * intros j y Hjl Hj. rewrite nth_error_app1 in Hj by exact Hjl.
        specialize (Hmax j y Hj). lra.
    + apply Qltb_false in Hlt. rewrite <- Hlen.
      apply (IH (pre ++ [x]) bi b HL').
      * rewrite nth_error_app1 by exact Hbi. exact Hb.
      * intros j y Hj.
        destruct (Nat.lt_ge_cases j (length pre)) as [Hjl|Hjl].
        -- rewrite nth_error_app1 in Hj by exact Hjl. exact (Hmax j y Hj).
        -- rewrite nth_error_app2 in Hj by exact Hjl.
           destruct (j - length pre) as [|k]; cbn in Hj;
             [injection Hj as <-; exact Hlt|destruct k; discriminate Hj].
      * intros j y Hjl Hj. rewrite nth_error_app1 in Hj by lia.
        exact (Hfirst j y Hjl Hj).
Qed.

Lemma argmax_first_maximum l i :
  argmax l = Ok i ->
  exists c,
    nth_error l i = Some c
    /\ (forall j y, nth_error l j = Some y -> (y <= c)%Q)
    /\ (forall j y, j < i -> nth_error l j = Some y -> (y < c)%Q).
Proof.
  destruct l as [|x t]; cbn [argmax]; [discriminate|]. intros [= <-].
  apply (argmax_from_inv (x :: t) t [x] 0 x eq_refl eq_refl).
  - intros [|[|j]] y Hj; cbn in Hj; try discriminate Hj. injection Hj as <-. lra.
  - intros j y Hj. lia.
Qed.

(** The results column opens with the species call, the heading and
    the species outcome. *)
Lemma results_column_species env image s sp_probs i l c :
  App.species_model env (prepare_image image (App.img_size env) true) = Ok sp_probs ->
  argmax sp_probs = Ok i ->
  label_or (App.species_labels s) i "unknown" = Ok l ->
  index sp_probs i = Ok c ->
  exists rest,
    events (App.results_column env (Some image) s)
    = EvPredict Species :: EvSubheader "Stage 1 - Species" :: EvWrite l c :: rest.
Proof.
  intros Hsp Hi Hl Hc. unfold App.results_column.
  match goal with |- context [bind ?m ?k s] =>
    assert (Hm : m s = mkOutcome [EvPredict Species] s (Ok sp_probs))
      by (unfold try_except, predict, bind, emit, lift; rewrite Hsp; reflexivity);
    rewrite (bind_ok m k s sp_probs) by (rewrite Hm; reflexivity);
    rewrite Hm
  end.
  cbn [events final value app].
  rewrite (bind_ok get _ s s eq_refl). cbn [get events final value app].
  rewrite (bind_ok (lift (argmax sp_probs)) _ s i) by exact Hi.
  cbn [lift events final value app].
  rewrite (bind_ok (lift (label_or (App.species_labels s) i "unknown")) _ s l) by exact Hl.
  cbn [lift events final value app].
  rewrite (bind_ok (lift (index sp_probs i)) _ s c) by exact Hc.
  cbn [lift events final value app].
  rewrite (bind_ok (emit (EvSubheader "Stage 1 - Species")) _ s tt eq_refl).
  cbn [emit events final value app].
  rewrite (bind_ok (emit (EvWrite l c)) _ s tt eq_refl).
  cbn [emit events final value app].
  eexists. reflexivity.
Qed.

(** X19.  In app.py the species stage reports the largest probability
    of the model's answer as the confidence and, as the label, the
    label of the first class that reaches it (or "unknown" beyond the
    label list): on a tie the class that comes first wins. *)
Theorem species_confidence_is_first_maximum env image s probs :
  App.species_model env (prepare_image image (App.img_size env) true) = Ok probs ->
  probs <> [] ->
  exists i l c rest,
    events (App.results_column env (Some image) s)
    = EvPredict Species :: EvSubheader "Stage 1 - Species" :: EvWrite l c :: rest
    /\ nth_error probs i = Some c
    /\ label_or (App.species_labels s) i "unknown" = Ok l
    /\ (forall j p, nth_error probs j = Some p -> (p <= c)%Q)
    /\ (forall j p, j < i -> nth_error probs j = Some p -> (p < c)%Q).
Proof.
  intros Hsp Hne.
  assert (Hi : exists i, argmax probs = Ok i)
    by (destruct probs; [congruence|cbn; eauto]).
  destruct Hi as [i Hi].
  destruct (argmax_first_maximum probs i Hi) as (c & Hn & Hmax & Hfirst).
  destruct (label_or_total (App.species_labels s) i "unknown") as [l Hl].
  assert (Hc : index probs i = Ok c) by (unfold index; rewrite Hn; reflexivity).
  destruct (results_column_species env image s probs i l c Hsp Hi Hl Hc) as [rest Hev].
  exists i, l, c, rest. auto.
Qed.

(** A tie between the two species: the first one, bovine, is shown. *)
Lemma species_confidence_is_first_maximum_witness :
  let env := App.mkEnv 224 (Scenario.const_model [50#100; 50#100])
               (Scenario.const_model [60#100; 40#100])
               (Scenario.const_model [75#100; 15#100; 10#100]) Scenario.argsort in
  let s := App.mkSession Scenario.species_labels Scenario.sheep_labels
             Scenario.bovine_labels in
  exists rest,
    events (App.results_column env (Some Scenario.picture) s)
    = EvPredict Species :: EvSubheader "Stage 1 - Species"
      :: EvWrite "bovine" (50#100) :: rest.
Proof.
  cbn zeta.
  destruct (species_confidence_is_first_maximum
              (App.mkEnv 224 (Scenario.const_model [50#100; 50#100])
                 (Scenario.const_model [60#100; 40#100])
                 (Scenario.const_model [75#100; 15#100; 10#100]) Scenario.argsort)
              Scenario.picture
              (App.mkSession Scenario.species_labels Scenario.sheep_labels
                 Scenario.bovine_labels)
              [50#100; 50#100] eq_refl)
    as (i & l & c & rest & Hev & Hn & Hl & Hmax & Hfirst); [discriminate|].
  assert (Hi : i = 0).
  { destruct i as [|[|i]]; [reflexivity| |destruct i; discriminate Hn].
    exfalso. cbn in Hn. injection Hn as <-.
    specialize (Hfirst 0 (50#100) (Nat.lt_0_succ 0) eq_refl).
    revert Hfirst. apply Qlt_irrefl. }
  subst i. cbn in Hn, Hl. injection Hn as <-. injection Hl as <-.
  exists rest. exact Hev.
Defined.

(** The model invocations of the results column once the species stage
    went through: the species model, and the routed head if it has
    labels. *)
Lemma results_column_predictions env image s sp_probs i l :
  App.species_model env (prepare_image image (App.img_size env) true) = Ok sp_probs ->
  argmax sp_probs = Ok i ->
  label_or (App.species_labels s) i "unknown" = Ok l ->
  predictions (events (App.results_column env (Some image) s))
  = Species :: match App.labels_of s (route l) with [] => [] | _ => [route l] end.
Proof.
  intros Hsp Hi Hl.
  destruct (argmax_index _ _ Hi) as [c Hc].
  destruct (render_low_conf_badge_run c s) as (b1 & Hb1 & Hq1 & He1).
  destruct (when_warning_run (Qltb c (50#100))
              (EvWarning "Model is not confident about the species (< 50%). Please verify manually.")
              s Logic.I) as (evw & Hw & Hqw & _).
  destruct (projections_quiet _ Hqw) as (Hw1 & _).
  destruct (projections_quiet [b1]) as (Hp1 & _);
    [constructor; [exact Hq1|constructor]|].
  unfold App.results_column, App.stop, try_except, predict, bind, emit, lift, get, raise, ret.
  rewrite Hsp. cbn. rewrite Hi. cbn. rewrite Hl. cbn. rewrite Hc. cbn.
  rewrite Hb1. cbn.
  unfold emit in Hw. rewrite Hw. cbn.
  unfold predictions in *. cbn [flat_map app] in Hp1. rewrite app_nil_r in Hp1.
  destruct (App.labels_of s (route l)) as [|lab labs]; cbn.
  { rewrite ?Hp1, !flat_map_app, ?Hw1. reflexivity. }
  destruct (App.model_of env (route l) _) as [br_probs|e]; cbn.
  2:{ rewrite ?Hp1, !flat_map_app, ?Hw1. reflexivity. }
  destruct (argmax br_probs) as [j|e] eqn:Hj; cbn.
  2:{ rewrite ?Hp1, !flat_map_app, ?Hw1. reflexivity. }
  destruct (label_or_total (lab :: labs) j (class_placeholder (head_name (route l)) j))
    as [bl Hbl].
  destruct (argmax_index _ _ Hj) as [bc Hbc].
  rewrite Hbl; cbn; rewrite Hbc; cbn.
  destruct (render_low_conf_badge_run bc s) as (b2 & Hb2 & Hq2 & _).
  destruct (projections_quiet [b2]) as (Hp2 & _);
    [constructor; [exact Hq2|constructor]|].
  unfold predictions in Hp2. cbn [flat_map app] in Hp2. rewrite app_nil_r in Hp2.
  rewrite Hb2; cbn.
  destruct (when_warning_run (Qltb bc (50#100))
              (EvError "Breed confidence is below 50%. Please cross-check manually before recording.")
              s Logic.I) as (evb & Hbw & Hqb & _).
  destruct (projections_quiet _ Hqb) as (Hb1' & _).
  unfold emit in Hbw. rewrite Hbw. cbn.
  pose proof (show_topk_cases env (lab :: labs) br_probs s) as Hk. cbn zeta in Hk.
  destruct Hk as (_ & Hkq & _).
  destruct (projections_quiet _ Hkq) as (Hk1 & _).
  destruct (App.show_topk env (lab :: labs) br_probs s) as [evk sk vk].
  cbn in Hk1 |- *. unfold predictions in *.
  rewrite ?Hp1, ?Hp2, !flat_map_app, ?Hw1. cbn.
  rewrite ?Hp2, ?flat_map_app, ?Hb1', ?Hk1. reflexivity.
Qed.

(** X28.  In app.py a species answer whose class index lies beyond the
    species label list is shown as "unknown" and is routed like any
    label other than "sheep": the bovine head is the one that is
    invoked (if it has labels), never the sheep head. *)
Theorem unlisted_species_goes_to_bovine_head env image s sp_probs i :
  App.species_model env (prepare_image image (App.img_size env) true) = Ok sp_probs ->
  argmax sp_probs = Ok i ->
  length (App.species_labels s) <= i ->
  let o := App.results_column env (Some image) s in
  (exists c rest,
     index sp_probs i = Ok c
     /\ events o = EvPredict Species :: EvSubheader "Stage 1 - Species"
                   :: EvWrite "unknown" c :: rest)
  /\ predictions (events o)
     = Species :: match App.bovine_labels s with [] => [] | _ => [Bovine] end.
Proof.
  intros Hsp Hi Hlen. cbn zeta.
  pose proof (label_or_beyond (App.species_labels s) i "unknown" Hlen) as Hl.
  destruct (argmax_index _ _ Hi) as [c Hc].
  split.
  - destruct (results_column_species env image s sp_probs i "unknown" c Hsp Hi Hl Hc)
      as [rest Hev].
    exists c, rest. auto.
  - rewrite (results_column_predictions env image s sp_probs i "unknown" Hsp Hi Hl).
    reflexivity.
Qed.

(** Two species labels against a species model with three classes, the
    third being the likeliest. *)
Lemma unlisted_species_goes_to_bovine_head_witness :
  let env := App.mkEnv 224 (Scenario.const_model [5#100; 5#100; 90#100])
               (Scenario.const_model [60#100; 40#100])
               (Scenario.const_model [75#100; 15#100; 10#100]) Scenario.argsort in
  let s := App.mkSession Scenario.species_labels Scenario.sheep_labels
             Scenario.bovine_labels in
  predictions (events (App.results_column env (Some Scenario.picture) s))
  = [Species; Bovine].
Proof.
  cbn zeta.
  refine (proj2 (unlisted_species_goes_to_bovine_head
                   (App.mkEnv 224 (Scenario.const_model [5#100; 5#100; 90#100])
                      (Scenario.const_model [60#100; 40#100])
                      (Scenario.const_model [75#100; 15#100; 10#100]) Scenario.argsort)
                   Scenario.picture
                   (App.mkSession Scenario.species_labels Scenario.sheep_labels
                      Scenario.bovine_labels)
                   [5#100; 5#100; 90#100] 2 eq_refl eq_refl _)).
  vm_compute. lia.
Defined.

(** *** Placeholder names *)

Lemma str_of_nat_inj i j : str_of_nat i = str_of_nat j -> i = j.
Proof.
  unfold str_of_nat. intros H.
  assert (Hu : Nat.to_uint i = Nat.to_uint j).
  { pose proof (NilEmpty.usu (Nat.to_uint i)) as Hi.
    pose proof (NilEmpty.usu (Nat.to_uint j)) as Hj.
    rewrite H in Hi. congruence. }
  rewrite <- (DecimalNat.Unsigned.of_to i), <- (DecimalNat.Unsigned.of_to j), Hu.
  reflexivity.
Qed.

(** X24.  The placeholder names synthesized for classes of a breed
    head without a label, [sheep_class_<i>] and [bovine_class_<i>],
    are unambiguous: the name determines the head and the class index.
    The candidate list of app.py names such a class [class_<i>]
    instead, which is never the name the result line gives it. *)
Theorem class_placeholder_injective l1 i1 l2 i2 :
  (class_placeholder (head_name (route l1)) i1
   = class_placeholder (head_name (route l2)) i2
   <-> route l1 = route l2 /\ i1 = i2)
  /\ class_placeholder "sheep" i1 <> class_placeholder "bovine" i2
  /\ class_placeholder (head_name (route l1)) i1
     <> String.append "class_" (str_of_nat i2).
Proof.
  split; [|split].
  - split; [|intros [-> ->]; reflexivity].
    unfold class_placeholder, route.
    destruct (String.eqb (lower l1) "sheep"), (String.eqb (lower l2) "sheep"); cbn;
      intros H; try discriminate H;
      (split; [reflexivity|]); apply str_of_nat_inj;
      repeat (injection H as H); exact H.
  - discriminate.
  - unfold class_placeholder, route.
    destruct (String.eqb (lower l1) "sheep"); discriminate.
Qed.

(** X25.  A species model that raises: the results column of the
    primary upload catches the exception, reports "Species model failed
    to run" and stops the script; the flow for a queued next image has
    no handler, so there the model's exception escapes.  Either way the
    breed stage is not reached. *)
Theorem species_model_failure env image s e :
  App.species_model env (prepare_image image (App.img_size env) true) = Raise e ->
  let o := App.results_column env (Some image) s in
  let o' := App.results_column_next env image s in
  (value o = Raise StopException
   /\ errors (events o) = ["Species model failed to run"]
   /\ predictions (events o) = [Species])
  /\ (value o' = Raise e
      /\ errors (events o') = []
      /\ predictions (events o') = [Species]).
Proof.
  intros H. cbn zeta.
  unfold App.results_column, App.results_column_next, App.stop, try_except, predict,
    bind, emit, lift, raise.
  rewrite H. cbn. repeat split.
Qed.

Lemma species_model_failure_witness :
  let env := App.mkEnv 224 Scenario.failing_model Scenario.failing_model
               Scenario.failing_model Scenario.argsort in
  value (App.results_column env (Some Scenario.picture) Scenario.app_session_no_sheep)
  = Raise StopException
  /\ value (App.results_column_next env Scenario.picture Scenario.app_session_no_sheep)
     = Raise ModelError.
Proof.
  cbn zeta.
  destruct (species_model_failure
              (App.mkEnv 224 Scenario.failing_model Scenario.failing_model
                 Scenario.failing_model Scenario.argsort)
              Scenario.picture Scenario.app_session_no_sheep ModelError eq_refl)
    as ((H1 & _) & (H2 & _)).
  split; assumption.
Defined.

(** X26.  A breed model that raises, after the species stage went
    through and the routed head has labels: the results column of the
    primary upload reports "<Head> breed model failed to run" as its
    only error and stops the script, having invoked the species model
    and the routed head; in the flow for a queued next image the
    model's exception escapes. *)
Theorem breed_model_failure env image s sp_probs i l e :
  let arr := prepare_image image (App.img_size env) true in
  App.species_model env arr = Ok sp_probs ->
  argmax sp_probs = Ok i ->
  label_or (App.species_labels s) i "unknown" = Ok l ->
  App.labels_of s (route l) <> [] ->
  App.model_of env (route l) arr = Raise e ->
  let o := App.results_column env (Some image) s in
  let o' := App.results_column_next env image s in
  (value o = Raise StopException
   /\ errors (events o) = [App.model_failed_msg (route l)]
   /\ predictions (events o) = [Species; route l])
  /\ (value o' = Raise e /\ predictions (events o') = [Species; route l]).
Proof.
  intros arr Hsp Hi Hl Hne Hbr. cbn zeta.
  destruct (argmax_index _ _ Hi) as [c Hc].
  destruct (render_low_conf_badge_run c s) as (b1 & Hb1 & Hq1 & He1).
  destruct (when_warning_run (Qltb c (50#100))
              (EvWarning "Model is not confident about the species (< 50%). Please verify manually.")
              s Logic.I) as (evw & Hw & Hqw & Hew).
  assert (Hew' : errors evw = []) by (destruct Hew as [H|H]; exact H).
  destruct (projections_quiet _ Hqw) as (Hw1 & _).
  assert (Hp1 : predictions [b1] = []).
  { apply (projections_quiet [b1]). constructor; [exact Hq1|constructor]. }
  unfold App.results_column, App.results_column_next, App.stop, try_except, predict,
    bind, emit, lift, get, raise, ret.
  fold arr. rewrite Hsp. cbn. rewrite Hi. cbn. rewrite Hl. cbn. rewrite Hc. cbn.
  rewrite Hb1. cbn.
  unfold emit in Hw. rewrite Hw. cbn.
  destruct (App.labels_of s (route l)) as [|lab labs]; [congruence|]. cbn.
  rewrite Hbr. cbn.
  unfold errors, predictions in *.
  cbn [flat_map app] in He1, Hp1. rewrite app_nil_r in He1, Hp1.
  rewrite ?He1, ?Hp1, !flat_map_app, ?Hew', ?Hw1.
  repeat split.
Qed.

Lemma breed_model_failure_witness :
  let env := App.mkEnv 224 (Scenario.const_model [92#100; 8#100]) Scenario.failing_model
               Scenario.failing_model Scenario.argsort in
  let s := App.mkSession Scenario.species_labels Scenario.sheep_labels
             Scenario.bovine_labels in
  value (App.results_column env (Some Scenario.picture) s) = Raise StopException
  /\ errors (events (App.results_column env (Some Scenario.picture) s))
     = ["Bovine breed model failed to run"]
  /\ value (App.results_column_next env Scenario.picture s) = Raise ModelError.
Proof.
  cbn zeta.
  assert (Hne : App.labels_of (App.mkSession Scenario.species_labels Scenario.sheep_labels
                                 Scenario.bovine_labels) (route "bovine") <> [])
    by discriminate.
  destruct (breed_model_failure
              (App.mkEnv 224 (Scenario.const_model [92#100; 8#100]) Scenario.failing_model
                 Scenario.failing_model Scenario.argsort)
              Scenario.picture
              (App.mkSession Scenario.species_labels Scenario.sheep_labels
                 Scenario.bovine_labels)
              [92#100; 8#100] 0 "bovine" ModelError eq_refl eq_refl eq_refl Hne eq_refl)
    as ((H1 & H2 & _) & (H3 & _)).
  split; [exact H1|]. split; [exact H2|exact H3].
Defined.

Lemma topk_fold (labels : list string) (probs : list Q) (idxs : list nat) :
  (forall i, In i idxs -> i < length probs) ->
  exists cands,
    fold_right
      (fun i acc =>
         match label_or labels i (String.append "class_" (str_of_nat i)),
               index probs i, acc with
         | Ok name, Ok p, Ok rest => Ok ((name, p) :: rest)
         | Raise e, _, _ => Raise e
         | _, Raise e, _ => Raise e
         | _, _, Raise e => Raise e
         end)
      (Ok []) idxs = Ok cands
    /\ length cands = length idxs
    /\ (forall n name p, nth_error cands n = Some (name, p) ->
          exists i, nth_error idxs n = Some i
                    /\ nth_error probs i = Some p
                    /\ label_or labels i (String.append "class_" (str_of_nat i)) = Ok name).
Proof.
  intros Hin. induction idxs as [|i t IH]; cbn [fold_right].
  - exists []. split; [reflexivity|]. split; [reflexivity|].
    intros [|n] name p H; discriminate H.
  - destruct IH as (rest & Hrest & Hlen & Hnth);
      [intros j Hj; apply Hin; right; exact Hj|].
    destruct (label_or_total labels i (String.append "class_" (str_of_nat i))) as [name Hn].
    destruct (index_lt probs i (Hin i (or_introl eq_refl))) as [p Hp].
    rewrite Hn, Hp, Hrest. exists ((name, p) :: rest).
    split; [reflexivity|]. split; [cbn; lia|].
    intros [|n] name' p' H; cbn in H.
    + injection H as <- <-. exists i. split; [reflexivity|].
      split; [apply index_nth; exact Hp|exact Hn].
    + apply Hnth. exact H.
Qed.

(** X27.  [topk] of app.py, for an [argsort] that is a permutation of
    the class indices: it returns min(k, number of labels, number of
    classes) candidates; the candidate at rank n is the class the
    descending sort puts at rank n, paired with its own probability and
    with its label, or with the placeholder "class_<index>" when the
    label list is too short.  It never raises. *)
Theorem topk_candidates env labels probs k :
  Permutation (App.argsort_desc env probs) (seq 0 (length probs)) ->
  exists cands,
    App.topk env labels probs k = Ok cands
    /\ length cands = Nat.min (Nat.min k (length labels)) (length probs)
    /\ (forall n name p, nth_error cands n = Some (name, p) ->
          exists i, nth_error (App.argsort_desc env probs) n = Some i
                    /\ nth_error probs i = Some p
                    /\ label_or labels i (String.append "class_" (str_of_nat i)) = Ok name).
Proof.
  intros Hperm. unfold App.topk.
  set (m := Nat.min k (length labels)).
  destruct (topk_fold labels probs (slice 0 m (App.argsort_desc env probs)))
    as (cands & Hc & Hlen & Hnth).
  { intros i Hi. apply slice_In in Hi.
    eapply Permutation_in in Hi; [|exact Hperm]. apply in_seq in Hi. lia. }
  exists cands. split; [exact Hc|]. split.
  - rewrite Hlen. unfold slice. rewrite length_firstn, length_skipn.
    rewrite (Permutation_length Hperm), length_seq. lia.
  - intros n name p H. destruct (Hnth n name p H) as (i & Hi & Hp & Hl).
    exists i. split; [|auto].
    unfold slice in Hi. rewrite nth_error_firstn in Hi.
    destruct (n <? m - 0); [|discriminate Hi]. exact Hi.
Qed.

Lemma topk_candidates_witness :
  exists cands,
    App.topk Scenario.app_env ["Gir"; "Sahiwal"] [10#100; 75#100; 15#100] 3 = Ok cands
    /\ length cands = Nat.min (Nat.min 3 2) 3
    /\ (forall n name p, nth_error cands n = Some (name, p) ->
          exists i, nth_error (App.argsort_desc Scenario.app_env [10#100; 75#100; 15#100]) n
                    = Some i
                    /\ nth_error [10#100; 75#100; 15#100] i = Some p
                    /\ label_or ["Gir"; "Sahiwal"] i (String.append "class_" (str_of_nat i))
                       = Ok name).
Proof.
  apply (topk_candidates Scenario.app_env ["Gir"; "Sahiwal"] [10#100; 75#100; 15#100] 3).
  vm_compute.
  apply perm_trans with (l' := [1; 0; 2]); [apply perm_skip, perm_swap|apply perm_swap].
Defined.

End AppFacts.
